(** * The printer manager of the CUPS connector

    A shallow embedding of [manager/printermanager.go]: the job processor
    ([processJob], [assembleJob], [followJob]), the reconciliation round
    ([syncPrinters], [applyDiff]), the reconciliation loop
    ([syncPrintersPeriodically]) and the constructor ([NewPrinterManager]).

    The adapters the manager talks to (package [cups], package [gcp], the
    semaphores of package [lib], [os] and [time]) are not part of the file;
    they are taken as an interface, [Adapters], whose operations are
    arbitrary deterministic transformers of an abstract world.  Every call
    the manager makes is recorded, with its arguments and its result, in a
    chronological list of [Event]s, so that properties such as "exactly one
    Control call" are statements about that list. *)

From Stdlib Require Import ZArith NArith Ascii String List Lia Permutation.
From stdpp Require Import base option list gmap strings fin_maps sets.

Local Open Scope Z_scope.
Local Open Scope string_scope.
Local Open Scope list_scope.
Local Open Scope stdpp_scope.

(** ** Package [lib]: the records the manager reads *)

Module Lib.

(** Go's [error], kept as the text of [err.Error()]. *)
Abbreviation error := string (only parsing).

(** A call that returns [(value, err)]. *)
Inductive Result (A : Type) : Type :=
| Success (a : A)
| Failure (err : error).
Arguments Success {A} a.
Arguments Failure {A} err.

(** [lib.Job]: the fields the manager reads. *)
Record Job : Type := {
  GCPJobID : string;
  GCPPrinterID : string;
  FileURL : string;
  OwnerID : string;
  Title : string
}.

(** The operation of a [lib.PrinterDiff]; [OtherOperation] stands for the
    values of the Go type that are none of the four named constants: the
    [switch] of [applyDiff] has no case for them. *)
Inductive PrinterDiffOperation : Type :=
| RegisterPrinter
| UpdatePrinter
| DeletePrinter
| NoChangeToPrinter
| OtherOperation (n : N).

(** [time.Duration] is an [int64] count of nanoseconds. *)
Definition MaxInt64 : Z := 9223372036854775807.
Definition MinInt64 : Z := -9223372036854775808.
Definition isInt64 (d : Z) : Prop := MinInt64 <= d <= MaxInt64.

End Lib.
Export Lib.

(** ** What the file takes from the packages it imports *)

(** The job states of package [lib].  The declarations of
    [lib.CUPSJobState], [lib.GCPJobState] and [lib.GCPJobStateCause] are
    not in this file; the manager compares them, names six constants, relies
    on their zero values ([var cupsState lib.CUPSJobState]) and converts the
    literal [100] to a cause. *)
Class JobStates : Type := {
  CUPSJobState : Type;
  CUPSJobState_eq_dec :: EqDecision CUPSJobState;
  (** the zero value of the Go type *)
  CUPSJobStateZero : CUPSJobState;
  GCPJobState : Type;
  GCPJobState_eq_dec :: EqDecision GCPJobState;
  GCPJobStateZero : GCPJobState;
  GCPJobInProgress : GCPJobState;
  GCPJobDone : GCPJobState;
  GCPJobAborted : GCPJobState;
  (** the three named states are three states *)
  GCPJobState_distinct : NoDup [GCPJobInProgress; GCPJobDone; GCPJobAborted];
  GCPJobStateCause : Type;
  GCPJobOther : GCPJobStateCause;
  GCPJobInvalidTicket : GCPJobStateCause;
  GCPJobPrintFailure : GCPJobStateCause;
  (** conversion of an untyped integer constant, as in [return ..., "", 100] *)
  GCPJobStateCauseOf : Z -> GCPJobStateCause;
  (** the method [CUPSJobState.GCPJobState()] *)
  toGCPJobState : CUPSJobState -> GCPJobState * GCPJobStateCause
}.

(** The counting semaphores of package [lib] are shared objects; a printer
    holds a pointer to one, [nilSemaphore] being the nil pointer of the zero
    printer [lib.Printer{}]. *)
Class SemaphoreRef : Type := {
  Semaphore : Type;
  nilSemaphore : Semaphore
}.

Section Records.
Context `{SemaphoreRef}.

(** [lib.Printer]: the fields the manager reads or writes. *)
Record Printer : Type := {
  Name : string;
  GCPID : string;
  XMPPPingInterval : Z;
  CUPSJobSemaphore : Semaphore
}.

(** [lib.Printer{}] *)
Definition zeroPrinter : Printer :=
  {| Name := ""; GCPID := ""; XMPPPingInterval := 0;
     CUPSJobSemaphore := nilSemaphore |}.

Definition withSemaphore (p : Printer) (s : Semaphore) : Printer :=
  {| Name := Name p; GCPID := GCPID p;
     XMPPPingInterval := XMPPPingInterval p; CUPSJobSemaphore := s |}.

(** [lib.PrinterDiff] *)
Record PrinterDiff : Type := {
  Operation : PrinterDiffOperation;
  DiffPrinter : Printer
}.

(** What [gcp.List] returns besides the error: the printers, the queued
    job counts and the printers with a pending ping interval change (a Go
    map, given here in the order its [range] visits it). *)
Record Listing : Type := {
  listPrinters : list Printer;
  listQueuedJobsCount : list (string * N);
  listXMPPPingIntervalChanges : list string
}.
End Records.

(** A job ticket, [map[string]string]. *)
Abbreviation Options := (gmap string string) (only parsing).

(** The adapters.  [World] is everything outside the manager (the spooler,
    the cloud service, the file system, the semaphores' counts); each
    operation reads and changes it.  A call that may never return
    ([Semaphore.Acquire]) answers [None] in that case. *)
Class Adapters `{JobStates} `{SemaphoreRef} : Type := {
  World : Type;
  (** the width of Go's [uint] on the platform, 32 or 64 *)
  uintBits : N;
  (** package [cups] *)
  cupsGetPrinters : World -> Result (list Printer) * World;
  cupsGetPPD : string -> World -> Result string * World;
  cupsRemoveCachedPPD : string -> World -> World;
  (** [cups.CreateTempFile], the file standing for its name *)
  cupsCreateTempFile : World -> Result string * World;
  cupsPrint : string -> string -> string -> string -> Options ->
              World -> Result N * World;
  cupsGetJobState : N -> World -> Result (CUPSJobState * N) * World;
  (** package [gcp] *)
  gcpList : World -> Result Listing * World;
  gcpSetPrinterXMPPPingInterval : Printer -> World -> option error * World;
  gcpSetConnectorXMPPPingInterval : Z -> World -> World;
  (** [Register] and [Update] are given a pointer: they return what they
      left behind it. *)
  gcpRegister : Printer -> string -> World -> (option error * Printer) * World;
  gcpCanShare : World -> bool * World;
  gcpShare : string -> string -> World -> option error * World;
  gcpUpdate : PrinterDiff -> (World -> Result string * World) ->
              World -> (option error * PrinterDiff) * World;
  gcpDelete : string -> World -> option error * World;
  gcpPrinter : string -> World -> Result Printer * World;
  gcpTicket : string -> World -> Result Options * World;
  gcpDownload : string -> string -> World -> option error * World;
  gcpControl : string -> GCPJobState -> GCPJobStateCause -> N ->
               World -> option error * World;
  (** package [lib] *)
  libFilterRawPrinters : list Printer -> list Printer * list Printer;
  (** [None] is the nil slice *)
  libDiffPrinters : list Printer -> list Printer -> option (list PrinterDiff);
  libNewSemaphore : N -> World -> Semaphore * World;
  semAcquire : Semaphore -> World -> option World;
  semRelease : Semaphore -> World -> World;
  (** [os] and [time] *)
  osRemove : string -> World -> World;
  timeParseDuration : string -> Result Z
}.

(** How a call ends: it returns, it never returns (blocked on a semaphore
    or a channel, or still waiting for the next tick), or it panics. *)
Inductive Outcome (A : Type) : Type :=
| Return (a : A)
| Pending
| Panic.
Arguments Return {A} a.
Arguments Pending {A}.
Arguments Panic {A}.

(** The levels of [glog]. *)
Inductive Severity : Type := Info | Warning | Error.

Section Manager.
Context `{Adapters}.

(** ** The manager's state *)

(** The fields of [PrinterManager] that are set once. *)
Record Config : Type := {
  cupsQueueSize : N;
  jobFullUsername : bool;
  ignoreRawPrinters : bool;
  shareScope : string;
  downloadSemaphore : Semaphore
}.

(** The fields that change, with the world.  [tempFiles] is the set of
    files made by [cups.CreateTempFile] and not removed since. *)
Record State : Type := {
  world : World;
  gcpPrintersByGCPID : gmap string Printer;
  jobsDone : N;
  jobsError : N;
  jobsInFlight : gmap string bool;
  tempFiles : gset string
}.

Definition setWorld (w : World) (st : State) : State :=
  {| world := w; gcpPrintersByGCPID := gcpPrintersByGCPID st;
     jobsDone := jobsDone st; jobsError := jobsError st;
     jobsInFlight := jobsInFlight st; tempFiles := tempFiles st |}.

Definition setPrinters (m : gmap string Printer) (st : State) : State :=
  {| world := world st; gcpPrintersByGCPID := m;
     jobsDone := jobsDone st; jobsError := jobsError st;
     jobsInFlight := jobsInFlight st; tempFiles := tempFiles st |}.

Definition setJobsDone (n : N) (st : State) : State :=
  {| world := world st; gcpPrintersByGCPID := gcpPrintersByGCPID st;
     jobsDone := n; jobsError := jobsError st;
     jobsInFlight := jobsInFlight st; tempFiles := tempFiles st |}.

Definition setJobsError (n : N) (st : State) : State :=
  {| world := world st; gcpPrintersByGCPID := gcpPrintersByGCPID st;
     jobsDone := jobsDone st; jobsError := n;
     jobsInFlight := jobsInFlight st; tempFiles := tempFiles st |}.

Definition setJobsInFlight (m : gmap string bool) (st : State) : State :=
  {| world := world st; gcpPrintersByGCPID := gcpPrintersByGCPID st;
     jobsDone := jobsDone st; jobsError := jobsError st;
     jobsInFlight := m; tempFiles := tempFiles st |}.

Definition setTempFiles (fs : gset string) (st : State) : State :=
  {| world := world st; gcpPrintersByGCPID := gcpPrintersByGCPID st;
     jobsDone := jobsDone st; jobsError := jobsError st;
     jobsInFlight := jobsInFlight st; tempFiles := fs |}.

(** ** The record of what the manager did *)

Inductive Event : Type :=
(** [glog], with the format string of the call, or its text when the
    call has no format *)
| EvGlog (sev : Severity) (text : string)
(** the in-flight set *)
| EvInFlightAdd (gcpJobID : string)
| EvInFlightDelete (gcpJobID : string)
(** the printer table *)
| EvGet (gcpID : string) (exists_ : bool)
| EvRefresh (printers : list Printer)
(** the job pipeline *)
| EvTicket (gcpJobID : string) (ok : bool)
| EvCreateTempFile (file : option string)
| EvAcquire (s : Semaphore)
| EvRelease (s : Semaphore)
| EvDownload (file url : string) (ok : bool)
| EvClose (file : string)
| EvRemove (file : string)
| EvPrint (printer file title owner : string) (options : Options)
          (cupsJobID : option N)
| EvGetJobState (cupsJobID : N) (answer : option (CUPSJobState * N))
| EvControl (gcpJobID : string) (state : GCPJobState)
            (cause : GCPJobStateCause) (pages : N) (ok : bool)
(** reconciliation *)
| EvGetPrinters (ok : bool)
| EvGetPPD (name : string) (ok : bool)
(** [Register] and [Update], with the printer they leave in the diff *)
| EvRegister (name : string) (printer : Printer) (ok : bool)
| EvShare (gcpID scope : string) (ok : bool)
| EvUpdate (name : string) (printer : Printer) (ok : bool)
| EvRemoveCachedPPD (name : string)
| EvDelete (gcpID : string) (ok : bool)
| EvSend (p : Printer)
| EvPrinter (gcpID : string) (ok : bool)
| EvTimerReset
| EvQuitAck
(** construction *)
| EvList (ok : bool)
| EvSetPrinterXMPPPingInterval (gcpID : string) (ok : bool)
| EvSetConnectorXMPPPingInterval (d : Z)
| EvGo (goroutine : string).

(** ** Computations *)

(** A computation takes the state and gives its outcome, the state it
    leaves and the events it made, oldest first. *)
Definition M (A : Type) : Type := State -> Outcome A * State * list Event.

Definition ret {A} (a : A) : M A := fun st => (Return a, st, []).

Definition bind {A B} (m : M A) (k : A -> M B) : M B := fun st =>
  match m st with
  | (Return a, st1, l1) =>
      let '(r, st2, l2) := k a st1 in (r, st2, l1 ++ l2)
  | (Pending, st1, l1) => (Pending, st1, l1)
  | (Panic, st1, l1) => (Panic, st1, l1)
  end.

(** [defer d] before [body]: [d] runs when [body] returns or panics, and
    does not run while [body] has not ended. *)
Definition deferring {A} (d : M unit) (body : M A) : M A := fun st =>
  match body st with
  | (Pending, st1, l1) => (Pending, st1, l1)
  | (r, st1, l1) => let '(_, st2, l2) := d st1 in (r, st2, l1 ++ l2)
  end.

Definition emit (e : Event) : M unit := fun st => (Return tt, st, [e]).
Definition pending {A} : M A := fun st => (Pending, st, []).
Definition panic {A} : M A := fun st => (Panic, st, []).
Definition get : M State := fun st => (Return st, st, []).
Definition modify (f : State -> State) : M unit :=
  fun st => (Return tt, f st, []).

(** An adapter call: apply it to the world, keep the world it leaves. *)
Definition call {A} (f : World -> A * World) : M A := fun st =>
  let '(a, w) := f (world st) in (Return a, setWorld w st, []).
Definition call_ (f : World -> World) : M unit :=
  modify (fun st => setWorld (f (world st)) st).

Definition glog (sev : Severity) (format : string) : M unit :=
  emit (EvGlog sev format).

End Manager.

Declare Scope manager_scope.
Delimit Scope manager_scope with M.
Notation "x <- m ;; k" := (bind m (fun x => k))
  (at level 100, m at next level, right associativity) : manager_scope.
Notation "m ;; k" := (bind m (fun _ => k))
  (at level 100, right associativity) : manager_scope.

Local Open Scope manager_scope.

(** ** Strings *)

(** [strings.Split(s, sep)] for a separator of one byte. *)
Fixpoint Split (s : string) (sep : ascii) : list string :=
  match s with
  | EmptyString => [EmptyString]
  | String a rest =>
      if Ascii.eqb a sep then EmptyString :: Split rest sep
      else match Split rest sep with
           | first :: others => String a first :: others
           | [] => [String a EmptyString]
           end
  end.

(** [s[:n]] for [n <= len(s)]. *)
Definition slicePrefix (s : string) (n : nat) : string := String.substring 0 n s.

(** The title under which [processJob] submits a job. *)
Definition jobTitle (job : Job) : string :=
  let jobTitle := "gcp:" +:+ GCPJobID job +:+ " " +:+ Title job in
  if (255 <? String.length jobTitle)%nat then slicePrefix jobTitle 255
  else jobTitle.

(** ** The in-flight set, [map[string]bool] *)

(** [m[id]]: the value stored, [false] for a missing key. *)
Definition inFlight (m : gmap string bool) (gcpJobID : string) : bool :=
  default false (m !! gcpJobID).

Definition addInFlight (gcpJobID : string) (m : gmap string bool)
  : bool * gmap string bool :=
  if inFlight m gcpJobID then (false, m) else (true, <[gcpJobID := true]> m).

Definition deleteInFlight (gcpJobID : string) (m : gmap string bool)
  : gmap string bool :=
  delete gcpJobID m.

Section JobProcessor.
Context `{Adapters}.

(** [uint] addition of one. *)
Definition uintSucc (n : N) : N := ((n + 1) mod 2 ^ uintBits)%N.

Definition incrementJobsProcessed (success : bool) : M unit :=
  if success then modify (fun st => setJobsDone (uintSucc (jobsDone st)) st)
  else modify (fun st => setJobsError (uintSucc (jobsError st)) st).

Definition addInFlightJob (gcpJobID : string) : M bool := fun st =>
  let '(added, m) := addInFlight gcpJobID (jobsInFlight st) in
  (Return added, setJobsInFlight m st,
   if added then [EvInFlightAdd gcpJobID] else []).

Definition deleteInFlightJob (gcpID : string) : M unit := fun st =>
  (Return tt, setJobsInFlight (deleteInFlight gcpID (jobsInFlight st)) st,
   [EvInFlightDelete gcpID]).

Definition Acquire (s : Semaphore) : M unit := fun st =>
  match semAcquire s (world st) with
  | Some w => (Return tt, setWorld w st, [EvAcquire s])
  | None => (Pending, st, [])
  end.

Definition Release (s : Semaphore) : M unit :=
  call_ (semRelease s);; emit (EvRelease s).

Definition Remove (file : string) : M unit :=
  call_ (osRemove file);;
  modify (fun st => setTempFiles (tempFiles st ∖ {[file]}) st);;
  emit (EvRemove file).

(** [pm.gcpPrintersByGCPID.Get(gcpID)], [None] when it does not exist *)
Definition Get (gcpID : string) : M (option Printer) :=
  st <- get;;
  emit (EvGet gcpID (bool_decide (is_Some (gcpPrintersByGCPID st !! gcpID))));;
  ret (gcpPrintersByGCPID st !! gcpID).

Definition Control (gcpJobID : string) (state : GCPJobState)
    (cause : GCPJobStateCause) (pages : N) : M (option error) :=
  err <- call (gcpControl gcpJobID state cause pages);;
  emit (EvControl gcpJobID state cause pages (bool_decide (err = None)));;
  ret err.

(** [if err := ...; err != nil { glog.Error(err) }] *)
Definition logError (err : option error) : M unit :=
  match err with
  | Some err => glog Error err
  | None => ret tt
  end.

Definition assembleJob (cfg : Config) (job : Job)
  : M (Printer * Options * option string * string * GCPJobStateCause) :=
  found <- Get (GCPPrinterID job);;
  match found with
  | None =>
      ret (zeroPrinter, ∅, None,
           "Failed to find GCP printer " +:+ GCPPrinterID job +:+
           " for job " +:+ GCPJobID job,
           GCPJobOther)
  | Some printer =>
      ticket <- call (gcpTicket (GCPJobID job));;
      match ticket with
      | Failure err =>
          emit (EvTicket (GCPJobID job) false);;
          ret (zeroPrinter, ∅, None,
               "Failed to get a ticket for job " +:+ GCPJobID job +:+
               ": " +:+ err,
               GCPJobInvalidTicket)
      | Success options =>
          emit (EvTicket (GCPJobID job) true);;
          created <- call cupsCreateTempFile;;
          match created with
          | Failure err =>
              emit (EvCreateTempFile None);;
              ret (zeroPrinter, ∅, None,
                   "Failed to create a temporary file for job " +:+
                   GCPJobID job +:+ ": " +:+ err,
                   GCPJobOther)
          | Success pdfFile =>
              modify (fun st => setTempFiles (tempFiles st ∪ {[pdfFile]}) st);;
              emit (EvCreateTempFile (Some pdfFile));;
              Acquire (downloadSemaphore cfg);;
              err <- call (gcpDownload pdfFile (FileURL job));;
              emit (EvDownload pdfFile (FileURL job) (bool_decide (err = None)));;
              Release (downloadSemaphore cfg);;
              match err with
              | Some err =>
                  Remove pdfFile;;
                  ret (zeroPrinter, ∅, None,
                       "Failed to download PDF for job " +:+ GCPJobID job +:+
                       ": " +:+ err,
                       GCPJobPrintFailure)
              | None =>
                  glog Info "Downloaded job %s in %s";;
                  emit (EvClose pdfFile);;
                  ret (printer, options, Some pdfFile, "", GCPJobStateCauseOf 100)
              end
          end
      end
  end.

(** The variables of [followJob]. *)
Record Follow : Type := {
  cupsState : CUPSJobState;
  gcpState : GCPJobState;
  pages : N
}.

(** [var cupsState lib.CUPSJobState; var gcpState lib.GCPJobState;
    var pages uint32] *)
Definition followStart : Follow :=
  {| cupsState := CUPSJobStateZero; gcpState := GCPJobStateZero; pages := 0%N |}.

(** One turn of the loop of [followJob], after a tick: [None] when the
    turn ends in [break], the variables for the next turn otherwise. *)
Definition followTick (job : Job) (cupsJobID : N) (v : Follow)
  : M (option Follow) :=
  answer <- call (cupsGetJobState cupsJobID);;
  match answer with
  | Failure err =>
      emit (EvGetJobState cupsJobID None);;
      glog Warning "Failed to get state of CUPS job %d: %s";;
      err <- Control (GCPJobID job) GCPJobAborted GCPJobOther (pages v);;
      logError err;;
      incrementJobsProcessed false;;
      ret None
  | Success (latestCUPSState, latestPages) =>
      emit (EvGetJobState cupsJobID (Some (latestCUPSState, latestPages)));;
      v <- (if bool_decide (latestCUPSState ≠ cupsState v)
               || bool_decide (latestPages ≠ pages v)
            then
              let '(gcpState, gcpCause) := toGCPJobState latestCUPSState in
              err <- Control (GCPJobID job) gcpState gcpCause latestPages;;
              logError err;;
              glog Info "Job %s state is now: %s/%s";;
              ret {| cupsState := latestCUPSState; gcpState := gcpState;
                     pages := latestPages |}
            else ret v);;
      if bool_decide (gcpState v ≠ GCPJobInProgress) then
        (if bool_decide (gcpState v = GCPJobDone)
         then incrementJobsProcessed true
         else incrementJobsProcessed false);;
        ret None
      else ret (Some v)
  end.

(** [for _ = range ticker.C]: [ticks] bounds the ticks waited for; the
    loop that has not ended after them is [Pending]. *)
Fixpoint followLoop (ticks : nat) (job : Job) (cupsJobID : N) (v : Follow)
  : M unit :=
  match ticks with
  | O => pending
  | S ticks =>
      next <- followTick job cupsJobID v;;
      match next with
      | None => ret tt
      | Some v => followLoop ticks job cupsJobID v
      end
  end.

Definition followJob (ticks : nat) (job : Job) (cupsJobID : N) : M unit :=
  followLoop ticks job cupsJobID followStart.

(** What remains of [processJob] once the job is in flight and
    assembled. *)
Definition submitJob (ticks : nat) (cfg : Config) (job : Job)
    (printer : Printer) (options : Options) (pdfFile : string) : M unit :=
  ownerID <- (if negb (jobFullUsername cfg) then
                match Split (OwnerID job) "@" with
                | first :: _ => ret first
                | [] => panic
                end
              else ret (OwnerID job));;
  Acquire (CUPSJobSemaphore printer);;
  deferring (Release (CUPSJobSemaphore printer)) (
    let jobTitle := jobTitle job in
    printed <- call (cupsPrint (Name printer) pdfFile jobTitle ownerID options);;
    match printed with
    | Failure err =>
        emit (EvPrint (Name printer) pdfFile jobTitle ownerID options None);;
        incrementJobsProcessed false;;
        glog Error "Failed to send job %s to CUPS: %s";;
        err <- Control (GCPJobID job) GCPJobAborted GCPJobPrintFailure 0%N;;
        logError err
    | Success cupsJobID =>
        emit (EvPrint (Name printer) pdfFile jobTitle ownerID options
                      (Some cupsJobID));;
        glog Info "Submitted GCP job %s as CUPS job %d";;
        followJob ticks job cupsJobID
    end).

Definition processJob (ticks : nat) (cfg : Config) (job : Job) : M unit :=
  added <- addInFlightJob (GCPJobID job);;
  if negb added then ret tt
  else
    deferring (deleteInFlightJob (GCPJobID job)) (
      glog Info "Received job %s";;
      assembled <- assembleJob cfg job;;
      let '(printer, options, pdfFile, message, gcpJobStateCause) := assembled in
      if bool_decide (message ≠ "") then
        incrementJobsProcessed false;;
        glog Error message;;
        err <- Control (GCPJobID job) GCPJobAborted gcpJobStateCause 0%N;;
        logError err
      else
        match pdfFile with
        | None => panic
        | Some pdfFile =>
            deferring (Remove pdfFile)
                      (submitJob ticks cfg job printer options pdfFile)
        end).

End JobProcessor.

(** ** The printer table *)

Section PrinterTable.
Context `{SemaphoreRef}.

(** Modelled from the spec: [lib.ConcurrentPrinterMap], which is not in
    this file.  The spec has it map the cloud identifier to the printer,
    [GetAll] give the printers of the table, and [Refresh] replace the
    whole table by the printers it is given. *)
Definition NewConcurrentPrinterMap (printers : list Printer)
  : gmap string Printer :=
  foldl (fun m p => <[GCPID p := p]> m) ∅ printers.

(** Modelled from the spec: [GetAll] of [lib.ConcurrentPrinterMap], the
    printers of the table, in no order that the manager relies on. *)
Definition GetAll (m : gmap string Printer) : list Printer :=
  (map_to_list m).*2.

(** The loop of [NewPrinterManager] over [GetAll()], from
    [math.MaxInt64]. *)
Definition connectorXMPPPingInterval (printers : list Printer) : Z :=
  foldl (fun connectorXMPPPingInterval p =>
           if (XMPPPingInterval p <? connectorXMPPPingInterval)%Z
           then XMPPPingInterval p
           else connectorXMPPPingInterval)
        MaxInt64 printers.

(** A buffered channel of printers, [make(chan lib.Printer, n)]. *)
Record Chan : Type := {
  chanCap : nat;
  chanBuf : list Printer
}.

Definition makeChan (n : nat) : Chan := {| chanCap := n; chanBuf := [] |}.

Definition chanPush (p : Printer) (ch : Chan) : Chan :=
  {| chanCap := chanCap ch; chanBuf := chanBuf ch ++ [p] |}.
End PrinterTable.

(** ** Reconciliation *)

(** What the [select] of the reconciliation loop receives. *)
Inductive LoopEvent : Type :=
| Tick
| PrinterUpdate (gcpID : string)
| QuitRequest.

(** What follows a turn of a [for] loop: another turn, or the return of
    the function. *)
Inductive Next : Type := NextTurn | EndLoop.

Section Reconciliation.
Context `{Adapters}.

(** Modelled from the spec: [Refresh] of [lib.ConcurrentPrinterMap], which
    replaces the whole table. *)
Definition Refresh (printers : list Printer) : M unit :=
  modify (setPrinters (NewConcurrentPrinterMap printers));;
  emit (EvRefresh printers).

(** [ch <- p]: the send waits while the buffer is full. *)
Definition send (p : Printer) (ch : Chan) : M Chan :=
  if (length (chanBuf ch) <? chanCap ch)%nat
  then emit (EvSend p);; ret (chanPush p ch)
  else pending.

(** [<-ch], once the senders have run: the receive of an empty channel
    waits for ever. *)
Definition receive (ch : Chan) : M (Printer * Chan) :=
  match chanBuf ch with
  | p :: buf => ret (p, {| chanCap := chanCap ch; chanBuf := buf |})
  | [] => pending
  end.

Definition applyDiff (cfg : Config) (diff : PrinterDiff) (ch : Chan)
  : M Chan :=
  match Operation diff with
  | RegisterPrinter =>
      ppd <- call (cupsGetPPD (Name (DiffPrinter diff)));;
      match ppd with
      | Failure err =>
          emit (EvGetPPD (Name (DiffPrinter diff)) false);;
          glog Error "Failed to call GetPPD() while registering printer %s: %s";;
          send zeroPrinter ch
      | Success ppd =>
          emit (EvGetPPD (Name (DiffPrinter diff)) true);;
          registered <- call (gcpRegister (DiffPrinter diff) ppd);;
          let '(err, printer) := registered in
          match err with
          | Some err =>
              emit (EvRegister (Name (DiffPrinter diff)) printer false);;
              glog Error "Failed to register printer %s: %s";;
              send zeroPrinter ch
          | None =>
              emit (EvRegister (Name (DiffPrinter diff)) printer true);;
              glog Info "Registered %s";;
              canShare <- call gcpCanShare;;
              (if canShare then
                 err <- call (gcpShare (GCPID printer) (shareScope cfg));;
                 emit (EvShare (GCPID printer) (shareScope cfg)
                               (bool_decide (err = None)));;
                 match err with
                 | Some err => glog Error "Failed to share printer %s: %s"
                 | None => glog Info "Shared %s"
                 end
               else ret tt);;
              semaphore <- call (libNewSemaphore (cupsQueueSize cfg));;
              send (withSemaphore printer semaphore) ch
          end
      end
  | UpdatePrinter =>
      (* the closure [getPPD], for the name the diff has when it is made *)
      let getPPD := cupsGetPPD (Name (DiffPrinter diff)) in
      updated <- call (gcpUpdate diff getPPD);;
      let '(err, diff') := updated in
      emit (EvUpdate (Name (DiffPrinter diff)) (DiffPrinter diff')
                     (bool_decide (err = None)));;
      match err with
      | Some err => glog Error "Failed to update a printer: %s"
      | None => glog Info "Updated %s"
      end;;
      send (DiffPrinter diff') ch
  | DeletePrinter =>
      call_ (cupsRemoveCachedPPD (Name (DiffPrinter diff)));;
      emit (EvRemoveCachedPPD (Name (DiffPrinter diff)));;
      err <- call (gcpDelete (GCPID (DiffPrinter diff)));;
      emit (EvDelete (GCPID (DiffPrinter diff)) (bool_decide (err = None)));;
      match err with
      | Some err =>
          glog Error "Failed to delete a printer %s: %s";;
          send zeroPrinter ch
      | None =>
          glog Info "Deleted %s";;
          send zeroPrinter ch
      end
  | NoChangeToPrinter =>
      glog Info "No change to %s";;
      send (DiffPrinter diff) ch
  | OtherOperation _ =>
      send zeroPrinter ch
  end.

(** [go pm.applyDiff(&diffs[i], ch)]: the caller goes on whatever
    becomes of the goroutine; one that does not end has sent nothing. *)
Definition goApplyDiff (cfg : Config) (diff : PrinterDiff) (ch : Chan)
  : M Chan := fun st =>
  match applyDiff cfg diff ch st with
  | (Return ch', st', l) => (Return ch', st', l)
  | (_, st', l) => (Return ch, st', l)
  end.

(** The goroutines of one round.  The channel holds one printer per
    diff, so each goroutine can run to its end before the first receive;
    [schedule] is the order in which they do so (indices into [diffs]). *)
Fixpoint applyDiffs (cfg : Config) (diffs : list PrinterDiff)
    (schedule : list nat) (ch : Chan) : M Chan :=
  match schedule with
  | [] => ret ch
  | i :: schedule =>
      match diffs !! i with
      | Some diff =>
          ch <- goApplyDiff cfg diff ch;;
          applyDiffs cfg diffs schedule ch
      | None => applyDiffs cfg diffs schedule ch
      end
  end.

(** [for _ = range diffs { p := <-ch; ... }], [n] receives to go. *)
Fixpoint collectPrinters (n : nat) (ch : Chan) (currentPrinters : list Printer)
  : M (list Printer) :=
  match n with
  | O => ret currentPrinters
  | S n =>
      received <- receive ch;;
      let '(p, ch) := received in
      if bool_decide (Name p ≠ "")
      then collectPrinters n ch (currentPrinters ++ [p])
      else collectPrinters n ch currentPrinters
  end.

(** The diffs a round starts from. *)
Definition roundDiffs (cfg : Config) (cupsPrinters : list Printer)
    (st : State) : option (list PrinterDiff) :=
  let cupsPrinters :=
    if ignoreRawPrinters cfg then (libFilterRawPrinters cupsPrinters).1
    else cupsPrinters in
  libDiffPrinters cupsPrinters (GetAll (gcpPrintersByGCPID st)).

Definition syncPrinters (cfg : Config) (schedule : list nat)
  : M (option error) :=
  glog Info "Synchronizing printers, stand by";;
  listed <- call cupsGetPrinters;;
  match listed with
  | Failure err =>
      emit (EvGetPrinters false);;
      ret (Some ("Sync failed while calling GetPrinters(): " +:+ err))
  | Success cupsPrinters =>
      emit (EvGetPrinters true);;
      st <- get;;
      match roundDiffs cfg cupsPrinters st with
      | None =>
          glog Info "Printers are already in sync; there are %d";;
          ret None
      | Some diffs =>
          ch <- applyDiffs cfg diffs schedule (makeChan (length diffs));;
          currentPrinters <- collectPrinters (length diffs) ch [];;
          Refresh currentPrinters;;
          glog Info "Finished synchronizing %d printers";;
          ret None
      end
  end.

(** One turn of the [for] of [syncPrintersPeriodically]: the case the
    [select] takes, and what follows it.  [continue] starts the next
    turn; so does [break], which ends the [select] it stands in. *)
Definition loopTurn (cfg : Config) (schedule : list nat) (ev : LoopEvent)
  : M Next :=
  match ev with
  | Tick =>
      err <- syncPrinters cfg schedule;;
      logError err;;
      emit EvTimerReset;;
      ret NextTurn
  | PrinterUpdate gcpID =>
      fetched <- call (gcpPrinter gcpID);;
      match fetched with
      | Failure err =>
          emit (EvPrinter gcpID false);;
          glog Error err;;
          ret NextTurn
      | Success p =>
          emit (EvPrinter gcpID true);;
          err <- call (gcpSetPrinterXMPPPingInterval p);;
          emit (EvSetPrinterXMPPPingInterval (GCPID p) (bool_decide (err = None)));;
          match err with
          | Some err => glog Error err;; ret NextTurn
          | None =>
              glog Info "Printer %s XMPP ping interval changed to %s";;
              ret NextTurn
          end
      end
  | QuitRequest =>
      emit EvQuitAck;;
      ret NextTurn
  end.

(** The goroutine of [syncPrintersPeriodically], given what its
    [select]s receive, each tick with the schedule of its round.  The
    loop that has used them all waits for the next. *)
Fixpoint syncPrintersPeriodically (cfg : Config)
    (received : list (LoopEvent * list nat)) : M unit :=
  match received with
  | [] => pending
  | (ev, schedule) :: received =>
      next <- loopTurn cfg schedule ev;;
      match next with
      | NextTurn => syncPrintersPeriodically cfg received
      | EndLoop => ret tt
      end
  end.

(** ** Construction *)

(** [gcpPrinters[i].CUPSJobSemaphore = lib.NewSemaphore(cupsQueueSize)] *)
Fixpoint attachSemaphores (cupsQueueSize : N) (gcpPrinters : list Printer)
  : M (list Printer) :=
  match gcpPrinters with
  | [] => ret []
  | p :: gcpPrinters =>
      semaphore <- call (libNewSemaphore cupsQueueSize);;
      gcpPrinters <- attachSemaphores cupsQueueSize gcpPrinters;;
      ret (withSemaphore p semaphore :: gcpPrinters)
  end.

(** [for gcpID := range xmppPingIntervalChanges]: the error that ends the
    constructor, if any. *)
Fixpoint updatePingIntervals (xmppPingIntervalChanges : list string)
  : M (option error) :=
  match xmppPingIntervalChanges with
  | [] => ret None
  | gcpID :: rest =>
      found <- Get gcpID;;
      match found with
      | None => updatePingIntervals rest
      | Some p =>
          err <- call (gcpSetPrinterXMPPPingInterval p);;
          emit (EvSetPrinterXMPPPingInterval gcpID (bool_decide (err = None)));;
          match err with
          | Some err => ret (Some err)
          | None =>
              glog Info "Printer %s XMPP ping interval changed to %s";;
              updatePingIntervals rest
          end
      end
  end.

Definition NewPrinterManager (printerPollInterval : string)
    (gcpMaxConcurrentDownload cupsQueueSize : N)
    (jobFullUsername ignoreRawPrinters : bool) (shareScope : string)
    (schedule : list nat) : M (Result Config) :=
  listed <- call gcpList;;
  match listed with
  | Failure err => emit (EvList false);; ret (Failure err)
  | Success listing =>
      emit (EvList true);;
      gcpPrinters <- attachSemaphores cupsQueueSize (listPrinters listing);;
      modify (setPrinters (NewConcurrentPrinterMap gcpPrinters));;
      err <- updatePingIntervals (listXMPPPingIntervalChanges listing);;
      match err with
      | Some err => ret (Failure err)
      | None =>
          st <- get;;
          let interval :=
            connectorXMPPPingInterval (GetAll (gcpPrintersByGCPID st)) in
          call_ (gcpSetConnectorXMPPPingInterval interval);;
          emit (EvSetConnectorXMPPPingInterval interval);;
          semaphore <- call (libNewSemaphore gcpMaxConcurrentDownload);;
          modify (fun st => setJobsInFlight ∅
                              (setJobsError 0%N (setJobsDone 0%N st)));;
          let cfg := {| cupsQueueSize := cupsQueueSize;
                        jobFullUsername := jobFullUsername;
                        ignoreRawPrinters := ignoreRawPrinters;
                        shareScope := shareScope;
                        downloadSemaphore := semaphore |} in
          err <- syncPrinters cfg schedule;;
          match err with
          | Some err => ret (Failure err)
          | None =>
              match timeParseDuration printerPollInterval with
              | Failure err => ret (Failure err)
              | Success ppi =>
                  emit (EvGo "syncPrintersPeriodically");;
                  emit (EvGo "listenGCPJobs");;
                  emit (EvGo "listenGCPPrinterUpdates");;
                  ret (Success cfg)
              end
          end
      end
  end.

End Reconciliation.

(** ** Reading the record *)

Section Events.
Context `{JobStates} `{SemaphoreRef}.

Definition isControl (e : Event) : bool :=
  match e with EvControl _ _ _ _ _ => true | _ => false end.

Definition isPrint (e : Event) : bool :=
  match e with EvPrint _ _ _ _ _ _ => true | _ => false end.

Definition isInFlightEvent (e : Event) : bool :=
  match e with
  | EvInFlightAdd _ | EvInFlightDelete _ => true
  | _ => false
  end.

Definition isRefresh (e : Event) : bool :=
  match e with EvRefresh _ => true | _ => false end.

(** The [Control] calls of a record, in order, without their results. *)
Definition controls (l : list Event)
  : list (string * GCPJobState * GCPJobStateCause * N) :=
  omap (fun e => match e with
                 | EvControl id state cause pages _ =>
                     Some (id, state, cause, pages)
                 | _ => None
                 end) l.

(** The [Print] calls of a record. *)
Definition prints (l : list Event) : list Event := List.filter isPrint l.

(** The collections given to [Refresh]. *)
Definition refreshes (l : list Event) : list (list Printer) :=
  omap (fun e => match e with EvRefresh ps => Some ps | _ => None end) l.

(** The printers sent on the channel of a round. *)
Definition sends (l : list Event) : list Printer :=
  omap (fun e => match e with EvSend p => Some p | _ => None end) l.
End Events.

(** ** The steps a job can fail at before it is followed *)

Inductive FailedStep : Type :=
| PrinterMissing
| TicketFailed
| TempFileFailed
| DownloadFailed
| SubmitFailed.

Section Failures.
Context `{JobStates} `{SemaphoreRef}.

(** The failure an event reports, if it reports one. *)
Definition stepFailed (e : Event) : option FailedStep :=
  match e with
  | EvGet _ false => Some PrinterMissing
  | EvTicket _ false => Some TicketFailed
  | EvCreateTempFile None => Some TempFileFailed
  | EvDownload _ _ false => Some DownloadFailed
  | EvPrint _ _ _ _ _ None => Some SubmitFailed
  | _ => None
  end.

(** The first failure of a record. *)
Definition failedStep (l : list Event) : option FailedStep :=
  head (omap stepFailed l).

Definition failureCause (s : FailedStep) : GCPJobStateCause :=
  match s with
  | PrinterMissing | TempFileFailed => GCPJobOther
  | TicketFailed => GCPJobInvalidTicket
  | DownloadFailed | SubmitFailed => GCPJobPrintFailure
  end.

(** ** What a run of [applyDiff] did, read from its record *)

Definition errorLogged (l : list Event) : Prop :=
  exists text, In (EvGlog Error text) l.

(** [p] is what the run of [diff] with record [l] sent: the sentinel
    after a failed [GetPPD] or [Register] and after any [Delete]; the
    printer [Register] or [Update] left in the diff, the latter whether
    [Update] failed or not; the printer of the diff when nothing
    changed.  Every failed call is followed by an error in the log. *)
Definition diffOutcome (diff : PrinterDiff) (l : list Event) (p : Printer)
  : Prop :=
  match Operation diff with
  | RegisterPrinter =>
      ((In (EvGetPPD (Name (DiffPrinter diff)) false) l \/
        exists p', In (EvRegister (Name (DiffPrinter diff)) p' false) l) /\
       p = zeroPrinter /\ errorLogged l) \/
      (exists p' s,
         In (EvGetPPD (Name (DiffPrinter diff)) true) l /\
         In (EvRegister (Name (DiffPrinter diff)) p' true) l /\
         p = withSemaphore p' s)
  | UpdatePrinter =>
      exists ok,
        In (EvUpdate (Name (DiffPrinter diff)) p ok) l /\
        (ok = false -> errorLogged l)
  | DeletePrinter =>
      p = zeroPrinter /\
      exists ok,
        In (EvDelete (GCPID (DiffPrinter diff)) ok) l /\
        (ok = false -> errorLogged l)
  | NoChangeToPrinter => p = DiffPrinter diff
  | OtherOperation _ => p = zeroPrinter
  end.

(** The run of one diff in a round: the diff, the record of its run and
    the printer it sent. *)
Record DiffRun : Type := {
  runDiff : PrinterDiff;
  runRecord : list Event;
  runSent : Printer
}.

(** The printers a round keeps: those with a name. *)
Definition named (printers : list Printer) : list Printer :=
  List.filter (fun p => bool_decide (Name p ≠ "")) printers.
End Failures.

(** The parts of a run. *)
Definition outcome {A S E : Type} (run : Outcome A * S * E) : Outcome A := run.1.1.
Definition final {A S E : Type} (run : Outcome A * S * E) : S := run.1.2.
Definition record {A S E : Type} (run : Outcome A * S * E) : E := run.2.

(** The run has ended: the call returned or panicked. *)
Definition ended {A : Type} (r : Outcome A) : bool :=
  match r with Pending => false | _ => true end.

(** ** Processors that run together *)

(** The job processors of a manager share the in-flight set, which each
    reads and changes under [jobsInFlightMutex].  [active] lists the jobs
    of the processors that went past [addInFlightJob] and have not yet run
    their deferred [deleteInFlightJob]. *)
Record Processors : Type := {
  inFlightSet : gmap string bool;
  active : list string
}.

Definition noProcessors : Processors := {| inFlightSet := ∅; active := [] |}.

(** A job is delivered: its processor calls [addInFlightJob], and goes on
    only when the job was added. *)
Definition deliver (gcpJobID : string) (s : Processors) : Processors :=
  let '(added, m) := addInFlight gcpJobID (inFlightSet s) in
  if added then {| inFlightSet := m; active := gcpJobID :: active s |}
  else s.

(** The [i]-th active processor ends: it calls [deleteInFlightJob]. *)
Definition finish (i : nat) (s : Processors) : Processors :=
  match active s !! i with
  | Some gcpJobID =>
      {| inFlightSet := deleteInFlight gcpJobID (inFlightSet s);
         active := delete i (active s) |}
  | None => s
  end.

Inductive ProcessorStep : Type :=
| Deliver (gcpJobID : string)
| Finish (i : nat).

Definition step (s : Processors) (e : ProcessorStep) : Processors :=
  match e with
  | Deliver gcpJobID => deliver gcpJobID s
  | Finish i => finish i s
  end.

(** The processors after a history of deliveries and ends. *)
Definition processors (history : list ProcessorStep) : Processors :=
  foldl step noProcessors history.

(** ** Kinds of events *)

Section Kinds.
Context `{Adapters}.

(** What [followJob] does: it polls, reports and logs. *)
Definition followEvent (e : Event) : Prop :=
  match e with
  | EvGetJobState _ _ | EvControl _ _ _ _ _ | EvGlog _ _ => True
  | _ => False
  end.

(** What [assembleJob] does. *)
Definition assembleEvent (e : Event) : Prop :=
  match e with
  | EvGet _ _ | EvTicket _ _ | EvCreateTempFile _ | EvAcquire _
  | EvRelease _ | EvDownload _ _ _ | EvClose _ | EvRemove _
  | EvGlog _ _ => True
  | _ => False
  end.

(** What [processJob] does once the file is there. *)
Definition submitEvent (e : Event) : Prop :=
  match e with
  | EvAcquire _ | EvRelease _ | EvPrint _ _ _ _ _ _ | EvGetJobState _ _
  | EvControl _ _ _ _ _ | EvGlog _ _ => True
  | _ => False
  end.

(** The parts of the state that only the in-flight set, the table and
    the temporary files' operations change. *)
Definition untouched (st st' : State) : Prop :=
  gcpPrintersByGCPID st' = gcpPrintersByGCPID st /\
  jobsInFlight st' = jobsInFlight st /\
  tempFiles st' = tempFiles st.

(** A [Print] event of [processJob cfg job] has the title and the owner
    that [processJob] computes. *)
Definition submitted (cfg : Config) (job : Job) (e : Event) : Prop :=
  match e with
  | EvPrint _ _ title owner _ _ =>
      title = jobTitle job /\
      if jobFullUsername cfg then owner = OwnerID job
      else exists others, Split (OwnerID job) "@" = owner :: others
  | _ => True
  end.
End Kinds.

(** What holds of the processors after any history: the active ones are
    those of the jobs in flight, one for each. *)
Definition exclusive (s : Processors) : Prop :=
  NoDup (active s) /\
  forall id, id ∈ active s <-> inFlight (inFlightSet s) id = true.

Section RoundKinds.
Context `{JobStates} `{SemaphoreRef}.

(** What a reconciliation round does. *)
Definition roundEvent (e : Event) : Prop :=
  match e with
  | EvGlog _ _ | EvGetPrinters _ | EvGetPPD _ _ | EvRegister _ _ _
  | EvShare _ _ _ | EvUpdate _ _ _ | EvRemoveCachedPPD _ | EvDelete _ _
  | EvSend _ | EvRefresh _ => True
  | _ => False
  end.

(** What [applyDiff] does. *)
Definition diffEvent (e : Event) : Prop :=
  match e with
  | EvGlog _ _ | EvGetPPD _ _ | EvRegister _ _ _ | EvShare _ _ _
  | EvUpdate _ _ _ | EvRemoveCachedPPD _ | EvDelete _ _ | EvSend _ => True
  | _ => False
  end.

(** The run of a diff sent one printer, the one its record accounts
    for. *)
Definition accounted (r : DiffRun) : Prop :=
  sends (runRecord r) = [runSent r] /\
  diffOutcome (runDiff r) (runRecord r) (runSent r) /\
  Forall diffEvent (runRecord r).

(** The interval set on the cloud adapter, if the record has one. *)
Definition isSetConnector (e : Event) : bool :=
  match e with EvSetConnectorXMPPPingInterval _ => true | _ => false end.
End RoundKinds.

(** The least of [c] and the numbers of [xs], as the loop of
    [connectorXMPPPingInterval] finds it. *)
Definition leastFrom (c : Z) (xs : list Z) : Z :=
  foldl (fun c x => if (x <? c)%Z then x else c) c xs.

(** ** A scripted world

    A world whose answers are written down in advance, to run the manager
    on: the spooler's printers, the cloud's listing, the operations that
    fail, the answers of [GetJobState] in order, and the semaphores that are
    never free. *)

Module Scripted.

Inductive SpoolerState : Type :=
| Pending_ | Held | Processing | Stopped | Canceled | Aborted | Completed.

Inductive CloudState : Type := InProgress | Done | AbortedJob.

#[export] Instance SpoolerState_eq_dec : EqDecision SpoolerState.
Proof. solve_decision. Defined.

#[export] Instance CloudState_eq_dec : EqDecision CloudState.
Proof. solve_decision. Defined.

(** Causes are numbers; [100] stands for no cause. *)
Definition mapState (s : SpoolerState) : CloudState * Z :=
  match s with
  | Pending_ | Held | Processing | Stopped => (InProgress, 100)
  | Canceled => (AbortedJob, 0)
  | Aborted => (AbortedJob, 2)
  | Completed => (Done, 100)
  end.

#[export] Instance states : JobStates := {|
  CUPSJobState := SpoolerState;
  CUPSJobStateZero := Pending_;
  GCPJobState := CloudState;
  GCPJobStateZero := InProgress;
  GCPJobInProgress := InProgress;
  GCPJobDone := Done;
  GCPJobAborted := AbortedJob;
  GCPJobState_distinct :=
    ltac:(apply NoDup_ListNoDup; repeat constructor; simpl;
          intuition discriminate);
  GCPJobStateCause := Z;
  GCPJobOther := 3;
  GCPJobInvalidTicket := 1;
  GCPJobPrintFailure := 2;
  GCPJobStateCauseOf := fun z => z;
  toGCPJobState := mapState
|}.

(** A semaphore is known by a number, [0] for the nil pointer. *)
#[export] Instance semaphores : SemaphoreRef := {|
  Semaphore := N;
  nilSemaphore := 0%N
|}.

Record Script : Type := {
  spoolerPrinters : list Printer;
  cloudListing : Listing;
  failing : list string;
  sharing : bool;
  tempFile : string;
  jobStates : list (option (SpoolerState * N));
  busy : list N
}.

Definition fails (operation : string) (w : Script) : bool :=
  existsb (String.eqb operation) (failing w).

Definition answer {A} (operation : string) (a : A) (w : Script)
  : Result A * Script :=
  (if fails operation w then Failure (operation +:+ " failed") else Success a, w).

Definition report (operation : string) (w : Script) : option string * Script :=
  (if fails operation w then Some (operation +:+ " failed") else None, w).

Definition nextJobState (w : Script) : Result (SpoolerState * N) * Script :=
  match jobStates w with
  | [] => (Failure "GetJobState failed", w)
  | a :: rest =>
      (match a with
       | Some a => Success a
       | None => Failure "GetJobState failed"
       end,
       {| spoolerPrinters := spoolerPrinters w; cloudListing := cloudListing w;
          failing := failing w; sharing := sharing w; tempFile := tempFile w;
          jobStates := rest; busy := busy w |})
  end.

Definition registered (p : Printer) : Printer :=
  {| Name := Name p; GCPID := "gcp-" +:+ Name p;
     XMPPPingInterval := XMPPPingInterval p;
     CUPSJobSemaphore := CUPSJobSemaphore p |}.

Definition withInterval (p : Printer) (d : Z) : Printer :=
  {| Name := Name p; GCPID := GCPID p; XMPPPingInterval := d;
     CUPSJobSemaphore := CUPSJobSemaphore p |}.

(** A diff engine in the manner of the spec: a spooler printer the cloud
    does not know is registered, one it knows is updated when its
    interval differs, a cloud printer the spooler lost is deleted, and no
    difference at all gives the nil slice. *)
Definition sameName (p q : Printer) : bool := String.eqb (Name p) (Name q).

Definition diffOf (cloud : list Printer) (p : Printer) : PrinterDiff :=
  match List.find (sameName p) cloud with
  | Some c =>
      if (XMPPPingInterval c =? XMPPPingInterval p)%Z
      then {| Operation := NoChangeToPrinter; DiffPrinter := c |}
      else {| Operation := UpdatePrinter;
              DiffPrinter := withInterval c (XMPPPingInterval p) |}
  | None => {| Operation := RegisterPrinter; DiffPrinter := p |}
  end.

Definition isNoChange (d : PrinterDiff) : bool :=
  match Operation d with NoChangeToPrinter => true | _ => false end.

Definition diffPrinters (spooler cloud : list Printer)
  : option (list PrinterDiff) :=
  let lost := List.filter (fun c => negb (existsb (sameName c) spooler)) cloud in
  let diffs :=
    List.map (diffOf cloud) spooler ++
    List.map (fun c => {| Operation := DeletePrinter; DiffPrinter := c |}) lost in
  if forallb isNoChange diffs then None else Some diffs.

#[export] Instance adapters : Adapters := {|
  World := Script;
  uintBits := 64%N;
  cupsGetPrinters := fun w => answer "GetPrinters" (spoolerPrinters w) w;
  cupsGetPPD := fun name => answer "GetPPD" ("ppd of " +:+ name);
  cupsRemoveCachedPPD := fun _ w => w;
  cupsCreateTempFile := fun w => answer "CreateTempFile" (tempFile w) w;
  cupsPrint := fun _ _ _ _ _ => answer "Print" 7%N;
  cupsGetJobState := fun _ => nextJobState;
  gcpList := fun w => answer "List" (cloudListing w) w;
  gcpSetPrinterXMPPPingInterval := fun _ => report "SetPrinterXMPPPingInterval";
  gcpSetConnectorXMPPPingInterval := fun _ w => w;
  gcpRegister := fun p _ w =>
    if fails "Register" w then ((Some "Register failed", p), w)
    else ((None, registered p), w);
  gcpCanShare := fun w => (sharing w, w);
  gcpShare := fun _ _ => report "Share";
  gcpUpdate := fun diff _ w => ((report "Update" w).1, diff, w);
  gcpDelete := fun _ => report "Delete";
  gcpPrinter := fun gcpID w =>
    match List.find (fun p => String.eqb (GCPID p) gcpID)
                    (listPrinters (cloudListing w)) with
    | Some p => answer "Printer" p w
    | None => (Failure "no such printer", w)
    end;
  gcpTicket := fun _ => answer "Ticket" (∅ : gmap string string);
  gcpDownload := fun _ _ => report "Download";
  gcpControl := fun _ _ _ _ => report "Control";
  libFilterRawPrinters := fun printers => (printers, []);
  libDiffPrinters := diffPrinters;
  libNewSemaphore := fun capacity w => (N.succ capacity, w);
  semAcquire := fun s w => if existsb (N.eqb s) (busy w) then None else Some w;
  semRelease := fun _ w => w;
  osRemove := fun _ w => w;
  timeParseDuration := fun s =>
    if String.eqb s "1m" then Success 60000000000 else Failure "invalid duration"
|}.

(** One printer, known to the spooler and to the cloud. *)
Definition printerA : Printer :=
  {| Name := "printer-A"; GCPID := "gcp-printer-A";
     XMPPPingInterval := 120000000000; CUPSJobSemaphore := 3%N |}.

Definition printerB : Printer :=
  {| Name := "printer-B"; GCPID := "gcp-printer-B";
     XMPPPingInterval := 60000000000; CUPSJobSemaphore := 3%N |}.

Definition script (failing : list string)
    (jobStates : list (option (SpoolerState * N))) : Script :=
  {| spoolerPrinters := [printerA];
     cloudListing := {| listPrinters := [printerA; printerB];
                        listQueuedJobsCount := [];
                        listXMPPPingIntervalChanges := ["gcp-printer-A"] |};
     failing := failing; sharing := true; tempFile := "/tmp/cups-connector-1";
     jobStates := jobStates; busy := [] |}.

(** A manager that knows [printerA], in the scripted world. *)
Definition manager (w : Script) : State :=
  {| world := w;
     gcpPrintersByGCPID := NewConcurrentPrinterMap [printerA];
     jobsDone := 0%N; jobsError := 0%N;
     jobsInFlight := ∅; tempFiles := ∅ |}.

Definition config (jobFullUsername : bool) : Config :=
  {| cupsQueueSize := 2%N; jobFullUsername := jobFullUsername;
     ignoreRawPrinters := false; shareScope := "team@example.com";
     downloadSemaphore := 5%N |}.

Definition job1 : Job :=
  {| GCPJobID := "J1"; GCPPrinterID := "gcp-printer-A";
     FileURL := "https://cloud.example/J1.pdf";
     OwnerID := "alice@example.com"; Title := "Quarterly report" |}.

(** The polls of a job that is held, prints three pages and completes
    with seven. *)
Definition threePolls : list (option (SpoolerState * N)) :=
  [Some (Held, 0%N); Some (Processing, 3%N); Some (Completed, 7%N)].


Definition printerC : Printer :=
  {| Name := "printer-C"; GCPID := "";
     XMPPPingInterval := 90000000000; CUPSJobSemaphore := 0%N |}.

(** The spooler has [printerA] with another interval and a new
    [printerC]; it has lost [printerB]. *)
Definition roundScript (failing : list string) : Script :=
  {| spoolerPrinters := [withInterval printerA 30000000000; printerC];
     cloudListing := {| listPrinters := [printerA; printerB];
                        listQueuedJobsCount := [];
                        listXMPPPingIntervalChanges := [] |};
     failing := failing; sharing := true; tempFile := "/tmp/cups-connector-1";
     jobStates := []; busy := [] |}.

Definition managerAB (w : Script) : State :=
  {| world := w;
     gcpPrintersByGCPID := NewConcurrentPrinterMap [printerA; printerB];
     jobsDone := 0%N; jobsError := 0%N;
     jobsInFlight := ∅; tempFiles := ∅ |}.

End Scripted.

(** ** More of the manager *)

(** [Semaphore.Count()], which only [GetJobStats] calls: the number of
    permits of the semaphore that are held, a [uint] read from the
    world. *)
Class SemaphoreCounts `{Adapters} : Type := {
  semCount : Semaphore -> World -> N
}.

Section Stats.
Context `{SemaphoreCounts}.

(** [uint] addition. *)
Definition uintAdd (a b : N) : N := ((a + b) mod 2 ^ uintBits)%N.

(** The loop of [GetJobStats] over the printers that [GetAll()] gave
    it. *)
Definition processingOf (w : World) (printers : list Printer) : N :=
  foldl (fun processing printer =>
           uintAdd processing (semCount (CUPSJobSemaphore printer) w))
        0%N printers.

(** The permits held on the semaphores of some printers, all told. *)
Definition permitsHeld (w : World) (printers : list Printer) : N :=
  foldr (fun printer held =>
           (semCount (CUPSJobSemaphore printer) w + held)%N)
        0%N printers.

Definition GetJobStats : M (N * N * N * option error) :=
  st <- get;;
  let processing :=
    processingOf (world st) (GetAll (gcpPrintersByGCPID st)) in
  ret (jobsDone st, jobsError st, processing, None).
End Stats.

(** ** More readings of the record *)

Section Accounts.
Context `{Adapters}.

(** The semaphores acquired, and those released, in order. *)
Definition acquires (l : list Event) : list Semaphore :=
  omap (fun e => match e with EvAcquire s => Some s | _ => None end) l.

Definition releases (l : list Event) : list Semaphore :=
  omap (fun e => match e with EvRelease s => Some s | _ => None end) l.

(** The spooler jobs polled. *)
Definition polls (l : list Event) : list N :=
  omap (fun e => match e with EvGetJobState id _ => Some id | _ => None end) l.

(** The goroutines started. *)
Definition goroutines (l : list Event) : list string :=
  omap (fun e => match e with EvGo g => Some g | _ => None end) l.

(** The calls of [SetPrinterXMPPPingInterval], with their results. *)
Definition pingUpdates (l : list Event) : list (string * bool) :=
  omap (fun e => match e with
                 | EvSetPrinterXMPPPingInterval id ok => Some (id, ok)
                 | _ => None
                 end) l.

Definition isGetPrinters (e : Event) : bool :=
  match e with EvGetPrinters _ => true | _ => false end.

(** The [Control] calls of a record are all for one job. *)
Definition controlsFor (gcpJobID : string) (l : list Event) : Prop :=
  Forall (fun c => c.1.1.1 = gcpJobID) (controls l).

(** What the loop of [NewPrinterManager] over the pending ping interval
    changes does. *)
Definition pingEvent (e : Event) : Prop :=
  match e with
  | EvGet _ _ | EvSetPrinterXMPPPingInterval _ _ | EvGlog _ _ => True
  | _ => False
  end.

(** The goroutines that [NewPrinterManager] starts, in order. *)
Definition managerGoroutines : list string :=
  ["syncPrintersPeriodically"; "listenGCPJobs"; "listenGCPPrinterUpdates"].

(** One more job was counted, done or in error. *)
Definition countedOnce (st st' : State) : Prop :=
  (jobsDone st' = uintSucc (jobsDone st) /\ jobsError st' = jobsError st) \/
  (jobsDone st' = jobsDone st /\ jobsError st' = uintSucc (jobsError st)).

Definition notCounted (st st' : State) : Prop :=
  jobsDone st' = jobsDone st /\ jobsError st' = jobsError st.

(** Nothing but the world changed. *)
Definition onlyWorld (st st' : State) : Prop := st' = setWorld (world st') st.

(** Nothing of the job processors changed: the counters, the in-flight
    set and the temporary files. *)
Definition jobsKept (st st' : State) : Prop :=
  jobsDone st' = jobsDone st /\ jobsError st' = jobsError st /\
  jobsInFlight st' = jobsInFlight st /\ tempFiles st' = tempFiles st.
End Accounts.

(** ** More of the scripted world *)

Module ScriptedStats.
Import Scripted.

(** A semaphore of the scripted world is numbered one more than its
    capacity; one that is never free is full, the others hold no
    permit. *)
#[export] Instance counts : SemaphoreCounts := {|
  semCount := fun s w => if existsb (N.eqb s) (busy w) then N.pred s else 0%N
|}.

(** A world in which the semaphore of [printerA] is never free. *)
Definition busyScript : Script :=
  {| spoolerPrinters := [printerA];
     cloudListing := {| listPrinters := [printerA; printerB];
                        listQueuedJobsCount := [];
                        listXMPPPingIntervalChanges := ["gcp-printer-A"] |};
     failing := []; sharing := true; tempFile := "/tmp/cups-connector-1";
     jobStates := []; busy := [3%N] |}.

(** The diffs of a round in the world of [roundScript]. *)
Definition roundDiffsAB : list PrinterDiff :=
  [ {| Operation := UpdatePrinter;
       DiffPrinter := withInterval printerA 30000000000 |};
    {| Operation := RegisterPrinter; DiffPrinter := printerC |};
    {| Operation := DeletePrinter; DiffPrinter := printerB |} ].

End ScriptedStats.

(** ** A world with other zero values

    The declarations of [lib.CUPSJobState] and [lib.GCPJobState] are not
    in this file.  In this world the zero value of the cloud state is a
    state of its own, [Draft], which none of the three named constants is;
    the spooler's states and their mapping are those of the scripted
    world.  The world is the list of the answers of [GetJobState] to come;
    every other call succeeds and changes nothing. *)

Module Drafted.

Inductive CloudState : Type := Draft | InProgress | Done | AbortedJob.

#[export] Instance CloudState_eq_dec : EqDecision CloudState.
Proof. solve_decision. Defined.

Definition mapState (s : Scripted.SpoolerState) : CloudState * Z :=
  match s with
  | Scripted.Pending_ | Scripted.Held | Scripted.Processing
  | Scripted.Stopped => (InProgress, 100)
  | Scripted.Canceled => (AbortedJob, 0)
  | Scripted.Aborted => (AbortedJob, 2)
  | Scripted.Completed => (Done, 100)
  end.

#[export] Instance states : JobStates := {|
  CUPSJobState := Scripted.SpoolerState;
  CUPSJobState_eq_dec := Scripted.SpoolerState_eq_dec;
  CUPSJobStateZero := Scripted.Pending_;
  GCPJobState := CloudState;
  GCPJobStateZero := Draft;
  GCPJobInProgress := InProgress;
  GCPJobDone := Done;
  GCPJobAborted := AbortedJob;
  GCPJobState_distinct :=
    ltac:(apply NoDup_ListNoDup; repeat constructor; simpl;
          intuition discriminate);
  GCPJobStateCause := Z;
  GCPJobOther := 3;
  GCPJobInvalidTicket := 1;
  GCPJobPrintFailure := 2;
  GCPJobStateCauseOf := fun z => z;
  toGCPJobState := mapState
|}.

#[export] Instance semaphores : SemaphoreRef := {|
  Semaphore := N;
  nilSemaphore := 0%N
|}.

Definition nextAnswer (w : list (option (Scripted.SpoolerState * N)))
  : Result (Scripted.SpoolerState * N) *
    list (option (Scripted.SpoolerState * N)) :=
  match w with
  | Some a :: rest => (Success a, rest)
  | None :: rest => (Failure "GetJobState failed", rest)
  | [] => (Failure "GetJobState failed", [])
  end.

#[export] Instance adapters : Adapters := {|
  World := list (option (Scripted.SpoolerState * N));
  uintBits := 64%N;
  cupsGetPrinters := fun w => (Success [], w);
  cupsGetPPD := fun name w => (Success ("ppd of " +:+ name), w);
  cupsRemoveCachedPPD := fun _ w => w;
  cupsCreateTempFile := fun w => (Success "/tmp/cups-connector-1", w);
  cupsPrint := fun _ _ _ _ _ w => (Success 7%N, w);
  cupsGetJobState := fun _ => nextAnswer;
  gcpList := fun w =>
    (Success {| listPrinters := []; listQueuedJobsCount := [];
                listXMPPPingIntervalChanges := [] |}, w);
  gcpSetPrinterXMPPPingInterval := fun _ w => (None, w);
  gcpSetConnectorXMPPPingInterval := fun _ w => w;
  gcpRegister := fun p _ w => ((None, p), w);
  gcpCanShare := fun w => (false, w);
  gcpShare := fun _ _ w => (None, w);
  gcpUpdate := fun diff _ w => ((None, diff), w);
  gcpDelete := fun _ w => (None, w);
  gcpPrinter := fun _ w => (Failure "no such printer", w);
  gcpTicket := fun _ w => (Success (∅ : gmap string string), w);
  gcpDownload := fun _ _ w => (None, w);
  gcpControl := fun _ _ _ _ w => (None, w);
  libFilterRawPrinters := fun printers => (printers, []);
  libDiffPrinters := fun _ _ => None;
  libNewSemaphore := fun capacity w => (N.succ capacity, w);
  semAcquire := fun _ w => Some w;
  semRelease := fun _ w => w;
  osRemove := fun _ w => w;
  timeParseDuration := fun _ => Success 60000000000
|}.


End Drafted.

(** ** A listing with two printers under one identifier *)

Module ScriptedTwins.
Import Scripted.

Definition twinA : Printer :=
  {| Name := "twin-A"; GCPID := "gcp-twin";
     XMPPPingInterval := 10000000000; CUPSJobSemaphore := 0%N |}.

Definition twinB : Printer :=
  {| Name := "twin-B"; GCPID := "gcp-twin";
     XMPPPingInterval := 20000000000; CUPSJobSemaphore := 0%N |}.

(** The cloud lists [twinA], then [twinB]. *)
Definition twinsScript : Script :=
  {| spoolerPrinters := [];
     cloudListing := {| listPrinters := [twinA; twinB];
                        listQueuedJobsCount := [];
                        listXMPPPingIntervalChanges := [] |};
     failing := []; sharing := true; tempFile := "/tmp/cups-connector-1";
     jobStates := []; busy := [] |}.

End ScriptedTwins.

(** * Properties *)

(** ** Strings *)

Lemma slicePrefix_length (s : string) (n : nat) :
  String.length (slicePrefix s n) = Nat.min n (String.length s).
Proof.
  unfold slicePrefix. revert n.
  induction s as [|a s IH]; intros [|n]; simpl; auto.
Qed.

Lemma slicePrefix_all (s : string) (n : nat) :
  (String.length s <= n)%nat -> slicePrefix s n = s.
Proof.
  unfold slicePrefix. revert n.
  induction s as [|a s IH]; intros [|n] Hn; simpl in *; try lia; auto.
  f_equal. apply IH. lia.
Qed.

Lemma jobTitle_slice (job : Job) :
  jobTitle job =
  slicePrefix ("gcp:" +:+ GCPJobID job +:+ " " +:+ Title job) 255.
Proof.
  unfold jobTitle.
  destruct (Nat.ltb_spec 255
              (String.length ("gcp:" +:+ GCPJobID job +:+ " " +:+ Title job)))
    as [Hlong|Hshort]; [reflexivity|].
  symmetry. by apply slicePrefix_all.
Qed.

(** [Split] gives at least one string; the first has no separator in it
    and is followed, in [s], by nothing or by a separator. *)
Lemma Split_first (s : string) (sep : ascii) :
  exists first others,
    Split s sep = first :: others /\
    ~ In sep (list_ascii_of_string first) /\
    (s = first \/ exists rest, s = first +:+ String sep rest).
Proof.
  induction s as [|a s (first & others & E & Hno & Hs)]; simpl.
  - exists "", []. repeat split; auto.
  - destruct (Ascii.eqb_spec a sep) as [->|Hne].
    + exists "", (Split s sep). repeat split; simpl; eauto.
    + rewrite E. exists (String a first), others.
      repeat split; simpl.
      * intros [?|?]; [congruence|auto].
      * destruct Hs as [->|(rest & ->)]; [by left|right; by exists rest].
Qed.

(** ** The in-flight set *)

Lemma addInFlight_present (id : string) (m : gmap string bool) :
  inFlight m id = true -> addInFlight id m = (false, m).
Proof. unfold addInFlight. by intros ->. Qed.

Lemma addInFlight_absent (id : string) (m : gmap string bool) :
  inFlight m id = false -> addInFlight id m = (true, <[id := true]> m).
Proof. unfold addInFlight. by intros ->. Qed.

Lemma inFlight_insert (id id' : string) (m : gmap string bool) :
  inFlight (<[id := true]> m) id' = if decide (id = id') then true else inFlight m id'.
Proof.
  unfold inFlight. rewrite lookup_insert. by destruct (decide (id = id')).
Qed.

Lemma inFlight_delete (id id' : string) (m : gmap string bool) :
  inFlight (deleteInFlight id m) id' =
  if decide (id = id') then false else inFlight m id'.
Proof.
  unfold inFlight, deleteInFlight. rewrite lookup_delete.
  by destruct (decide (id = id')).
Qed.

Lemma exclusive_start : exclusive noProcessors.
Proof.
  split; [constructor|]. intros id. unfold inFlight; simpl.
  rewrite lookup_empty; simpl. split; [by intros ?%elem_of_nil|done].
Qed.

Lemma exclusive_deliver (id : string) (s : Processors) :
  exclusive s -> exclusive (deliver id s).
Proof.
  intros [Hnd Hin]. unfold deliver, addInFlight.
  destruct (inFlight (inFlightSet s) id) eqn:E; [done|].
  split; simpl.
  - constructor; [|done]. rewrite Hin. congruence.
  - intros id'. rewrite elem_of_cons, inFlight_insert, Hin.
    destruct (decide (id = id')) as [->|Hne].
    + split; auto.
    + split; [intros [?|?]; congruence|auto].
Qed.

Lemma exclusive_finish (i : nat) (s : Processors) :
  exclusive s -> exclusive (finish i s).
Proof.
  intros [Hnd Hin]. unfold finish.
  destruct (active s !! i) as [id|] eqn:E; [|done].
  unfold exclusive; simpl. rewrite delete_take_drop.
  pose proof (take_drop_middle _ _ _ E) as Hsplit.
  remember (take i (active s)) as before eqn:Hb.
  remember (drop (S i) (active s)) as after eqn:Ha.
  clear Hb Ha E.
  assert (Hin' : forall id', id' ∈ before ++ id :: after <->
                             inFlight (inFlightSet s) id' = true)
    by (intros id'; rewrite Hsplit; apply Hin).
  rewrite <- Hsplit in Hnd. clear Hsplit Hin.
  apply NoDup_app in Hnd as (H1 & H2 & H3).
  apply NoDup_cons in H3 as (H3 & H4).
  split.
  - apply NoDup_app. repeat split; try done.
    intros x Hx Hx'. apply (H2 x Hx). by right.
  - intros id'. rewrite inFlight_delete, elem_of_app.
    destruct (decide (id = id')) as [<-|Hne].
    + split; [|done]. intros [Hx|Hx]; [|done].
      exfalso. apply (H2 id Hx). by left.
    + rewrite <- Hin', elem_of_app, elem_of_cons.
      split; [intros [?|?]; auto|intros [?|[?|?]]; [auto|exfalso; congruence|auto]].
Qed.

Lemma exclusive_processors (history : list ProcessorStep) :
  exclusive (processors history).
Proof.
  unfold processors.
  induction history as [|e history IH] using rev_ind; [apply exclusive_start|].
  rewrite foldl_app; simpl.
  destruct e; simpl; [by apply exclusive_deliver|by apply exclusive_finish].
Qed.

(** ** The job processor *)

Ltac unfold_manager :=
  unfold Control, logError, Get, Acquire, Release, Remove,
    incrementJobsProcessed, addInFlightJob, deleteInFlightJob, Refresh, send,
    receive, deferring, call, call_, glog, emit, modify, get, pending, panic,
    bind, ret in *.

Ltac cases := repeat (case_match; simplify_eq/=).

(** The cases of [In x [a; b; ...]]. *)
Ltac in_cases H :=
  simpl in H;
  repeat (destruct H as [H|H]; [try discriminate H; simplify_eq|]);
  try contradiction.

Section Events.
Context `{JobStates} `{SemaphoreRef}.

Lemma failedStep_app (l1 l2 : list Event) :
  failedStep (l1 ++ l2) =
  match failedStep l1 with Some s => Some s | None => failedStep l2 end.
Proof.
  unfold failedStep. rewrite omap_app.
  by destruct (omap stepFailed l1).
Qed.

Lemma controls_app (l1 l2 : list Event) :
  controls (l1 ++ l2) = controls l1 ++ controls l2.
Proof. apply omap_app. Qed.

Lemma controls_none (l : list Event) :
  Forall (fun e => isControl e = false) l -> controls l = [].
Proof.
  unfold controls. induction 1 as [|e l He _ IH]; simpl; [done|].
  destruct e; simpl in *; try done.
Qed.

Lemma prints_app (l1 l2 : list Event) :
  prints (l1 ++ l2) = prints l1 ++ prints l2.
Proof. apply List.filter_app. Qed.

Lemma prints_none (l : list Event) :
  Forall (fun e => isPrint e = false) l -> prints l = [].
Proof.
  unfold prints. induction 1 as [|e l He _ IH]; simpl; [done|].
  by rewrite He.
Qed.
End Events.

Section JobProcessorFacts.
Context `{Adapters}.

Lemma followEvent_quiet (e : Event) :
  followEvent e ->
  isPrint e = false /\ isInFlightEvent e = false /\ stepFailed e = None /\
  submitEvent e /\ forall cfg job, submitted cfg job e.
Proof. destruct e; simpl; try done. Qed.

Lemma assembleEvent_quiet (e : Event) :
  assembleEvent e ->
  isPrint e = false /\ isInFlightEvent e = false /\ isControl e = false /\
  forall cfg job, submitted cfg job e.
Proof. destruct e; simpl; try done. Qed.

Lemma submitEvent_quiet (e : Event) :
  submitEvent e ->
  isInFlightEvent e = false /\ forall g, e <> EvCreateTempFile g.
Proof. destruct e; simpl; try done. Qed.

Lemma followTick_frame job cupsJobID v st :
  let run := followTick job cupsJobID v st in
  untouched st (final run) /\ Forall followEvent (record run) /\
  exists next, outcome run = Return next.
Proof.
  unfold outcome, final, record, untouched.
  destruct (followTick job cupsJobID v st) as [[r st'] l] eqn:E.
  unfold followTick in E. unfold_manager.
  cases; simpl; repeat split; eauto; repeat constructor.
Qed.

Lemma followLoop_frame ticks job cupsJobID v st :
  let run := followLoop ticks job cupsJobID v st in
  untouched st (final run) /\ Forall followEvent (record run) /\
  outcome run <> Panic.
Proof.
  revert v st. induction ticks as [|ticks IH]; intros v st; simpl.
  { unfold untouched. repeat split; done. }
  unfold bind.
  pose proof (followTick_frame job cupsJobID v st) as F. simpl in F.
  destruct (followTick job cupsJobID v st) as [[r st1] l1].
  unfold outcome, final, record in F; simpl in F.
  destruct F as ((F1 & F2 & F3) & F4 & next & ->).
  destruct next as [v'|].
  - specialize (IH v' st1).
    destruct (followLoop ticks job cupsJobID v' st1) as [[r2 st2] l2].
    unfold outcome, final, record, untouched in *; simpl in *.
    destruct IH as ((I1 & I2 & I3) & I4 & I5).
    repeat split; try congruence. by apply Forall_app.
  - unfold ret, outcome, final, record, untouched; simpl.
    rewrite app_nil_r. done.
Qed.

Lemma followJob_frame ticks job cupsJobID st :
  let run := followJob ticks job cupsJobID st in
  untouched st (final run) /\ Forall followEvent (record run) /\
  outcome run <> Panic.
Proof. apply followLoop_frame. Qed.

(** [assembleJob]: it succeeds with an empty message and a file, or
    fails with a message and the cause of the step that failed, its file
    removed if it made one. *)
Lemma assembleJob_run cfg job st :
  let run := assembleJob cfg job st in
  Forall assembleEvent (record run) /\
  gcpPrintersByGCPID (final run) = gcpPrintersByGCPID st /\
  jobsInFlight (final run) = jobsInFlight st /\
  jobsDone (final run) = jobsDone st /\
  jobsError (final run) = jobsError st /\
  match outcome run with
  | Return (printer, options, pdfFile, message, cause) =>
      (message = "" /\
       exists f, pdfFile = Some f /\
         failedStep (record run) = None /\
         tempFiles (final run) = tempFiles st ∪ {[f]} /\
         forall g, In (EvCreateTempFile (Some g)) (record run) -> g = f) \/
      (message <> "" /\
       exists s, failedStep (record run) = Some s /\
         s <> SubmitFailed /\ cause = failureCause s /\
         forall g, In (EvCreateTempFile (Some g)) (record run) ->
                   (g ∉ tempFiles (final run)) /\ In (EvRemove g) (record run))
  | Pending => failedStep (record run) = None
  | Panic => False
  end.
Proof.
  unfold outcome, final, record.
  destruct (assembleJob cfg job st) as [[r st'] l] eqn:E.
  unfold assembleJob in E. unfold_manager.
  cases; simpl; (split; [repeat constructor|]);
    do 4 (split; [done|]); try done.
  all: first
    [ left; split; [reflexivity|]
    | right; split; [discriminate|] ];
    eexists; (split; [reflexivity|]);
    (split; [first [reflexivity | discriminate]|]); (split; [reflexivity|]).
  all: intros file Hg; in_cases Hg;
    first [done
          | split; [apply not_elem_of_difference; right; by apply elem_of_singleton
                   |simpl; auto 10]].
Qed.
End JobProcessorFacts.

Section ProcessJobFacts.
Context `{Adapters}.

Lemma follow_no_failure (l : list Event) :
  Forall followEvent l -> omap stepFailed l = [].
Proof.
  induction 1 as [|e l He _ IH]; simpl; [done|].
  apply followEvent_quiet in He as (_ & _ & -> & _). done.
Qed.

(** [Forall P] of a record written out, its unknown parts records of
    [followJob]. *)
Ltac forall_events :=
  repeat first [rewrite Forall_cons | rewrite Forall_app | rewrite Forall_nil];
  simpl;
  repeat split; eauto;
  try (eapply Forall_impl; [eassumption|];
       let He := fresh in
       intros ? He; apply followEvent_quiet in He;
       destruct He as (? & ? & ? & ? & ?); auto).

Ltac use_follow :=
  match goal with
  | E : followJob ?t ?j ?n ?s = _ |- _ =>
      let F := fresh "F" in
      pose proof (followJob_frame t j n s) as F; rewrite E in F;
      unfold outcome, final, record, untouched in F; simpl in F;
      destruct F as ((? & ? & ?) & ? & ?); clear E
  end.

(** [submitJob]: the only step that can fail is [Print]; its failure is
    reported once and counted. *)
Lemma submitJob_run ticks cfg job printer options pdfFile st :
  let run := submitJob ticks cfg job printer options pdfFile st in
  untouched st (final run) /\
  Forall submitEvent (record run) /\
  Forall (submitted cfg job) (record run) /\
  outcome run <> Panic /\
  forall s, failedStep (record run) = Some s ->
    s = SubmitFailed /\
    outcome run = Return tt /\
    controls (record run) =
      [(GCPJobID job, GCPJobAborted, GCPJobPrintFailure, 0%N)] /\
    jobsError (final run) = uintSucc (jobsError st) /\
    jobsDone (final run) = jobsDone st /\
    length (prints (record run)) = 1%nat.
Proof.
  unfold outcome, final, record, untouched.
  destruct (submitJob ticks cfg job printer options pdfFile st)
    as [[r st'] l] eqn:E.
  unfold submitJob in E.
  destruct (Split_first (OwnerID job) "@") as (first & others & ES & _).
  rewrite ES in E. unfold_manager.
  cases; try use_follow; simpl.
  all: split; [repeat split; congruence|].
  all: split; [forall_events|].
  all: split;
    [forall_events; destruct (jobFullUsername cfg); simplify_eq/=; eauto|].
  all: split; [done|].
  all: intros step Hs; unfold failedStep in Hs; simpl in Hs;
    rewrite ?omap_app, ?follow_no_failure in Hs by assumption;
    simpl in Hs; simplify_eq; repeat split; done.
Qed.

Ltac use_assemble :=
  match goal with
  | E : assembleJob ?c ?j ?s = _ |- _ =>
      let F := fresh "F" in
      pose proof (assembleJob_run c j s) as F; rewrite E in F;
      unfold outcome, final, record in F; simpl in F;
      destruct F as (? & ? & ? & ? & ? & ?); clear E
  end.

Ltac use_submit :=
  match goal with
  | E : submitJob ?t ?c ?j ?p ?o ?f ?s = _ |- _ =>
      let F := fresh "F" in
      pose proof (submitJob_run t c j p o f s) as F; rewrite E in F;
      unfold outcome, final, record, untouched in F; simpl in F;
      destruct F as ((? & ? & ?) & ? & ? & ? & ?); clear E
  end.


Lemma assemble_events (l : list Event) cfg job :
  Forall assembleEvent l ->
  Forall (fun e => isInFlightEvent e = false) l /\
  Forall (submitted cfg job) l /\
  controls l = [] /\ prints l = [].
Proof.
  intros Hl. repeat split.
  - eapply Forall_impl; [exact Hl|]. by intros e (? & ? & ? & ?)%assembleEvent_quiet.
  - eapply Forall_impl; [exact Hl|]. intros e (? & ? & ? & Hs)%assembleEvent_quiet. apply Hs.
  - apply controls_none. eapply Forall_impl; [exact Hl|]. by intros e (? & ? & ? & ?)%assembleEvent_quiet.
  - apply prints_none. eapply Forall_impl; [exact Hl|]. by intros e (? & ? & ? & ?)%assembleEvent_quiet.
Qed.

Lemma submit_events (l : list Event) :
  Forall submitEvent l ->
  Forall (fun e => isInFlightEvent e = false) l /\
  forall g, ~ In (EvCreateTempFile g) l.
Proof.
  intros Hl. split.
  - eapply Forall_impl; [exact Hl|]. by intros e (? & ?)%submitEvent_quiet.
  - intros g Hg. rewrite Forall_forall in Hl.
    apply list_elem_of_In, Hl, submitEvent_quiet in Hg as (_ & Hg). by apply (Hg g).
Qed.

Lemma failedStep_cons (e : Event) (l : list Event) :
  stepFailed e = None -> failedStep (e :: l) = failedStep l.
Proof. unfold failedStep; simpl. by intros ->. Qed.

Lemma processJob_run ticks cfg job st :
  inFlight (jobsInFlight st) (GCPJobID job) = false ->
  let run := processJob ticks cfg job st in
  exists body,
    record run =
      EvInFlightAdd (GCPJobID job) :: body ++
      (if ended (outcome run) then [EvInFlightDelete (GCPJobID job)] else []) /\
    Forall (fun e => isInFlightEvent e = false) body /\
    Forall (submitted cfg job) body /\
    jobsInFlight (final run) =
      (if ended (outcome run) then delete (GCPJobID job) (jobsInFlight st)
       else <[GCPJobID job := true]> (jobsInFlight st)) /\
    outcome run <> Panic /\
    (ended (outcome run) = true ->
     forall g, In (EvCreateTempFile (Some g)) body ->
               (g ∉ tempFiles (final run)) /\ In (EvRemove g) body) /\
    (forall s, failedStep body = Some s ->
       outcome run = Return tt /\
       controls body =
         [(GCPJobID job, GCPJobAborted, failureCause s, 0%N)] /\
       jobsError (final run) = uintSucc (jobsError st) /\
       jobsDone (final run) = jobsDone st /\
       length (prints body) =
         match s with SubmitFailed => 1%nat | _ => 0%nat end).
Proof.
  intros Habsent. unfold outcome, final, record.
  destruct (processJob ticks cfg job st) as [[r st'] l] eqn:E.
  unfold processJob in E. unfold_manager.
  rewrite (addInFlight_absent _ _ Habsent) in E. simpl in E.
  cases; try use_assemble; try use_submit; simpl.
  all: repeat match goal with
       | Hm : bool_decide _ = _ |- _ =>
           first [apply bool_decide_eq_true in Hm
                 | apply bool_decide_eq_false in Hm]
       | Ha : _ /\ _ \/ _ /\ _ |- _ =>
           destruct Ha as [(? & ? & ? & ? & ? & ?)|(? & ? & ? & ? & ? & ?)];
           simplify_eq
       end; try done.
  all: repeat match goal with
       | Ha : Forall assembleEvent _ |- _ =>
           apply (assemble_events _ cfg job) in Ha as (? & ? & ? & ?)
       | Hs : Forall submitEvent _ |- _ =>
           apply submit_events in Hs as (? & ?)
       end.
  all: match goal with
       | |- exists body, ?a :: ?b :: ?rest ++ [?d] = _ /\ _ => exists (b :: rest)
       | |- exists body, ?a :: ?b :: ?rest = _ /\ _ => exists (b :: rest)
       end.
  all: (split; [by rewrite ?app_nil_r|]).
  all: (split; [forall_events|]).
  all: (split; [forall_events|]).
  all: (split; [unfold deleteInFlight; try congruence;
                match goal with Hj : jobsInFlight _ = _ |- _ => rewrite Hj end;
                try match goal with Hj : jobsInFlight _ = _ |- _ => rewrite Hj end;
                by rewrite ?delete_insert_eq|]).
  all: (split; [done|]).
  all: split; [intros Hended file Hg | intros step Hs].
  all: try discriminate Hended.
  all: try (simpl in Hg; destruct Hg as [Hg|Hg]; [discriminate Hg|];
            rewrite ?in_app_iff in Hg; simpl in Hg;
            repeat (destruct Hg as [Hg|Hg]); try discriminate Hg;
            try contradiction;
            try (match goal with
                 | Hc : forall g, In _ ?l -> _ /\ _, Hg : In _ ?l |- _ =>
                     destruct (Hc _ Hg); split; [done|];
                     right; apply in_or_app; by left
                 end)).
  all: try match goal with
       | Hc : forall g, In _ ?l -> g = ?x, Hg : In _ ?l |- _ =>
           apply Hc in Hg; subst;
           split; [apply not_elem_of_difference; right;
                   by apply elem_of_singleton|];
           right; rewrite !in_app_iff; simpl; auto
       end.
  all: try match goal with
       | Hn : forall g, ~ In (EvCreateTempFile g) ?l, Hg : In _ ?l |- _ =>
           exfalso; exact (Hn _ Hg)
       end.
  all: rewrite failedStep_cons in Hs by done;
    rewrite ?failedStep_app in Hs; simpl;
    rewrite ?controls_app, ?prints_app.
  all: repeat match goal with
       | Hf : failedStep _ = _ |- _ => rewrite Hf in *
       | Hf : controls _ = _ |- _ => rewrite Hf in *
       | Hf : prints _ = _ |- _ => rewrite Hf in *
       end; simpl in *; simplify_eq.
  all: try (destruct step; repeat split; congruence).
  all: try match goal with
       | Hsub : forall s, failedStep ?l0 = Some s -> _ |- _ =>
           destruct (failedStep l0) as [failed|] eqn:Ef;
           [destruct (Hsub _ eq_refl) as (-> & ? & ? & ? & ? & ?)|];
           simpl in *; simplify_eq
       end.
  all: try (rewrite ?app_nil_r; repeat split; simpl; congruence).
  all: match goal with
       | Hsub : forall s, Some ?x = Some s -> _ |- _ =>
           destruct (Hsub _ eq_refl) as (? & ? & ?); discriminate
       end.
Qed.
End ProcessJobFacts.
Section JobProcessorClaims.
Context `{Adapters}.

Lemma processJob_duplicate ticks cfg job st :
  inFlight (jobsInFlight st) (GCPJobID job) = true ->
  processJob ticks cfg job st = (Return tt, st, []).
Proof.
  intros Hpresent. unfold processJob, addInFlightJob, bind, ret.
  rewrite (addInFlight_present _ _ Hpresent). simpl. by destruct st.
Qed.

(** C1. A job that is already in flight is dropped at once: [processJob]
    returns, the state is as it was and nothing was called.  Any other
    job is put in flight before anything else happens, stays there while
    the processor runs, and is taken out as the last act of the processor
    when it ends.  So, whatever the order in which jobs are delivered and
    processors end, no two active processors have the same job. *)
Theorem processJob_inFlight ticks cfg job st :
  let run := processJob ticks cfg job st in
  (inFlight (jobsInFlight st) (GCPJobID job) = true ->
   run = (Return tt, st, [])) /\
  (inFlight (jobsInFlight st) (GCPJobID job) = false ->
   exists body,
     record run =
       EvInFlightAdd (GCPJobID job) :: body ++
       (if ended (outcome run) then [EvInFlightDelete (GCPJobID job)]
        else []) /\
     Forall (fun e => isInFlightEvent e = false) body /\
     jobsInFlight (final run) =
       (if ended (outcome run)
        then delete (GCPJobID job) (jobsInFlight st)
        else <[GCPJobID job := true]> (jobsInFlight st))) /\
  (forall history,
     NoDup (active (processors history)) /\
     forall id, id ∈ active (processors history) <->
                inFlight (inFlightSet (processors history)) id = true).
Proof.
  simpl. split; [apply processJob_duplicate|]. split.
  - intros Habsent.
    destruct (processJob_run ticks cfg job st Habsent)
      as (body & Hrecord & Hquiet & _ & Hflight & _).
    exists body. auto.
  - intros history. apply exclusive_processors.
Qed.

(** The events of [processJob], whether the job was in flight or not. *)
Lemma processJob_cases ticks cfg job st :
  let run := processJob ticks cfg job st in
  run = (Return tt, st, []) \/
  exists body,
    inFlight (jobsInFlight st) (GCPJobID job) = false /\
    record run =
      EvInFlightAdd (GCPJobID job) :: body ++
      (if ended (outcome run) then [EvInFlightDelete (GCPJobID job)]
       else []).
Proof.
  simpl. destruct (inFlight (jobsInFlight st) (GCPJobID job)) eqn:E.
  - left. by apply processJob_duplicate.
  - right. destruct (processJob_run ticks cfg job st E) as (body & ? & _).
    by exists body.
Qed.

Lemma in_processJob ticks cfg job st (e : Event) :
  isInFlightEvent e = false ->
  In e (record (processJob ticks cfg job st)) ->
  exists body,
    inFlight (jobsInFlight st) (GCPJobID job) = false /\
    record (processJob ticks cfg job st) =
      EvInFlightAdd (GCPJobID job) :: body ++
      (if ended (outcome (processJob ticks cfg job st))
       then [EvInFlightDelete (GCPJobID job)] else []) /\
    In e body.
Proof.
  intros He Hin.
  destruct (processJob_cases ticks cfg job st) as [E|(body & Habsent & E)].
  - by rewrite E in Hin.
  - exists body. repeat split; try done.
    rewrite E in Hin. destruct Hin as [<-|Hin]; [done|].
    apply in_app_or in Hin as [Hin|Hin]; [done|].
    destruct (ended _); [|done]. by destruct Hin as [<-|[]].
Qed.

(** C8. The title of every [Print] call of [processJob] is
    ["gcp:" + CloudJobID + " " + Title] cut to its first 255 bytes, and so
    is at most 255 bytes long. *)
Theorem processJob_title ticks cfg job st
    printer file title owner options cupsJobID :
  In (EvPrint printer file title owner options cupsJobID)
     (record (processJob ticks cfg job st)) ->
  title = String.substring 0 255
            ("gcp:" +:+ GCPJobID job +:+ " " +:+ Title job) /\
  (String.length title <= 255)%nat.
Proof.
  intros Hin. apply in_processJob in Hin as (body & Habsent & E & Hin); [|done].
  destruct (processJob_run ticks cfg job st Habsent)
    as (body' & E' & _ & Hsub & _).
  rewrite E in E'. injection E' as E'. apply app_inv_tail in E'. subst body'.
  rewrite Forall_forall in Hsub.
  apply list_elem_of_In, Hsub in Hin. destruct Hin as (-> & _).
  rewrite jobTitle_slice. split; [reflexivity|].
  rewrite slicePrefix_length. lia.
Qed.

(** C9. While [JobFullUsername] is false the owner of every [Print] call
    of [processJob] is the part of [OwnerID] before its first ['@']: it has
    no ['@'] and [OwnerID] is that owner, followed by nothing or by an
    ['@'] and the rest.  While it is true the owner is [OwnerID]. *)
Theorem processJob_owner ticks cfg job st
    printer file title owner options cupsJobID :
  In (EvPrint printer file title owner options cupsJobID)
     (record (processJob ticks cfg job st)) ->
  if jobFullUsername cfg then owner = OwnerID job
  else ~ In "@"%char (list_ascii_of_string owner) /\
       (OwnerID job = owner \/
        exists rest, OwnerID job = owner +:+ String "@" rest).
Proof.
  intros Hin. apply in_processJob in Hin as (body & Habsent & E & Hin); [|done].
  destruct (processJob_run ticks cfg job st Habsent)
    as (body' & E' & _ & Hsub & _).
  rewrite E in E'. injection E' as E'. apply app_inv_tail in E'. subst body'.
  rewrite Forall_forall in Hsub.
  apply list_elem_of_In, Hsub in Hin. destruct Hin as (_ & Hin).
  destruct (jobFullUsername cfg); [done|].
  destruct Hin as (others & ES).
  destruct (Split_first (OwnerID job) "@") as (first & others' & ES' & Hno & Hs).
  rewrite ES in ES'. by simplify_eq.
Qed.

(** C4. When [processJob] has ended, by a return of any kind, every file
    that it made with [CreateTempFile] has been removed with [os.Remove] and
    is no longer among the temporary files. *)
Theorem processJob_tempFile ticks cfg job st file :
  let run := processJob ticks cfg job st in
  ended (outcome run) = true ->
  In (EvCreateTempFile (Some file)) (record run) ->
  (file ∉ tempFiles (final run)) /\ In (EvRemove file) (record run).
Proof.
  simpl. intros Hended Hin.
  apply in_processJob in Hin as (body & Habsent & E & Hin); [|done].
  destruct (processJob_run ticks cfg job st Habsent)
    as (body' & E' & _ & _ & _ & _ & Htemp & _).
  rewrite E in E'. injection E' as E'. apply app_inv_tail in E'. subst body'.
  destruct (Htemp Hended _ Hin) as (Hgone & Hremoved). split; [done|].
  rewrite E. right. apply in_or_app. by left.
Qed.

(** C3, as the code has it.  When a step of [processJob] before the follow
    phase fails, the processor returns after exactly one [Control] call,
    which reports the job aborted with the cause of the step that failed
    and no pages, and after counting one more job in error and none more
    done.  [Print] is not called when the failure is in the assembly; it
    has been called once, and failed, when the failure is the submission
    itself. *)
Theorem processJob_failure ticks cfg job st step :
  let run := processJob ticks cfg job st in
  failedStep (record run) = Some step ->
  outcome run = Return tt /\
  controls (record run) =
    [(GCPJobID job, GCPJobAborted, failureCause step, 0%N)] /\
  jobsError (final run) = uintSucc (jobsError st) /\
  jobsDone (final run) = jobsDone st /\
  length (prints (record run)) =
    match step with SubmitFailed => 1%nat | _ => 0%nat end.
Proof.
  simpl. intros Hfailed.
  destruct (processJob_cases ticks cfg job st) as [E|(body & Habsent & E)].
  { by rewrite E in Hfailed. }
  destruct (processJob_run ticks cfg job st Habsent)
    as (body' & E' & _ & _ & _ & _ & _ & Hfail).
  rewrite E in E'. injection E' as E'. apply app_inv_tail in E'. subst body'.
  assert (Htail : forall tail : list Event,
            tail = (if ended (outcome (processJob ticks cfg job st))
                    then [EvInFlightDelete (GCPJobID job)] else []) ->
            failedStep tail = None /\ controls tail = [] /\ prints tail = []).
  { intros tail ->. by destruct (ended _). }
  destruct (Htail _ eq_refl) as (T1 & T2 & T3).
  rewrite E in Hfailed |- *.
  rewrite failedStep_cons, failedStep_app, T1 in Hfailed by done.
  assert (Hbody : failedStep body = Some step) by by destruct (failedStep body).
  destruct (Hfail _ Hbody) as (? & ? & ? & ? & ?).
  change (EvInFlightAdd (GCPJobID job) :: body ++ ?t)
    with ([EvInFlightAdd (GCPJobID job)] ++ body ++ t).
  rewrite !controls_app, !prints_app, T2, T3; simpl.
  rewrite !app_nil_r. done.
Qed.
End JobProcessorClaims.
Section FollowClaims.
Context `{Adapters}.





(** The loop of [followJob] ends with the turn that ends, and goes on from
    the variables of the turn that does not. *)
Lemma followLoop_turn ticks job cupsJobID v st :
  followLoop (S ticks) job cupsJobID v st =
  bind (followTick job cupsJobID v)
       (fun next => match next with
                    | None => ret tt
                    | Some v => followLoop ticks job cupsJobID v
                    end) st.
Proof. reflexivity. Qed.

Lemma followLoop_ends ticks job cupsJobID v st :
  outcome (followTick job cupsJobID v st) = Return None ->
  outcome (followLoop (S ticks) job cupsJobID v st) = Return tt.
Proof.
  rewrite followLoop_turn. unfold bind, outcome.
  destruct (followTick job cupsJobID v st) as [[r st1] l1]; simpl.
  by intros ->.
Qed.

(** The variables a turn leaves are those it found, or have the cloud
    state mapped from their local state: from the first change on, the
    cloud state of the variables is the mapped one. *)
Lemma followTick_mapped job cupsJobID v st next :
  outcome (followTick job cupsJobID v st) = Return (Some next) ->
  next = v \/ gcpState next = (toGCPJobState (cupsState next)).1.
Proof.
  unfold outcome.
  destruct (followTick job cupsJobID v st) as [[r st'] l] eqn:E.
  unfold followTick in E. unfold_manager.
  cases; simpl; intros; simplify_eq; auto.
  all: right; simpl;
    match goal with Hm : toGCPJobState _ = _ |- _ => by rewrite Hm end.
Qed.
End FollowClaims.
Section RoundFacts.
Context `{Adapters}.

Lemma roundEvent_quiet (e : Event) :
  roundEvent e -> isSetConnector e = false /\ isControl e = false.
Proof. by destruct e. Qed.

Lemma diffEvent_quiet (e : Event) :
  diffEvent e -> roundEvent e /\ isRefresh e = false.
Proof. by destruct e. Qed.

Lemma applyDiff_frame cfg diff ch st :
  Forall diffEvent (record (applyDiff cfg diff ch st)).
Proof.
  unfold record.
  destruct (applyDiff cfg diff ch st) as [[r st'] l] eqn:E.
  unfold applyDiff in E. unfold_manager.
  cases; simpl; repeat constructor.
Qed.

(** [applyDiff] on a channel with room: it returns, having sent one
    printer, the one that its record accounts for. *)
Lemma applyDiff_run cfg diff ch st :
  (length (chanBuf ch) < chanCap ch)%nat ->
  let run := applyDiff cfg diff ch st in
  exists p,
    outcome run = Return (chanPush p ch) /\
    sends (record run) = [p] /\
    diffOutcome diff (record run) p.
Proof.
  intros Hroom. apply Nat.ltb_lt in Hroom.
  unfold outcome, record, diffOutcome.
  destruct (applyDiff cfg diff ch st) as [[r st'] l] eqn:E.
  unfold applyDiff in E. unfold_manager. rewrite Hroom in E.
  cases; eexists; (split; [reflexivity|]); (split; [reflexivity|]).
  all: unfold errorLogged; simpl.
  all: try solve [intuition eauto 10].
  all: try solve [left; intuition eauto 10].
  all: try solve [right; do 2 eexists; intuition eauto 10].
  all: try solve [eexists; intuition (eauto 10; discriminate)].
  all: split; [done|]; eexists; split; [eauto 10|];
    intros; first [discriminate | eauto 10].
Qed.

Lemma goApplyDiff_run cfg diff ch st :
  (length (chanBuf ch) < chanCap ch)%nat ->
  let run := goApplyDiff cfg diff ch st in
  exists p,
    outcome run = Return (chanPush p ch) /\
    accounted {| runDiff := diff; runRecord := record run; runSent := p |}.
Proof.
  intros Hroom. simpl.
  destruct (applyDiff_run cfg diff ch st Hroom) as (p & Hout & Hsent & Hacc).
  pose proof (applyDiff_frame cfg diff ch st) as Hframe.
  unfold goApplyDiff, accounted; simpl.
  destruct (applyDiff cfg diff ch st) as [[r st'] l].
  unfold outcome, record in *; simpl in *. subst r.
  exists p. auto.
Qed.

Lemma goApplyDiff_frame cfg diff ch st :
  let run := goApplyDiff cfg diff ch st in
  Forall diffEvent (record run) /\ exists ch', outcome run = Return ch'.
Proof.
  simpl. pose proof (applyDiff_frame cfg diff ch st) as F.
  unfold goApplyDiff.
  destruct (applyDiff cfg diff ch st) as [[[ch'| |] st'] l]; eauto.
Qed.

Lemma applyDiffs_frame cfg diffs schedule ch st :
  let run := applyDiffs cfg diffs schedule ch st in
  Forall diffEvent (record run) /\ exists ch', outcome run = Return ch'.
Proof.
  revert ch st. induction schedule as [|i schedule IH]; intros ch st; simpl.
  { split; [constructor|by eexists]. }
  destruct (diffs !! i) as [diff|]; [|apply IH].
  unfold bind.
  destruct (goApplyDiff_frame cfg diff ch st) as (F1 & ch1 & F2).
  destruct (goApplyDiff cfg diff ch st) as [[r st1] l1].
  unfold outcome, record in *; simpl in *. subst r.
  destruct (IH ch1 st1) as (I1 & ch2 & I2).
  destruct (applyDiffs cfg diffs schedule ch1 st1) as [[r2 st2] l2].
  unfold outcome, record in *; simpl in *. subst r2.
  split; [by apply Forall_app|by eexists].
Qed.

(** The goroutines of a round whose channel has room for all of them:
    each ran, in the order of the schedule, and sent its printer. *)
Lemma applyDiffs_run cfg diffs schedule ch st :
  (length (chanBuf ch) + length schedule <= chanCap ch)%nat ->
  let run := applyDiffs cfg diffs schedule ch st in
  exists runs,
    outcome run =
      Return {| chanCap := chanCap ch;
                chanBuf := chanBuf ch ++ (runSent <$> runs) |} /\
    record run = concat (runRecord <$> runs) /\
    Forall accounted runs /\
    runDiff <$> runs = omap (fun i => diffs !! i) schedule.
Proof.
  revert ch st. induction schedule as [|i schedule IH]; intros ch st Hroom;
    simpl in *.
  { exists []. simpl. rewrite app_nil_r. by destruct ch. }
  destruct (diffs !! i) as [diff|]; [|apply IH; lia].
  unfold bind.
  destruct (goApplyDiff_run cfg diff ch st) as (p & F1 & F2); [lia|].
  destruct (goApplyDiff cfg diff ch st) as [[r st1] l1].
  unfold outcome, record in *; simpl in *. subst r.
  destruct (IH (chanPush p ch) st1) as (runs & I1 & I2 & I3 & I4).
  { simpl. rewrite length_app. simpl. lia. }
  destruct (applyDiffs cfg diffs schedule (chanPush p ch) st1)
    as [[r2 st2] l2].
  unfold outcome, record in *; simpl in *. subst r2 l2.
  exists ({| runDiff := diff; runRecord := l1; runSent := p |} :: runs).
  rewrite !fmap_cons; simpl. rewrite <- app_assoc; simpl.
  repeat split; auto. by f_equal.
Qed.

Lemma collectPrinters_frame n ch currentPrinters st :
  let run := collectPrinters n ch currentPrinters st in
  record run = [] /\ final run = st /\ outcome run <> Panic.
Proof.
  revert ch currentPrinters.
  induction n as [|n IH]; intros ch currentPrinters; simpl; [done|].
  unfold bind, receive.
  destruct (chanBuf ch) as [|p buf]; simpl; [done|].
  destruct (bool_decide (Name p ≠ "")).
  - destruct (IH {| chanCap := chanCap ch; chanBuf := buf |}
                 (currentPrinters ++ [p])) as (I1 & I2 & I3).
    destruct (collectPrinters n _ _ st) as [[r st'] l].
    unfold outcome, final, record in *; simpl in *. by subst.
  - destruct (IH {| chanCap := chanCap ch; chanBuf := buf |}
                 currentPrinters) as (I1 & I2 & I3).
    destruct (collectPrinters n _ _ st) as [[r st'] l].
    unfold outcome, final, record in *; simpl in *. by subst.
Qed.

(** The receives of a round when the channel holds a printer for each:
    the round keeps those with a name, in the order received. *)
Lemma collectPrinters_run n ch currentPrinters st :
  (n <= length (chanBuf ch))%nat ->
  outcome (collectPrinters n ch currentPrinters st) =
    Return (currentPrinters ++ named (take n (chanBuf ch))).
Proof.
  revert ch currentPrinters.
  induction n as [|n IH]; intros ch currentPrinters Hn; simpl.
  { by rewrite app_nil_r. }
  unfold bind, receive.
  destruct (chanBuf ch) as [|p buf] eqn:Ebuf; simpl in *; [lia|].
  destruct (bool_decide (Name p ≠ "")) eqn:Ep.
  - specialize (IH {| chanCap := chanCap ch; chanBuf := buf |}
                   (currentPrinters ++ [p])).
    destruct (collectPrinters n _ _ st) as [[r st'] l].
    unfold outcome in *; simpl in *. rewrite IH by lia.
    by rewrite <- app_assoc.
  - specialize (IH {| chanCap := chanCap ch; chanBuf := buf |}
                   currentPrinters).
    destruct (collectPrinters n _ _ st) as [[r st'] l].
    unfold outcome in *; simpl in *. by rewrite IH by lia.
Qed.
End RoundFacts.
Section RoundClaims.
Context `{Adapters}.

Lemma omap_lookup_seq {A} (pre l : list A) :
  omap (fun i => (pre ++ l) !! i) (seq (length pre) (length l)) = l.
Proof.
  revert pre. induction l as [|a l IH]; intros pre; simpl; [done|].
  rewrite list_lookup_middle by done. f_equal.
  specialize (IH (pre ++ [a])).
  rewrite length_app, Nat.add_1_r, <- app_assoc in IH. exact IH.
Qed.

(** A schedule that runs every goroutine once runs the diffs, in some
    order. *)
Lemma fair_schedule {A} (diffs : list A) (schedule : list nat) :
  schedule ≡ₚ seq 0 (length diffs) ->
  omap (fun i => diffs !! i) schedule ≡ₚ diffs /\
  length schedule = length diffs.
Proof.
  intros Hfair. split.
  - rewrite Hfair. pose proof (omap_lookup_seq [] diffs) as E.
    simpl in E. by rewrite E.
  - rewrite Hfair. apply length_seq.
Qed.

Lemma sends_app (l1 l2 : list Event) : sends (l1 ++ l2) = sends l1 ++ sends l2.
Proof. apply omap_app. Qed.

Lemma refreshes_app (l1 l2 : list Event) :
  refreshes (l1 ++ l2) = refreshes l1 ++ refreshes l2.
Proof. apply omap_app. Qed.

Lemma sends_runs (runs : list DiffRun) :
  Forall accounted runs ->
  sends (concat (runRecord <$> runs)) = runSent <$> runs.
Proof.
  induction 1 as [|r runs (Hr & _) _ IH]; [done|].
  rewrite !fmap_cons; simpl. by rewrite sends_app, Hr, IH.
Qed.

Lemma refreshes_none (l : list Event) :
  Forall (fun e => isRefresh e = false) l -> refreshes l = [].
Proof.
  unfold refreshes. induction 1 as [|e l He _ IH]; simpl; [done|].
  by destruct e.
Qed.

Lemma named_no_sentinel (printers : list Printer) :
  ~ In zeroPrinter (named printers).
Proof.
  unfold named. intros Hin. apply List.filter_In in Hin as (_ & Hin).
  by apply bool_decide_eq_true in Hin.
Qed.

(** A round that has diffs to apply and whose goroutines all run. *)
Lemma syncPrinters_round cfg schedule st cupsPrinters w diffs :
  cupsGetPrinters (world st) = (Success cupsPrinters, w) ->
  roundDiffs cfg cupsPrinters st = Some diffs ->
  schedule ≡ₚ seq 0 (length diffs) ->
  let run := syncPrinters cfg schedule st in
  exists runs,
    outcome run = Return None /\
    runDiff <$> runs ≡ₚ diffs /\
    Forall accounted runs /\
    record run =
      [EvGlog Info "Synchronizing printers, stand by"; EvGetPrinters true] ++
      concat (runRecord <$> runs) ++
      [EvRefresh (named (runSent <$> runs));
       EvGlog Info "Finished synchronizing %d printers"] /\
    gcpPrintersByGCPID (final run) =
      NewConcurrentPrinterMap (named (runSent <$> runs)).
Proof.
  intros Hlisted Hdiffs Hfair.
  destruct (fair_schedule diffs schedule Hfair) as (Hperm & Hlen).
  unfold outcome, final, record.
  destruct (syncPrinters cfg schedule st) as [[r st'] l] eqn:E.
  unfold syncPrinters in E. unfold_manager.
  rewrite Hlisted in E. simpl in E.
  change (roundDiffs cfg cupsPrinters (setWorld w st))
    with (roundDiffs cfg cupsPrinters st) in E.
  rewrite Hdiffs in E.
  destruct (applyDiffs_run cfg diffs schedule (makeChan (length diffs))
              (setWorld w st)) as (runs & A1 & A2 & A3 & A4).
  { simpl. lia. }
  destruct (applyDiffs cfg diffs schedule (makeChan (length diffs))
              (setWorld w st)) as [[r1 st1] l1].
  unfold outcome, record in A1, A2; simpl in A1, A2. subst r1 l1.
  simpl in E.
  assert (Hruns : length runs = length diffs).
  { rewrite <- (length_fmap runDiff runs), A4. by apply Permutation_length. }
  match type of E with
  | context [collectPrinters ?n ?ch ?cur ?s] =>
      pose proof (collectPrinters_run n ch cur s) as C1;
      pose proof (collectPrinters_frame n ch cur s) as (C2 & C3 & _);
      destruct (collectPrinters n ch cur s) as [[r2 st2] l2]
  end.
  unfold outcome, final, record in C1, C2, C3; simpl in C1, C2, C3.
  rewrite C1 in E by (rewrite length_fmap; lia). subst l2 st2.
  rewrite <- Hruns, <- (length_fmap runSent runs), firstn_all in E.
  simpl in E. simplify_eq.
  exists runs. rewrite A4. repeat split; auto.
Qed.

Lemma syncPrinters_frame cfg schedule st :
  let run := syncPrinters cfg schedule st in
  Forall roundEvent (record run) /\ outcome run <> Panic /\
  exists rest,
    record run = EvGlog Info "Synchronizing printers, stand by" :: rest.
Proof.
  unfold outcome, record.
  destruct (syncPrinters cfg schedule st) as [[r st'] l] eqn:E.
  unfold syncPrinters in E. unfold_manager.
  cases;
    repeat match goal with
    | E : applyDiffs ?c ?d ?s ?ch ?st = _ |- _ =>
        let F := fresh "F" in
        pose proof (applyDiffs_frame c d s ch st) as F; rewrite E in F;
        unfold outcome, record in F; simpl in F;
        destruct F as (? & ? & ?); clear E
    | E : collectPrinters ?n ?ch ?cur ?st = _ |- _ =>
        let F := fresh "F" in
        pose proof (collectPrinters_frame n ch cur st) as F; rewrite E in F;
        unfold outcome, final, record in F; simpl in F;
        destruct F as (? & ? & ?); clear E
    end; simplify_eq/=.
  all: (split; [|split; [done|by eexists]]).
  all: repeat first [rewrite Forall_cons | rewrite Forall_app
                    | rewrite Forall_nil]; simpl; repeat split; auto.
  all: eapply Forall_impl; [eassumption|];
    by intros e (? & _)%diffEvent_quiet.
Qed.

(** C5, as the code has it.  In a round that has diffs to apply, each
    diff is applied once, whatever becomes of the others, and the round
    returns without an error after one [Refresh], of the printers sent
    that have a name.  The run of a [Register] diff whose [GetPPD] or
    [Register] call fails, and of any [Delete] diff, sends the sentinel,
    which has no name and is left out; the run of an [Update] diff sends
    the printer that [Update] left in the diff, whether [Update] failed or
    not, so that this printer is kept.  Every failed call is logged as an
    error. *)
Theorem syncPrinters_failures cfg schedule st cupsPrinters w diffs :
  cupsGetPrinters (world st) = (Success cupsPrinters, w) ->
  roundDiffs cfg cupsPrinters st = Some diffs ->
  schedule ≡ₚ seq 0 (length diffs) ->
  let run := syncPrinters cfg schedule st in
  outcome run = Return None /\
  exists runs,
    runDiff <$> runs ≡ₚ diffs /\
    Forall (fun r => diffOutcome (runDiff r) (runRecord r) (runSent r)) runs /\
    (forall r e, In r runs -> In e (runRecord r) -> In e (record run)) /\
    refreshes (record run) = [named (runSent <$> runs)] /\
    ~ In zeroPrinter (named (runSent <$> runs)) /\
    gcpPrintersByGCPID (final run) =
      NewConcurrentPrinterMap (named (runSent <$> runs)).
Proof.
  intros Hlisted Hdiffs Hfair. simpl.
  destruct (syncPrinters_round cfg schedule st cupsPrinters w diffs
              Hlisted Hdiffs Hfair)
    as (runs & Hout & Hperm & Hacc & Hrec & Htable).
  split; [done|]. exists runs. repeat split; try done.
  - eapply Forall_impl; [exact Hacc|]. by intros r (_ & ? & _).
  - intros r e Hr He. rewrite Hrec.
    apply in_or_app. right. apply in_or_app. left.
    apply in_concat. exists (runRecord r). split; [|done].
    apply in_map_iff. by exists r.
  - rewrite Hrec, !refreshes_app. simpl.
    rewrite refreshes_none; [done|].
    apply Forall_concat, Forall_fmap.
    eapply Forall_impl; [exact Hacc|]. intros r (_ & _ & Hr). simpl.
    eapply Forall_impl; [exact Hr|]. by intros e (_ & ?)%diffEvent_quiet.
  - apply named_no_sentinel.
Qed.
End RoundClaims.
Section LoopClaims.
Context `{Adapters}.

(** C10. On a channel with room, [applyDiff] returns after sending
    exactly one printer: the one [Register] or [Update] left in the diff,
    the printer of the diff when nothing changed, or the sentinel after a
    failed [GetPPD] or [Register] and after any [Delete].  So, in a round
    that has diffs to apply and whose goroutines all run, there is one
    send for each diff, none of the receives waits for ever, and the
    round returns after its one [Refresh], which is given every printer
    sent that has a name, in the order sent: the loop has received one
    printer for each diff. *)
Theorem applyDiff_sends_once :
  (forall cfg diff ch st,
     (length (chanBuf ch) < chanCap ch)%nat ->
     let run := applyDiff cfg diff ch st in
     exists p,
       outcome run = Return (chanPush p ch) /\
       sends (record run) = [p] /\
       diffOutcome diff (record run) p) /\
  (forall cfg schedule st cupsPrinters w diffs,
     cupsGetPrinters (world st) = (Success cupsPrinters, w) ->
     roundDiffs cfg cupsPrinters st = Some diffs ->
     schedule ≡ₚ seq 0 (length diffs) ->
     let run := syncPrinters cfg schedule st in
     outcome run = Return None /\
     length (sends (record run)) = length diffs /\
     refreshes (record run) = [named (sends (record run))] /\
     gcpPrintersByGCPID (final run) =
       NewConcurrentPrinterMap (named (sends (record run)))).
Proof.
  split; [apply applyDiff_run|].
  intros cfg schedule st cupsPrinters w diffs Hlisted Hdiffs Hfair. simpl.
  destruct (syncPrinters_round cfg schedule st cupsPrinters w diffs
              Hlisted Hdiffs Hfair)
    as (runs & Hout & Hperm & Hacc & Hrec & Htable).
  split; [done|].
  assert (Hsends : sends (record (syncPrinters cfg schedule st)) =
                   runSent <$> runs).
  { rewrite Hrec, !sends_app, sends_runs by done. simpl.
    by rewrite app_nil_r. }
  rewrite Hsends. split; [|split; [|done]].
  - rewrite length_fmap, <- (length_fmap runDiff).
    by apply Permutation_length.
  - rewrite Hrec, !refreshes_app. simpl.
    rewrite refreshes_none; [done|].
    apply Forall_concat, Forall_fmap.
    eapply Forall_impl; [exact Hacc|]. intros r (_ & _ & Hr). simpl.
    eapply Forall_impl; [exact Hr|]. by intros e (_ & ?)%diffEvent_quiet.
Qed.

(** No turn of the loop ends it. *)
Lemma loopTurn_next cfg schedule ev st :
  outcome (loopTurn cfg schedule ev st) <> Return EndLoop.
Proof.
  unfold outcome.
  destruct (loopTurn cfg schedule ev st) as [[r st'] l] eqn:E.
  unfold loopTurn in E. unfold_manager.
  destruct ev; cases; simplify_eq/=; done.
Qed.

(** C2, against the code.  The loop that receives a quit request
    acknowledges it and takes its next turn: after the acknowledgement a
    tick still starts a reconciliation round. *)
Theorem quit_does_not_end_the_loop cfg schedule received st :
  let run :=
    syncPrintersPeriodically
      cfg ((QuitRequest, []) :: (Tick, schedule) :: received) st in
  exists rest,
    record run =
      EvQuitAck :: EvGlog Info "Synchronizing printers, stand by" :: rest.
Proof.
  simpl. unfold record, loopTurn.
  unfold bind at 1 2 3 4 5 6. unfold emit, ret. simpl.
  destruct (syncPrinters_frame cfg schedule st) as (_ & _ & rest & Hrest).
  destruct (syncPrinters cfg schedule st) as [[r st1] l1].
  unfold record in Hrest; simpl in Hrest. subst l1.
  destruct r; simpl; eauto.
  unfold bind, logError, glog, emit, ret.
  repeat (case_match; simplify_eq/=); eauto.
Qed.
End LoopClaims.
Section ConstructorClaims.
Context `{Adapters}.

Lemma leastFrom_spec (xs : list Z) (c : Z) :
  (leastFrom c xs <= c)%Z /\
  (forall x, In x xs -> (leastFrom c xs <= x)%Z) /\
  (leastFrom c xs = c \/ In (leastFrom c xs) xs).
Proof.
  unfold leastFrom. revert c.
  induction xs as [|x xs IH]; intros c; simpl.
  { split; [lia|]. split; [by intros ? []|by left]. }
  destruct (IH (if (x <? c)%Z then x else c)) as (I1 & I2 & I3).
  destruct (Z.ltb_spec x c) as [Hlt|Hge].
  - split; [lia|]. split.
    + intros y [<-|Hy]; [lia|by apply I2].
    + destruct I3 as [->|I3]; right; auto.
  - split; [lia|]. split.
    + intros y [<-|Hy]; [lia|by apply I2].
    + destruct I3 as [->|I3]; auto.
Qed.

Lemma leastFrom_Permutation (xs ys : list Z) (c : Z) :
  xs ≡ₚ ys -> leastFrom c xs = leastFrom c ys.
Proof.
  intros Hperm.
  destruct (leastFrom_spec xs c) as (X1 & X2 & X3).
  destruct (leastFrom_spec ys c) as (Y1 & Y2 & Y3).
  assert (Hin : forall x, In x xs <-> In x ys).
  { intros x. rewrite <- !list_elem_of_In. by rewrite Hperm. }
  apply Z.le_antisymm.
  - destruct Y3 as [->|Y3]; [done|]. apply X2. by apply Hin.
  - destruct X3 as [->|X3]; [done|]. apply Y2. by apply Hin.
Qed.

Lemma connectorXMPPPingInterval_least (printers : list Printer) :
  connectorXMPPPingInterval printers =
  leastFrom MaxInt64 (XMPPPingInterval <$> printers).
Proof.
  unfold connectorXMPPPingInterval, leastFrom.
  generalize MaxInt64. induction printers as [|p printers IH]; intros c;
    simpl; [done|]. apply IH.
Qed.

(** The table made of printers with distinct identifiers holds them
    all. *)
Lemma NewConcurrentPrinterMap_all_from (printers : list Printer)
    (m : gmap string Printer) :
  NoDup (GCPID <$> printers) ->
  (forall p, p ∈ printers -> m !! GCPID p = None) ->
  map_to_list (foldl (fun m p => <[GCPID p := p]> m) m printers) ≡ₚ
  map_to_list m ++ ((fun p => (GCPID p, p)) <$> printers).
Proof.
  revert m. induction printers as [|p printers IH]; intros m Hnd Hfresh;
    simpl.
  { by rewrite app_nil_r. }
  rewrite fmap_cons in Hnd. apply NoDup_cons in Hnd as (Hp & Hnd).
  rewrite IH; [|done|].
  - rewrite map_to_list_insert by (apply Hfresh; by left).
    simpl. apply Permutation_middle.
  - intros q Hq. rewrite lookup_insert_ne; [apply Hfresh; by right|].
    intros Heq. apply Hp. rewrite Heq. by apply list_elem_of_fmap_2.
Qed.

Lemma GetAll_NewConcurrentPrinterMap (printers : list Printer) :
  NoDup (GCPID <$> printers) ->
  GetAll (NewConcurrentPrinterMap printers) ≡ₚ printers.
Proof.
  intros Hnd. unfold GetAll, NewConcurrentPrinterMap.
  rewrite NewConcurrentPrinterMap_all_from by done.
  rewrite map_to_list_empty; simpl.
  clear Hnd. induction printers as [|p printers IH]; [done|].
  rewrite !fmap_cons; simpl. by rewrite IH.
Qed.

Lemma attachSemaphores_run cupsQueueSize printers st :
  let run := attachSemaphores cupsQueueSize printers st in
  exists attached,
    outcome run = Return attached /\
    record run = [] /\
    GCPID <$> attached = GCPID <$> printers /\
    XMPPPingInterval <$> attached = XMPPPingInterval <$> printers.
Proof.
  revert st. induction printers as [|p printers IH]; intros st; simpl.
  { by exists []. }
  unfold bind, call, ret.
  destruct (libNewSemaphore cupsQueueSize (world st)) as [s w].
  destruct (IH (setWorld w st)) as (attached & I1 & I2 & I3 & I4).
  destruct (attachSemaphores cupsQueueSize printers (setWorld w st))
    as [[r st1] l1].
  unfold outcome, record in *; simpl in *. subst r l1.
  exists (withSemaphore p s :: attached).
  rewrite !fmap_cons, I3, I4. done.
Qed.

Lemma updatePingIntervals_frame changes st :
  let run := updatePingIntervals changes st in
  gcpPrintersByGCPID (final run) = gcpPrintersByGCPID st /\
  Forall (fun e => isSetConnector e = false) (record run) /\
  exists err, outcome run = Return err.
Proof.
  revert st. induction changes as [|gcpID changes IH]; intros st; simpl.
  { split; [done|]. split; [constructor|by eexists]. }
  unfold_manager.
  destruct (gcpPrintersByGCPID st !! gcpID) as [p|]; simpl.
  - destruct (gcpSetPrinterXMPPPingInterval p (world st)) as [[err|] w];
      simpl.
    + split; [done|]. split; [repeat constructor|by eexists].
    + destruct (IH (setWorld w st)) as (I1 & I2 & err & I3).
      destruct (updatePingIntervals changes (setWorld w st))
        as [[r st1] l1].
      unfold outcome, final, record in *; simpl in *. subst r.
      split; [done|]. split; [by repeat constructor|by eexists].
  - destruct (IH st) as (I1 & I2 & err & I3).
    destruct (updatePingIntervals changes st) as [[r st1] l1].
    unfold outcome, final, record in *; simpl in *. subst r.
    split; [done|]. split; [by repeat constructor|by eexists].
Qed.

Lemma NewConcurrentPrinterMap_lookup (printers : list Printer)
    (gcpID : string) (p : Printer) :
  NewConcurrentPrinterMap printers !! gcpID = Some p ->
  In p printers /\ GCPID p = gcpID.
Proof.
  unfold NewConcurrentPrinterMap.
  assert (Hgen : forall m : gmap string Printer,
            foldl (fun m p => <[GCPID p := p]> m) m printers !! gcpID = Some p ->
            (In p printers /\ GCPID p = gcpID) \/ m !! gcpID = Some p).
  { induction printers as [|q printers IH]; intros m Hm; simpl in *; [auto|].
    destruct (IH _ Hm) as [(? & ?)|Hq]; [auto|].
    rewrite lookup_insert in Hq. case_decide; simplify_eq; auto. }
  intros Hp. destruct (Hgen ∅ Hp) as [?|Hempty]; [done|].
  by rewrite lookup_empty in Hempty.
Qed.

(** The table holds a printer for every identifier listed. *)
Lemma NewConcurrentPrinterMap_has (printers : list Printer) (p : Printer) :
  In p printers -> is_Some (NewConcurrentPrinterMap printers !! GCPID p).
Proof.
  unfold NewConcurrentPrinterMap.
  assert (Hgen : forall m : gmap string Printer,
            In p printers \/ is_Some (m !! GCPID p) ->
            is_Some (foldl (fun m p => <[GCPID p := p]> m) m printers
                       !! GCPID p)).
  { induction printers as [|q printers IH]; intros m Hm; simpl in *.
    { by destruct Hm. }
    apply IH. destruct Hm as [[->|Hp]|Hm]; auto.
    - right. by rewrite lookup_insert_eq.
    - right. rewrite lookup_insert. case_decide; [by eexists|done]. }
  intros Hp. apply Hgen. by left.
Qed.

Lemma In_GetAll (m : gmap string Printer) (p : Printer) :
  In p (GetAll m) <-> exists gcpID, m !! gcpID = Some p.
Proof.
  unfold GetAll. rewrite <- list_elem_of_In, list_elem_of_fmap. split.
  - intros ([gcpID q] & -> & Hq). exists gcpID.
    by apply elem_of_map_to_list in Hq.
  - intros (gcpID & Hp). exists (gcpID, p). split; [done|].
    by apply elem_of_map_to_list.
Qed.

(** The table of the printers with their semaphores holds the intervals
    that the table of the printers listed holds. *)
Lemma NewConcurrentPrinterMap_intervals (attached printers : list Printer) :
  GCPID <$> attached = GCPID <$> printers ->
  XMPPPingInterval <$> attached = XMPPPingInterval <$> printers ->
  XMPPPingInterval <$> GetAll (NewConcurrentPrinterMap attached) ≡ₚ
  XMPPPingInterval <$> GetAll (NewConcurrentPrinterMap printers).
Proof.
  intros Hid Hint.
  assert (Hmap : (XMPPPingInterval <$> NewConcurrentPrinterMap attached
                    : gmap string Z) =
                 XMPPPingInterval <$> NewConcurrentPrinterMap printers).
  { unfold NewConcurrentPrinterMap.
    assert (Hgen : forall m' m : gmap string Printer,
              (XMPPPingInterval <$> m' : gmap string Z) =
                XMPPPingInterval <$> m ->
              (XMPPPingInterval <$>
                 foldl (fun m p => <[GCPID p := p]> m) m' attached
                 : gmap string Z) =
              XMPPPingInterval <$>
                foldl (fun m p => <[GCPID p := p]> m) m printers).
    { revert attached Hid Hint.
      induction printers as [|p printers IH]; intros [|q attached] Hid Hint;
        try done.
      rewrite !fmap_cons in Hid. rewrite !fmap_cons in Hint.
      injection Hid as Hq Hid. injection Hint as Hi Hint.
      intros m' m Hm. simpl. apply IH; [done..|].
      rewrite !fmap_insert. congruence. }
    by apply Hgen. }
  assert (Hall : forall m : gmap string Printer,
            XMPPPingInterval <$> GetAll m ≡ₚ
            (map_to_list (XMPPPingInterval <$> m : gmap string Z)).*2).
  { intros m. unfold GetAll. rewrite map_to_list_fmap.
    assert (Heq : forall l : list (string * Printer),
              XMPPPingInterval <$> l.*2 =
              (prod_map id XMPPPingInterval <$> l).*2).
    { induction l as [|[gcpID p] l IH]; [done|].
      rewrite !fmap_cons. simpl. by f_equal. }
    by rewrite Heq. }
  by rewrite !Hall, Hmap.
Qed.

(** C7, as the code has it.  The constructor, when [List] has answered:
    the interval it sets on the cloud adapter is the least of the intervals
    of the printers of the table made of the printers listed, which holds
    one printer for each identifier listed, each of them a printer listed.
    So it is at most the interval of every printer listed when their
    identifiers are distinct; it is [math.MaxInt64], which stands for no
    bound, when none is listed; and it is the interval of a printer of the
    table otherwise.  A constructor that returns a manager has set it. *)
Theorem NewPrinterManager_pingInterval
    printerPollInterval gcpMaxConcurrentDownload queueSize
    fullUsername ignoreRaw scope schedule st listing w :
  gcpList (world st) = (Success listing, w) ->
  Forall (fun p => isInt64 (XMPPPingInterval p)) (listPrinters listing) ->
  let run :=
    NewPrinterManager printerPollInterval gcpMaxConcurrentDownload
      queueSize fullUsername ignoreRaw scope schedule st in
  let table := GetAll (NewConcurrentPrinterMap (listPrinters listing)) in
  (forall d, In (EvSetConnectorXMPPPingInterval d) (record run) ->
     (forall p, In p table -> (d <= XMPPPingInterval p)%Z) /\
     (listPrinters listing = [] -> d = MaxInt64) /\
     (listPrinters listing <> [] ->
      exists p, In p table /\ d = XMPPPingInterval p) /\
     (NoDup (GCPID <$> listPrinters listing) ->
      forall p, In p (listPrinters listing) -> (d <= XMPPPingInterval p)%Z)) /\
  (forall p, In p table -> In p (listPrinters listing)) /\
  (forall p, In p (listPrinters listing) ->
     exists q, In q table /\ GCPID q = GCPID p) /\
  (forall cfg, outcome run = Return (Success cfg) ->
     exists d, In (EvSetConnectorXMPPPingInterval d) (record run)).
Proof.
  intros Hlist Hint. cbv zeta.
  set (table := GetAll (NewConcurrentPrinterMap (listPrinters listing))).
  assert (Hsub : forall p, In p table -> In p (listPrinters listing)).
  { intros p (gcpID & Hp)%In_GetAll.
    by apply NewConcurrentPrinterMap_lookup in Hp as (? & _). }
  assert (Hhas : forall p, In p (listPrinters listing) ->
                           exists q, In q table /\ GCPID q = GCPID p).
  { intros p Hp.
    destruct (NewConcurrentPrinterMap_has _ _ Hp) as (q & Hq).
    exists q. split; [apply In_GetAll; by eexists|].
    by apply NewConcurrentPrinterMap_lookup in Hq as (_ & ?). }
  unfold outcome, record.
  destruct (NewPrinterManager _ _ _ _ _ _ _ st) as [[r st'] l] eqn:E.
  unfold NewPrinterManager in E. unfold_manager.
  rewrite Hlist in E. simpl in E.
  destruct (attachSemaphores_run queueSize (listPrinters listing)
              (setWorld w st)) as (attached & A1 & A2 & A3 & A4).
  destruct (attachSemaphores queueSize (listPrinters listing)
              (setWorld w st)) as [[r1 st1] l1].
  unfold outcome, record in A1, A2; simpl in A1, A2. subst r1 l1.
  simpl in E.
  match type of E with
  | context [updatePingIntervals ?c ?s] =>
      destruct (updatePingIntervals_frame c s) as (U1 & U2 & err & U3);
      destruct (updatePingIntervals c s) as [[r2 st2] l2]
  end.
  unfold outcome, final, record in U1, U2, U3; simpl in U1, U2, U3.
  subst r2. simpl in E.
  remember (connectorXMPPPingInterval (GetAll (gcpPrintersByGCPID st2)))
    as d0 eqn:Ed0.
  assert (Hd0 : d0 = leastFrom MaxInt64 (XMPPPingInterval <$> table)).
  { rewrite Ed0, U1, connectorXMPPPingInterval_least.
    apply leastFrom_Permutation.
    by apply NewConcurrentPrinterMap_intervals. }
  destruct (leastFrom_spec (XMPPPingInterval <$> table) MaxInt64)
    as (L1 & L2 & L3).
  rewrite <- Hd0 in L1, L2, L3.
  assert (Hprops :
    (forall p, In p table -> (d0 <= XMPPPingInterval p)%Z) /\
    (listPrinters listing = [] -> d0 = MaxInt64) /\
    (listPrinters listing <> [] ->
     exists p, In p table /\ d0 = XMPPPingInterval p) /\
    (NoDup (GCPID <$> listPrinters listing) ->
     forall p, In p (listPrinters listing) -> (d0 <= XMPPPingInterval p)%Z)).
  { assert (Hle : forall p, In p table -> (d0 <= XMPPPingInterval p)%Z).
    { intros p Hp. apply L2. apply in_map_iff. by exists p. }
    split; [done|]. split; [|split].
    - intros Hnil. destruct L3 as [L3|L3]; [done|].
      apply in_map_iff in L3 as (p & _ & Hp).
      apply Hsub in Hp. rewrite Hnil in Hp. done.
    - intros Hne. destruct L3 as [L3|L3].
      + destruct (listPrinters listing) as [|p printers] eqn:Eps; [done|].
        destruct (Hhas p) as (q & Hq & _); [by left|].
        exists q. split; [done|].
        assert (Hq' := Hsub q Hq).
        rewrite Forall_forall in Hint.
        apply list_elem_of_In, Hint in Hq' as (_ & Hq').
        specialize (Hle q Hq). lia.
      + apply in_map_iff in L3 as (p & <- & Hp). by exists p.
    - intros Hnd p Hp. apply Hle.
      apply list_elem_of_In. unfold table.
      rewrite (GetAll_NewConcurrentPrinterMap _ Hnd).
      by apply list_elem_of_In. }
  clear L1 L2 L3 Hd0.
  split; [|split; [done|split; [done|]]].
  2: { destruct err as [err|]; simpl in E; [by simplify_eq|].
       destruct (libNewSemaphore gcpMaxConcurrentDownload _) as [sem w'].
       simpl in E.
       match type of E with
       | context [syncPrinters ?c ?s ?t] =>
           destruct (syncPrinters c s t) as [[r3 st3] l3]
       end.
       cases; intros; try done; eexists; rewrite ?in_app_iff; simpl; eauto 10. }
  assert (Hupd : forall d, ~ In (EvSetConnectorXMPPPingInterval d) l2).
  { intros d Hin. rewrite Forall_forall in U2.
    by apply list_elem_of_In, U2 in Hin. }
  destruct err as [err|]; simpl in E.
  { simplify_eq. intros d Hin.
    repeat first [destruct Hin as [Hin|Hin] | rewrite in_app_iff in Hin
                 | progress simpl in Hin];
      try discriminate Hin; try contradiction.
    exfalso. eapply Hupd; eassumption. }
  destruct (libNewSemaphore gcpMaxConcurrentDownload _) as [sem w'].
  simpl in E.
  match type of E with
  | context [syncPrinters ?c ?s ?t] =>
      destruct (syncPrinters_frame c s t) as (S1 & _ & _);
      destruct (syncPrinters c s t) as [[r3 st3] l3]
  end.
  unfold record in S1; simpl in S1.
  assert (Hsync : forall d, ~ In (EvSetConnectorXMPPPingInterval d) l3).
  { intros d Hin. rewrite Forall_forall in S1.
    by apply list_elem_of_In, S1, roundEvent_quiet in Hin as (? & _). }
  cases.
  all: intros d Hin;
    repeat first [destruct Hin as [Hin|Hin] | rewrite in_app_iff in Hin
                 | progress simpl in Hin];
    try discriminate Hin; try contradiction.
  all: try (exfalso; eapply Hsync; eassumption).
  all: try (exfalso; eapply Hupd; eassumption).
  all: injection Hin as Hd; subst d; exact Hprops.
Qed.
End ConstructorClaims.
Section ScriptedRuns.
Import Scripted.

Ltac in_record := vm_compute; repeat (first [left; reflexivity | right]).

(** A job that prints: it is submitted under the title made of its
    identifier and its title. *)
Lemma processJob_title_witness :
  In (EvPrint "printer-A" "/tmp/cups-connector-1" "gcp:J1 Quarterly report"
              "alice" ∅ (Some 7%N))
     (record (processJob 5 (config false) job1 (manager (script [] threePolls)))) /\
  ("gcp:J1 Quarterly report" =
     String.substring 0 255 ("gcp:" +:+ GCPJobID job1 +:+ " " +:+ Title job1) /\
   (String.length "gcp:J1 Quarterly report" <= 255)%nat).
Proof.
  split; [in_record|].
  apply (processJob_title 5 (config false) job1 (manager (script [] threePolls))
           "printer-A" "/tmp/cups-connector-1" "gcp:J1 Quarterly report"
           "alice" ∅ (Some 7%N)).
  in_record.
Defined.

(** The same job: its owner is submitted without the domain. *)
Lemma processJob_owner_witness :
  In (EvPrint "printer-A" "/tmp/cups-connector-1" "gcp:J1 Quarterly report"
              "alice" ∅ (Some 7%N))
     (record (processJob 5 (config false) job1 (manager (script [] threePolls)))) /\
  (if jobFullUsername (config false) then "alice" = OwnerID job1
   else ~ In "@"%char (list_ascii_of_string "alice") /\
        (OwnerID job1 = "alice" \/
         exists rest, OwnerID job1 = "alice" +:+ String "@" rest)).
Proof.
  split; [in_record|].
  apply (processJob_owner 5 (config false) job1 (manager (script [] threePolls))
           "printer-A" "/tmp/cups-connector-1" "gcp:J1 Quarterly report"
           "alice" ∅ (Some 7%N)).
  in_record.
Defined.

(** The same job, followed to its end: its file is gone. *)
Lemma processJob_tempFile_witness :
  ended (outcome (processJob 5 (config false) job1
                    (manager (script [] threePolls)))) = true /\
  In (EvCreateTempFile (Some "/tmp/cups-connector-1"))
     (record (processJob 5 (config false) job1 (manager (script [] threePolls)))) /\
  ("/tmp/cups-connector-1" ∉
     tempFiles (final (processJob 5 (config false) job1
                         (manager (script [] threePolls))))) /\
  In (EvRemove "/tmp/cups-connector-1")
     (record (processJob 5 (config false) job1 (manager (script [] threePolls)))).
Proof.
  split; [reflexivity|]. split; [in_record|].
  apply (processJob_tempFile 5 (config false) job1
           (manager (script [] threePolls)) "/tmp/cups-connector-1");
    [reflexivity|in_record].
Defined.

(** A job whose download fails: one [Control] call, for a print
    failure, one more job in error and no [Print] call. *)
Lemma processJob_failure_witness :
  failedStep (record (processJob 5 (config false) job1
                        (manager (script ["Download"] threePolls)))) =
    Some DownloadFailed /\
  controls (record (processJob 5 (config false) job1
                      (manager (script ["Download"] threePolls)))) =
    [("J1", GCPJobAborted, GCPJobPrintFailure, 0%N)] /\
  jobsError (final (processJob 5 (config false) job1
                      (manager (script ["Download"] threePolls)))) = 1%N /\
  prints (record (processJob 5 (config false) job1
                    (manager (script ["Download"] threePolls)))) = [].
Proof.
  split; [reflexivity|].
  destruct (processJob_failure 5 (config false) job1
              (manager (script ["Download"] threePolls)) DownloadFailed)
    as (_ & Hcontrols & Herror & _ & Hprints); [reflexivity|].
  split; [exact Hcontrols|]. split; [exact Herror|].
  by apply nil_length_inv.
Defined.

(** C3, as stated, fails on a job whose submission fails: the step that
    failed comes before the follow phase, and [Print] was called. *)
Lemma processJob_submit_failure_calls_Print :
  failedStep (record (processJob 5 (config false) job1
                        (manager (script ["Print"] threePolls)))) =
    Some SubmitFailed /\
  prints (record (processJob 5 (config false) job1
                    (manager (script ["Print"] threePolls)))) =
    [EvPrint "printer-A" "/tmp/cups-connector-1" "gcp:J1 Quarterly report"
             "alice" ∅ None].
Proof. split; reflexivity. Qed.


(** The three polls of the job: three reports, with no, three and seven
    pages, and one more job done. *)
Example followJob_three_polls :
  controls (record (followJob 5 job1 7%N (manager (script [] threePolls)))) =
    [("J1", InProgress, 100%Z, 0%N); ("J1", InProgress, 100%Z, 3%N);
     ("J1", Done, 100%Z, 7%N)] /\
  outcome (followJob 5 job1 7%N (manager (script [] threePolls))) = Return tt /\
  jobsDone (final (followJob 5 job1 7%N (manager (script [] threePolls)))) = 1%N.
Proof. repeat split; vm_compute; reflexivity. Qed.

(** A job delivered while it is in flight is dropped. *)
Example processJob_twice :
  processJob 5 (config false) job1
    (setJobsInFlight {[ "J1" := true ]} (manager (script [] threePolls))) =
  (Return tt,
   setJobsInFlight {[ "J1" := true ]} (manager (script [] threePolls)), []).
Proof. by apply processJob_duplicate. Qed.

(** The constructor in a world whose cloud lists two printers, with
    intervals of two minutes and of one: it sets one minute. *)
Lemma NewPrinterManager_pingInterval_witness :
  In (EvSetConnectorXMPPPingInterval 60000000000)
     (record (NewPrinterManager "1m" 4%N 2%N false false "team@example.com"
                [1; 0]%nat (manager (script [] [])))) /\
  (forall p, In p [printerA; printerB] ->
             (60000000000 <= XMPPPingInterval p)%Z) /\
  exists p, In p [printerA; printerB] /\ 60000000000 = XMPPPingInterval p.
Proof.
  split; [in_record|].
  destruct (NewPrinterManager_pingInterval
              "1m" 4%N 2%N false false "team@example.com" [1; 0]%nat
              (manager (script [] [])) (cloudListing (script [] []))
              (script [] [])) as (Hset & Hsub & _).
  - reflexivity.
  - repeat constructor; vm_compute; discriminate.
  - destruct (Hset 60000000000) as (_ & _ & Hsome & Hleast); [in_record|].
    split.
    + apply Hleast.
      apply NoDup_ListNoDup. repeat constructor; simpl; intuition discriminate.
    + destruct Hsome as (p & Hp & Hd); [discriminate|].
      exists p. split; [by apply Hsub|done].
Defined.

(** C7, as stated, fails where [List] gives two printers under one
    identifier, with intervals of ten seconds and of twenty: the table
    holds the second only, and twenty seconds is the interval set. *)
Lemma NewPrinterManager_twins_not_least :
  gcpList (world (manager ScriptedTwins.twinsScript)) =
    (Success (cloudListing ScriptedTwins.twinsScript), ScriptedTwins.twinsScript) /\
  listPrinters (cloudListing ScriptedTwins.twinsScript) = [ScriptedTwins.twinA; ScriptedTwins.twinB] /\
  XMPPPingInterval ScriptedTwins.twinA = 10000000000 /\
  XMPPPingInterval ScriptedTwins.twinB = 20000000000 /\
  In (EvSetConnectorXMPPPingInterval 20000000000)
     (record (NewPrinterManager "1m" 4%N 2%N false false "team@example.com"
                [] (manager ScriptedTwins.twinsScript))).
Proof.
  split; [reflexivity|]. split; [reflexivity|].
  split; [reflexivity|]. split; [reflexivity|]. in_record.
Qed.
End ScriptedRuns.
Section DraftedRuns.
Import Drafted.

End DraftedRuns.
Section ScriptedRounds.
Import Scripted.

Ltac in_record := vm_compute; repeat (first [left; reflexivity | right]).

(** C5, as stated, fails on a round in which [Update] fails: the failure
    is logged, and the printer is among those given to [Refresh]. *)
Lemma syncPrinters_keeps_failed_update :
  roundDiffs (config false) (spoolerPrinters (roundScript ["Update"]))
             (managerAB (roundScript ["Update"])) =
    Some [ {| Operation := UpdatePrinter;
              DiffPrinter := withInterval printerA 30000000000 |};
           {| Operation := RegisterPrinter; DiffPrinter := printerC |};
           {| Operation := DeletePrinter; DiffPrinter := printerB |} ] /\
  In (EvUpdate "printer-A" (withInterval printerA 30000000000) false)
     (record (syncPrinters (config false) [2; 0; 1]%nat
                (managerAB (roundScript ["Update"])))) /\
  In (EvGlog Error "Failed to update a printer: %s")
     (record (syncPrinters (config false) [2; 0; 1]%nat
                (managerAB (roundScript ["Update"])))) /\
  refreshes (record (syncPrinters (config false) [2; 0; 1]%nat
                       (managerAB (roundScript ["Update"])))) =
    [[withInterval printerA 30000000000;
      withSemaphore (registered printerC) 3%N]].
Proof.
  split; [vm_compute; reflexivity|].
  split; [in_record|]. split; [in_record|]. vm_compute; reflexivity.
Qed.

(** A round in which [Register] fails: the printer that was not
    registered is left out, the round goes on and refreshes the table
    with the other. *)
Lemma syncPrinters_failures_witness :
  outcome (syncPrinters (config false) [0; 1; 2]%nat
             (managerAB (roundScript ["Register"]))) = Return None /\
  refreshes (record (syncPrinters (config false) [0; 1; 2]%nat
                       (managerAB (roundScript ["Register"])))) =
    [[withInterval printerA 30000000000]].
Proof.
  destruct (syncPrinters_failures (config false) [0; 1; 2]%nat
              (managerAB (roundScript ["Register"]))
              (spoolerPrinters (roundScript ["Register"]))
              (roundScript ["Register"])
              [ {| Operation := UpdatePrinter;
                   DiffPrinter := withInterval printerA 30000000000 |};
                {| Operation := RegisterPrinter; DiffPrinter := printerC |};
                {| Operation := DeletePrinter; DiffPrinter := printerB |} ])
    as (Hreturns & _).
  - reflexivity.
  - vm_compute; reflexivity.
  - reflexivity.
  - split; [exact Hreturns|]. vm_compute; reflexivity.
Defined.

(** The same round: three diffs, three sends and one [Refresh], of the
    printers sent that have a name. *)
Lemma applyDiff_sends_once_witness :
  outcome (syncPrinters (config false) [0; 1; 2]%nat
             (managerAB (roundScript ["Register"]))) = Return None /\
  length (sends (record (syncPrinters (config false) [0; 1; 2]%nat
                           (managerAB (roundScript ["Register"]))))) = 3%nat /\
  refreshes (record (syncPrinters (config false) [0; 1; 2]%nat
                       (managerAB (roundScript ["Register"])))) =
    [named (sends (record (syncPrinters (config false) [0; 1; 2]%nat
                             (managerAB (roundScript ["Register"])))))] /\
  gcpPrintersByGCPID (final (syncPrinters (config false) [0; 1; 2]%nat
                               (managerAB (roundScript ["Register"])))) =
    NewConcurrentPrinterMap
      (named (sends (record (syncPrinters (config false) [0; 1; 2]%nat
                               (managerAB (roundScript ["Register"])))))).
Proof.
  apply (proj2 applyDiff_sends_once (config false) [0; 1; 2]%nat
           (managerAB (roundScript ["Register"]))
           (spoolerPrinters (roundScript ["Register"]))
           (roundScript ["Register"])
           [ {| Operation := UpdatePrinter;
                DiffPrinter := withInterval printerA 30000000000 |};
             {| Operation := RegisterPrinter; DiffPrinter := printerC |};
             {| Operation := DeletePrinter; DiffPrinter := printerB |} ]).
  - reflexivity.
  - vm_compute; reflexivity.
  - reflexivity.
Defined.

(** The loop that is asked to quit and then receives a tick: it
    acknowledges, runs the round of the tick and waits for more. *)
Example quit_then_tick :
  record (syncPrintersPeriodically (config false)
            [(QuitRequest, []); (Tick, [])] (manager (script [] []))) =
    [EvQuitAck; EvGlog Info "Synchronizing printers, stand by";
     EvGetPrinters true;
     EvGlog Info "Printers are already in sync; there are %d";
     EvTimerReset] /\
  outcome (syncPrintersPeriodically (config false)
             [(QuitRequest, []); (Tick, [])] (manager (script [] []))) =
    Pending.
Proof. split; vm_compute; reflexivity. Qed.
End ScriptedRounds.
(** ** More about the job processor *)

Section RecordFacts.
Context `{Adapters}.

Lemma acquires_app (l1 l2 : list Event) :
  acquires (l1 ++ l2) = acquires l1 ++ acquires l2.
Proof. apply omap_app. Qed.

Lemma releases_app (l1 l2 : list Event) :
  releases (l1 ++ l2) = releases l1 ++ releases l2.
Proof. apply omap_app. Qed.

Lemma polls_app (l1 l2 : list Event) :
  polls (l1 ++ l2) = polls l1 ++ polls l2.
Proof. apply omap_app. Qed.

Lemma goroutines_app (l1 l2 : list Event) :
  goroutines (l1 ++ l2) = goroutines l1 ++ goroutines l2.
Proof. apply omap_app. Qed.

Lemma pingUpdates_app (l1 l2 : list Event) :
  pingUpdates (l1 ++ l2) = pingUpdates l1 ++ pingUpdates l2.
Proof. apply omap_app. Qed.

(** The records of [followJob] have no semaphore and no [Print] in
    them. *)
Lemma follow_events (l : list Event) :
  Forall followEvent l ->
  acquires l = [] /\ releases l = [] /\ prints l = [] /\
  forall printer file title owner options cupsJobID,
    ~ In (EvPrint printer file title owner options cupsJobID) l.
Proof.
  induction 1 as [|e l He _ (I1 & I2 & I3 & I4)]; [by repeat split; auto|].
  destruct e; simpl in He; try done; simpl.
  all: repeat split; auto.
  all: intros ? ? ? ? ? ? [Hin|Hin]; [discriminate|by eapply I4].
Qed.

Lemma counted_after (st st1 st2 : State) :
  notCounted st st1 -> countedOnce st1 st2 -> countedOnce st st2.
Proof. unfold notCounted, countedOnce. intros (-> & ->). done. Qed.

Lemma notCounted_trans (st st1 st2 : State) :
  notCounted st st1 -> notCounted st1 st2 -> notCounted st st2.
Proof. unfold notCounted. intros (<- & <-). done. Qed.

Lemma controlsFor_app (id : string) (l1 l2 : list Event) :
  controlsFor id (l1 ++ l2) <-> controlsFor id l1 /\ controlsFor id l2.
Proof. unfold controlsFor. rewrite controls_app. apply Forall_app. Qed.
End RecordFacts.

Section FollowFacts.
Context `{Adapters}.

(** One turn of the loop of [followJob]: one poll, at most one report,
    and the job counted exactly when the turn ends the loop. *)
Lemma followTick_account job cupsJobID v st :
  let run := followTick job cupsJobID v st in
  polls (record run) = [cupsJobID] /\
  (length (controls (record run)) <= 1)%nat /\
  controlsFor (GCPJobID job) (record run) /\
  match outcome run with
  | Return None => countedOnce st (final run)
  | Return (Some _) => notCounted st (final run)
  | _ => False
  end.
Proof.
  unfold outcome, final, record, controlsFor, countedOnce, notCounted.
  destruct (followTick job cupsJobID v st) as [[r st'] l] eqn:E.
  unfold followTick in E. unfold_manager.
  cases; simpl; repeat split; auto; repeat constructor.
Qed.

Lemma followLoop_account ticks job cupsJobID v st :
  let run := followLoop ticks job cupsJobID v st in
  Forall (fun id => id = cupsJobID) (polls (record run)) /\
  (length (polls (record run)) <= ticks)%nat /\
  (length (controls (record run)) <= length (polls (record run)))%nat /\
  controlsFor (GCPJobID job) (record run) /\
  match outcome run with
  | Return _ => countedOnce st (final run)
  | Pending => notCounted st (final run) /\
               length (polls (record run)) = ticks
  | Panic => False
  end.
Proof.
  revert v st. induction ticks as [|ticks IH]; intros v st; simpl.
  { unfold controlsFor, notCounted. repeat split; auto. }
  unfold bind.
  pose proof (followTick_account job cupsJobID v st) as F. simpl in F.
  destruct (followTick job cupsJobID v st) as [[r st1] l1].
  unfold outcome, final, record in F; simpl in F.
  destruct F as (F1 & F2 & F3 & F4).
  destruct r as [[v'|]| |]; try done.
  - specialize (IH v' st1).
    destruct (followLoop ticks job cupsJobID v' st1) as [[r2 st2] l2].
    unfold outcome, final, record in *; simpl in *.
    destruct IH as (I1 & I2 & I3 & I4 & I5).
    rewrite polls_app, controls_app, !length_app, F1. simpl.
    split; [by constructor|]. split; [lia|]. split; [lia|].
    split; [apply controlsFor_app; by split|].
    destruct r2; try done.
    + by apply (counted_after st st1).
    + destruct I5 as (I5 & I6). split; [by apply (notCounted_trans st st1)|lia].
  - unfold ret, outcome, final, record; simpl.
    rewrite app_nil_r, F1. simpl.
    split; [by repeat constructor|]. split; [lia|]. split; [lia|]. done.
Qed.
End FollowFacts.

Section ProcessJobAccount.
Context `{Adapters}.

Lemma followJob_account ticks job cupsJobID st :
  let run := followJob ticks job cupsJobID st in
  (untouched st (final run) /\ Forall followEvent (record run)) /\
  controlsFor (GCPJobID job) (record run) /\
  match outcome run with
  | Return _ => countedOnce st (final run)
  | Pending => notCounted st (final run)
  | Panic => False
  end.
Proof.
  simpl.
  destruct (followJob_frame ticks job cupsJobID st) as (F1 & F2 & F3).
  destruct (followLoop_account ticks job cupsJobID followStart st)
    as (_ & _ & _ & A1 & A2).
  unfold followJob in *.
  split; [done|]. split; [done|].
  destruct (outcome (followLoop ticks job cupsJobID followStart st));
    tauto.
Qed.

Ltac use_follow_account :=
  match goal with
  | E : followJob ?t ?j ?n ?s = _ |- _ =>
      let F := fresh "F" in
      pose proof (followJob_account t j n s) as F; rewrite E in F;
      unfold outcome, final, record, untouched in F; simpl in F;
      destruct F as (((? & ? & ?) & (? & ? & ? & ?)%follow_events) & ? & ?);
      clear E
  end.

(** [submitJob]: at most one [Print], of the file on the printer with
    the options it was given; the printer's semaphore is released when
    the call ends; the job is counted once when the call returns. *)
Lemma submitJob_account ticks cfg job printer options pdfFile st :
  let run := submitJob ticks cfg job printer options pdfFile st in
  (length (prints (record run)) <= 1)%nat /\
  (forall pn f t o opts r,
     In (EvPrint pn f t o opts r) (record run) ->
     pn = Name printer /\ f = pdfFile /\ opts = options) /\
  controlsFor (GCPJobID job) (record run) /\
  releases (record run) =
    (if ended (outcome run) then acquires (record run) else []) /\
  (acquires (record run) = [] \/
   acquires (record run) = [CUPSJobSemaphore printer]) /\
  match outcome run with
  | Return _ => countedOnce st (final run)
  | Pending => notCounted st (final run)
  | Panic => False
  end.
Proof.
  unfold outcome, final, record, controlsFor, countedOnce, notCounted.
  destruct (submitJob ticks cfg job printer options pdfFile st)
    as [[r st'] l] eqn:E.
  unfold submitJob in E.
  destruct (Split_first (OwnerID job) "@") as (first & others & ES & _).
  rewrite ES in E. unfold_manager.
  cases; try use_follow_account; simpl.
  all: rewrite ?prints_app, ?controls_app, ?acquires_app, ?releases_app;
    simpl;
    repeat match goal with
    | Hf : prints _ = _ |- _ => rewrite Hf
    | Hf : acquires _ = _ |- _ => rewrite Hf
    | Hf : releases _ = _ |- _ => rewrite Hf
    end; simpl.
  all: split; [lia|].
  all: split;
    [intros pn f t o opts r' Hin;
     repeat first [destruct Hin as [Hin|Hin] | rewrite in_app_iff in Hin
                  | progress simpl in Hin];
     try discriminate Hin; try contradiction;
     first [by simplify_eq
           | exfalso;
             match goal with
             | Hno : forall a b c d e f, ~ In _ ?l, Hi : In _ ?l |- _ =>
                 exact (Hno _ _ _ _ _ _ Hi)
             end]|].
  all: split;
    [rewrite ?app_nil_r;
     repeat first [assumption | apply List.Forall_nil
                  | apply List.Forall_cons; [done|]
                  | apply Forall_app; split]|].
  all: split; [done|]. all: split; [auto|].
  all: unfold countedOnce, notCounted in *; simpl in *; intuition congruence.
Qed.

(** [assembleJob]: the download semaphore is released as soon as the
    download has answered; a job assembled has the printer that the table
    has for it, the options of its ticket and the file its document was
    downloaded to. *)
Lemma assembleJob_account cfg job st :
  let run := assembleJob cfg job st in
  releases (record run) = acquires (record run) /\
  (acquires (record run) = [] \/
   acquires (record run) = [downloadSemaphore cfg]) /\
  match outcome run with
  | Return (printer, options, pdfFile, message, cause) =>
      (message = "" /\ cause = GCPJobStateCauseOf 100 /\
       gcpPrintersByGCPID st !! GCPPrinterID job = Some printer /\
       (exists w, gcpTicket (GCPJobID job) (world st) = (Success options, w)) /\
       exists f, pdfFile = Some f /\
         In (EvDownload f (FileURL job) true) (record run)) \/
      (message <> "" /\ printer = zeroPrinter /\ options = ∅ /\
       pdfFile = None)
  | Pending => acquires (record run) = []
  | Panic => False
  end.
Proof.
  unfold outcome, final, record.
  destruct (assembleJob cfg job st) as [[r st'] l] eqn:E.
  unfold assembleJob in E. unfold_manager.
  cases; simpl; (split; [done|]); (split; [auto|]); try done.
  all: first
    [ right; repeat split; done
    | left; split; [done|]; split; [done|]; split; [done|];
      split; [by eexists|]; eexists; split; [done|]; simpl; auto 10 ].
Qed.
End ProcessJobAccount.

Section ProcessJobWhole.
Context `{Adapters}.

Lemma assemble_no_print (l : list Event) :
  Forall assembleEvent l ->
  prints l = [] /\ controls l = [] /\
  forall printer file title owner options cupsJobID,
    ~ In (EvPrint printer file title owner options cupsJobID) l.
Proof.
  induction 1 as [|e l He _ (I1 & I2 & I3)]; [by repeat split; auto|].
  destruct e; simpl in He; try done; simpl.
  all: repeat split; auto.
  all: intros ? ? ? ? ? ? [Hin|Hin]; [discriminate|by eapply I3].
Qed.

Ltac use_assemble_account :=
  match goal with
  | E : assembleJob ?c ?j ?s = _ |- _ =>
      let F := fresh "F" in
      let G := fresh "G" in
      pose proof (assembleJob_run c j s) as F;
      pose proof (assembleJob_account c j s) as G;
      rewrite E in F, G;
      unfold outcome, final, record in F, G; simpl in F, G;
      destruct F as ((? & ? & ?)%assemble_no_print & ? & ? & ? & ? & _);
      destruct G as (? & ? & ?); clear E
  end.

Ltac use_submit_account :=
  match goal with
  | E : submitJob ?t ?c ?j ?p ?o ?f ?s = _ |- _ =>
      let F := fresh "F" in
      let G := fresh "G" in
      pose proof (submitJob_run t c j p o f s) as F;
      pose proof (submitJob_account t c j p o f s) as G;
      rewrite E in F, G;
      unfold outcome, final, record, untouched in F, G; simpl in F, G;
      destruct F as ((? & ? & ?) & _);
      destruct G as (? & ? & ? & ? & ? & ?); clear E
  end.

(** [processJob] of a job that is not in flight. *)
Lemma processJob_account ticks cfg job st :
  inFlight (jobsInFlight st) (GCPJobID job) = false ->
  let run := processJob ticks cfg job st in
  gcpPrintersByGCPID (final run) = gcpPrintersByGCPID st /\
  (length (prints (record run)) <= 1)%nat /\
  controlsFor (GCPJobID job) (record run) /\
  (forall pn f t o opts r,
     In (EvPrint pn f t o opts r) (record run) ->
     exists printer,
       gcpPrintersByGCPID st !! GCPPrinterID job = Some printer /\
       pn = Name printer /\
       (exists w, gcpTicket (GCPJobID job) (world st) = (Success opts, w)) /\
       In (EvDownload f (FileURL job) true) (record run)) /\
  (exists held,
     acquires (record run) = releases (record run) ++ held /\
     (ended (outcome run) = true -> held = []) /\
     (held = [] \/
      exists printer,
        gcpPrintersByGCPID st !! GCPPrinterID job = Some printer /\
        held = [CUPSJobSemaphore printer])) /\
  match outcome run with
  | Return _ => countedOnce st (final run)
  | Pending => notCounted st (final run)
  | Panic => False
  end.
Proof.
  intros Habsent. unfold outcome, final, record.
  destruct (processJob ticks cfg job st) as [[r st'] l] eqn:E.
  unfold processJob in E. unfold_manager.
  rewrite (addInFlight_absent _ _ Habsent) in E. simpl in E.
  cases; try use_assemble_account; try use_submit_account; simpl.
  all: repeat match goal with
       | Hm : bool_decide _ = _ |- _ =>
           first [apply bool_decide_eq_true in Hm
                 | apply bool_decide_eq_false in Hm]
       | Ha : _ /\ _ \/ _ /\ _ |- _ =>
           destruct Ha as [(? & ? & ? & ? & ? & ? & ?)|(? & ? & ? & ?)];
           simplify_eq
       end; try done.
  all: unfold controlsFor;
    rewrite ?prints_app, ?acquires_app, ?releases_app, ?controls_app; simpl;
    rewrite ?prints_app, ?acquires_app, ?releases_app, ?controls_app; simpl;
    repeat match goal with
    | Hf : prints _ = _ |- _ => rewrite Hf
    | Hf : controls _ = _ |- _ => rewrite Hf
    | Hf : releases _ = _ |- _ => rewrite Hf
    end; simpl; rewrite ?app_nil_r.
  all: (split; [congruence|]).
  all: (split; [simpl; lia|]).
  all: (split;
    [repeat first [assumption | apply List.Forall_nil
                  | apply List.Forall_cons; [done|]
                  | apply Forall_app; split]|]).
  all: (split;
    [intros pn f t o opts r' Hin;
     repeat first [destruct Hin as [Hin|Hin] | rewrite in_app_iff in Hin
                  | progress simpl in Hin];
     try discriminate Hin; try contradiction;
     try (exfalso;
          match goal with
          | Hno : forall a b c d e f, ~ In _ ?l, Hi : In _ ?l |- _ =>
              exact (Hno _ _ _ _ _ _ Hi)
          end)|]).
  all: try match goal with
       | Hp : forall a b c d e f, In _ ?l -> _ /\ _ /\ _, Hi : In _ ?l |- _ =>
           destruct (Hp _ _ _ _ _ _ Hi) as (-> & -> & ->);
           eexists; split; [eassumption|]; split; [done|]; split; [done|];
           right; right; rewrite !in_app_iff; auto
       end.
  all: split;
    [first
       [ exists []; rewrite app_nil_r; split; [done|]; split; [done|by left]
       | eexists; split; [reflexivity|]; split; [done|];
         match goal with
         | Hacq : ?a = [] \/ ?a = [CUPSJobSemaphore _] |- ?a = [] \/ _ =>
             destruct Hacq as [Hacq|Hacq]; [by left|right; eauto]
         end ]|].
  all: unfold countedOnce, notCounted in *; simpl in *; intuition congruence.
Qed.

End ProcessJobWhole.

Section JobProcessorExtras.
Context `{Adapters}.

(** X1. A job is counted exactly once, as done or as in error, by the
    processor that returns; it is not counted while its processor has not
    returned, nor when it is dropped because it is in flight. *)
Theorem processJob_counts_once ticks cfg job st :
  let run := processJob ticks cfg job st in
  if inFlight (jobsInFlight st) (GCPJobID job)
  then notCounted st (final run)
  else match outcome run with
       | Return _ => countedOnce st (final run)
       | Pending => notCounted st (final run)
       | Panic => False
       end.
Proof.
  simpl. destruct (inFlight (jobsInFlight st) (GCPJobID job)) eqn:E.
  - rewrite (processJob_duplicate _ _ _ _ E). by split.
  - by destruct (processJob_account ticks cfg job st E) as (_ & _ & _ & _ & _ & ?).
Qed.

Lemma Split_nonempty (s : string) (sep : ascii) : Split s sep <> [].
Proof. by destruct (Split_first s sep) as (first & others & -> & _). Qed.

(** X2. [processJob] does not panic: [strings.Split] gives at least one
    string, so that its element [0] exists, and the file of a job
    assembled without a message is not nil. *)
Theorem processJob_never_panics ticks cfg job st :
  outcome (processJob ticks cfg job st) <> Panic /\
  Split (OwnerID job) "@" <> [] /\
  match outcome (assembleJob cfg job st) with
  | Return (_, _, pdfFile, message, _) => message = "" -> is_Some pdfFile
  | Pending => True
  | Panic => False
  end.
Proof.
  split; [|split; [apply Split_nonempty|]].
  - destruct (inFlight (jobsInFlight st) (GCPJobID job)) eqn:E.
    + by rewrite (processJob_duplicate _ _ _ _ E).
    + destruct (processJob_account ticks cfg job st E)
        as (_ & _ & _ & _ & _ & Hout).
      simpl in Hout. intros Hp. by rewrite Hp in Hout.
  - destruct (assembleJob_account cfg job st) as (_ & _ & Hout).
    destruct (outcome (assembleJob cfg job st))
      as [[[[[printer options] pdfFile] message] cause]| |]; try done.
    intros ->.
    destruct Hout as [(_ & _ & _ & _ & f & -> & _)|(? & _)]; [by eexists|done].
Qed.

(** X3. The permits of [processJob].  Every semaphore it acquired is
    released when it ends; while it has not ended it holds at most one
    permit, of the semaphore of the printer that the table has for the
    job: the download permit is never kept. *)
Theorem processJob_permits ticks cfg job st :
  let run := processJob ticks cfg job st in
  exists held,
    acquires (record run) = releases (record run) ++ held /\
    (ended (outcome run) = true -> held = []) /\
    (held = [] \/
     exists printer,
       gcpPrintersByGCPID st !! GCPPrinterID job = Some printer /\
       held = [CUPSJobSemaphore printer]).
Proof.
  simpl. destruct (inFlight (jobsInFlight st) (GCPJobID job)) eqn:E.
  - rewrite (processJob_duplicate _ _ _ _ E). exists []. auto.
  - by destruct (processJob_account ticks cfg job st E) as (_ & _ & _ & _ & ? & _).
Qed.

(** X4. [processJob] leaves the printer table as it is, and the in-flight
    entry of every other job. *)
Theorem processJob_keeps_others ticks cfg job st :
  let run := processJob ticks cfg job st in
  gcpPrintersByGCPID (final run) = gcpPrintersByGCPID st /\
  forall id, id <> GCPJobID job ->
             jobsInFlight (final run) !! id = jobsInFlight st !! id.
Proof.
  simpl. destruct (inFlight (jobsInFlight st) (GCPJobID job)) eqn:E.
  - by rewrite (processJob_duplicate _ _ _ _ E).
  - destruct (processJob_account ticks cfg job st E) as (Htable & _).
    destruct (processJob_run ticks cfg job st E) as (_ & _ & _ & _ & -> & _).
    split; [done|]. intros id Hid.
    destruct (ended _); [by rewrite lookup_delete_ne|by rewrite lookup_insert_ne].
Qed.

(** X5. A job is in flight exactly as long as its processor has not
    ended: delivered again after the processor ended, it is processed
    again; delivered again before, it is dropped. *)
Theorem processJob_redelivery ticks ticks' cfg job st :
  inFlight (jobsInFlight st) (GCPJobID job) = false ->
  let first := processJob ticks cfg job st in
  let second := processJob ticks' cfg job (final first) in
  if ended (outcome first)
  then exists rest, record second = EvInFlightAdd (GCPJobID job) :: rest
  else second = (Return tt, final first, []).
Proof.
  intros E. simpl.
  destruct (processJob_run ticks cfg job st E) as (_ & _ & _ & _ & Hflight & _).
  destruct (ended (outcome (processJob ticks cfg job st))).
  - assert (E' : inFlight (jobsInFlight (final (processJob ticks cfg job st)))
                          (GCPJobID job) = false).
    { rewrite Hflight. unfold inFlight. by rewrite lookup_delete_eq. }
    destruct (processJob_run ticks' cfg job _ E') as (body & -> & _).
    by eexists.
  - apply processJob_duplicate. rewrite Hflight.
    unfold inFlight. by rewrite lookup_insert_eq.
Qed.

(** X6. [processJob] submits a job at most once, and every [Control]
    call it makes is for that job. *)
Theorem processJob_submits_once ticks cfg job st :
  let run := processJob ticks cfg job st in
  (length (prints (record run)) <= 1)%nat /\
  Forall (fun c => c.1.1.1 = GCPJobID job) (controls (record run)).
Proof.
  simpl. destruct (inFlight (jobsInFlight st) (GCPJobID job)) eqn:E.
  - rewrite (processJob_duplicate _ _ _ _ E). simpl. split; [lia|constructor].
  - by destruct (processJob_account ticks cfg job st E) as (_ & ? & ? & _).
Qed.

(** X7. What [processJob] submits: the printer is the one that the table
    has for the job, the options are those of the job's ticket, and the
    file is one to which the job's document was downloaded. *)
Theorem processJob_print_arguments ticks cfg job st
    printer file title owner options cupsJobID :
  In (EvPrint printer file title owner options cupsJobID)
     (record (processJob ticks cfg job st)) ->
  (exists p, gcpPrintersByGCPID st !! GCPPrinterID job = Some p /\
             printer = Name p) /\
  (exists w, gcpTicket (GCPJobID job) (world st) = (Success options, w)) /\
  In (EvDownload file (FileURL job) true) (record (processJob ticks cfg job st)).
Proof.
  intros Hin. destruct (inFlight (jobsInFlight st) (GCPJobID job)) eqn:E.
  - by rewrite (processJob_duplicate _ _ _ _ E) in Hin.
  - destruct (processJob_account ticks cfg job st E) as (_ & _ & _ & Hp & _).
    destruct (Hp _ _ _ _ _ _ Hin) as (p & ? & ? & ? & ?). eauto.
Qed.

(** X8. What [assembleJob] returns: with an empty message, the printer of
    the table, the options of the ticket, a file to which the document was
    downloaded and the cause [100]; with a message, the zero printer, no
    options and no file.  Either way the download permit was released. *)
Theorem assembleJob_result cfg job st :
  let run := assembleJob cfg job st in
  releases (record run) = acquires (record run) /\
  match outcome run with
  | Return (printer, options, pdfFile, message, cause) =>
      (message = "" /\ cause = GCPJobStateCauseOf 100 /\
       gcpPrintersByGCPID st !! GCPPrinterID job = Some printer /\
       (exists w, gcpTicket (GCPJobID job) (world st) = (Success options, w)) /\
       exists f, pdfFile = Some f /\
         In (EvDownload f (FileURL job) true) (record run)) \/
      (message <> "" /\ printer = zeroPrinter /\ options = ∅ /\
       pdfFile = None)
  | Pending => acquires (record run) = []
  | Panic => False
  end.
Proof.
  simpl. by destruct (assembleJob_account cfg job st) as (? & _ & ?).
Qed.
End JobProcessorExtras.

(** ** More about the job follower *)

Section FollowExtras.
Context `{Adapters}.

(** X9. [followJob] polls the spooler job it was given, once per tick;
    it makes at most one [Control] call per poll, each for its cloud job;
    it does nothing else but log, and leaves the table, the in-flight set
    and the temporary files as they are. *)
Theorem followJob_polls ticks job cupsJobID st :
  let run := followJob ticks job cupsJobID st in
  Forall (fun id => id = cupsJobID) (polls (record run)) /\
  (length (polls (record run)) <= ticks)%nat /\
  (length (controls (record run)) <= length (polls (record run)))%nat /\
  Forall (fun c => c.1.1.1 = GCPJobID job) (controls (record run)) /\
  Forall followEvent (record run) /\
  untouched st (final run).
Proof.
  simpl.
  destruct (followLoop_account ticks job cupsJobID followStart st)
    as (A1 & A2 & A3 & A4 & _).
  destruct (followJob_frame ticks job cupsJobID st) as (F1 & F2 & _).
  done.
Qed.

(** X10. [followJob] counts the job exactly once, as done or as in
    error, and does so when it returns; as long as it has not returned it
    has counted nothing and has polled at every tick. *)
Theorem followJob_counts_once ticks job cupsJobID st :
  let run := followJob ticks job cupsJobID st in
  match outcome run with
  | Return _ => countedOnce st (final run)
  | Pending => notCounted st (final run) /\
               length (polls (record run)) = ticks
  | Panic => False
  end.
Proof.
  simpl.
  by destruct (followLoop_account ticks job cupsJobID followStart st)
    as (_ & _ & _ & _ & ?).
Qed.
End FollowExtras.

(** ** More about reconciliation *)

Section RoundAccount.
Context `{Adapters}.

Lemma onlyWorld_refl (st : State) : onlyWorld st st.
Proof. unfold onlyWorld. by destruct st. Qed.

Lemma onlyWorld_trans (st st1 st2 : State) :
  onlyWorld st st1 -> onlyWorld st1 st2 -> onlyWorld st st2.
Proof. unfold onlyWorld. intros -> ->. done. Qed.

Lemma onlyWorld_jobsKept (st st' : State) :
  onlyWorld st st' ->
  jobsKept st st' /\ gcpPrintersByGCPID st' = gcpPrintersByGCPID st.
Proof. unfold onlyWorld, jobsKept. intros ->. done. Qed.

(** [applyDiff] changes nothing of the manager; it sends one printer
    when it returns and none when it waits for room on the channel. *)
Lemma applyDiff_account cfg diff ch st :
  let run := applyDiff cfg diff ch st in
  onlyWorld st (final run) /\
  match outcome run with
  | Return ch' =>
      (length (chanBuf ch) < chanCap ch)%nat /\
      exists p, ch' = chanPush p ch /\ sends (record run) = [p]
  | Pending => sends (record run) = []
  | Panic => False
  end.
Proof.
  unfold outcome, final, record, onlyWorld.
  destruct (applyDiff cfg diff ch st) as [[r st'] l] eqn:E.
  unfold applyDiff in E. unfold_manager.
  cases; simpl;
    (split; [first [reflexivity
                   | match goal with s : State |- _ => by destruct s end]|]);
    try done.
  all: match goal with
       | Hroom : (_ <? _)%nat = true |- _ => apply Nat.ltb_lt in Hroom
       end; split; [done|]; by eexists.
Qed.

Lemma goApplyDiff_account cfg diff ch st :
  let run := goApplyDiff cfg diff ch st in
  onlyWorld st (final run) /\
  exists ch',
    outcome run = Return ch' /\
    chanCap ch' = chanCap ch /\
    chanBuf ch' = chanBuf ch ++ sends (record run) /\
    (length (chanBuf ch) <= chanCap ch -> length (chanBuf ch') <= chanCap ch)%nat.
Proof.
  simpl. pose proof (applyDiff_account cfg diff ch st) as F. simpl in F.
  unfold goApplyDiff.
  destruct (applyDiff cfg diff ch st) as [[[ch'| |] st'] l];
    unfold outcome, final, record in *; simpl in *;
    destruct F as (F1 & F2); try done.
  - destruct F2 as (Hroom & p & -> & ->). split; [done|].
    eexists. split; [done|]. simpl. rewrite length_app. simpl.
    repeat split; lia.
  - split; [done|]. exists ch. rewrite F2, app_nil_r. done.
Qed.

Lemma applyDiffs_account cfg diffs schedule ch st :
  let run := applyDiffs cfg diffs schedule ch st in
  onlyWorld st (final run) /\
  exists ch',
    outcome run = Return ch' /\
    chanCap ch' = chanCap ch /\
    chanBuf ch' = chanBuf ch ++ sends (record run) /\
    (length (chanBuf ch) <= chanCap ch -> length (chanBuf ch') <= chanCap ch)%nat.
Proof.
  revert ch st. induction schedule as [|i schedule IH]; intros ch st; simpl.
  { split; [apply onlyWorld_refl|]. exists ch. by rewrite app_nil_r. }
  destruct (diffs !! i) as [diff|]; [|apply IH].
  unfold bind.
  destruct (goApplyDiff_account cfg diff ch st) as (F1 & ch1 & F2 & F3 & F4 & F5).
  destruct (goApplyDiff cfg diff ch st) as [[r st1] l1].
  unfold outcome, final, record in *; simpl in *. subst r.
  destruct (IH ch1 st1) as (I1 & ch2 & I2 & I3 & I4 & I5).
  destruct (applyDiffs cfg diffs schedule ch1 st1) as [[r2 st2] l2].
  unfold outcome, final, record in *; simpl in *. subst r2.
  split; [by apply (onlyWorld_trans st st1)|].
  exists ch2. rewrite F3 in I5.
  split; [done|]. split; [congruence|].
  split; [by rewrite sends_app, I4, F4, <- app_assoc|auto].
Qed.

(** The receives of a round wait for ever when the channel holds fewer
    printers than there are diffs. *)
Lemma collectPrinters_waits n ch currentPrinters st :
  (length (chanBuf ch) < n)%nat ->
  outcome (collectPrinters n ch currentPrinters st) = Pending.
Proof.
  revert ch currentPrinters.
  induction n as [|n IH]; intros ch currentPrinters Hn; simpl; [lia|].
  unfold bind, receive.
  destruct (chanBuf ch) as [|p buf] eqn:Ebuf; simpl in *; [done|].
  destruct (bool_decide (Name p ≠ "")).
  - specialize (IH {| chanCap := chanCap ch; chanBuf := buf |}
                   (currentPrinters ++ [p])).
    destruct (collectPrinters n _ _ st) as [[r st'] l].
    unfold outcome in *; simpl in *. rewrite IH by lia. done.
  - specialize (IH {| chanCap := chanCap ch; chanBuf := buf |}
                   currentPrinters).
    destruct (collectPrinters n _ _ st) as [[r st'] l].
    unfold outcome in *; simpl in *. rewrite IH by lia. done.
Qed.
End RoundAccount.

Section RoundWhole.
Context `{Adapters}.

Lemma diff_events (l : list Event) :
  Forall diffEvent l ->
  refreshes l = [] /\ Forall roundEvent l.
Proof.
  intros Hl. split.
  - apply refreshes_none. eapply Forall_impl; [exact Hl|].
    by intros e (_ & ?)%diffEvent_quiet.
  - eapply Forall_impl; [exact Hl|]. by intros e (? & _)%diffEvent_quiet.
Qed.

(** A round that has diffs to apply, whatever its schedule: it returns,
    after one [Refresh] with the named printers sent, when every diff has
    sent its printer, and waits for ever otherwise. *)
Lemma syncPrinters_diffs cfg schedule st cupsPrinters w diffs :
  cupsGetPrinters (world st) = (Success cupsPrinters, w) ->
  roundDiffs cfg cupsPrinters st = Some diffs ->
  let run := syncPrinters cfg schedule st in
  jobsKept st (final run) /\
  (length (sends (record run)) <= length diffs)%nat /\
  if decide (length (sends (record run)) = length diffs)
  then outcome run = Return None /\
       refreshes (record run) = [named (sends (record run))] /\
       gcpPrintersByGCPID (final run) =
         NewConcurrentPrinterMap (named (sends (record run)))
  else outcome run = Pending /\
       refreshes (record run) = [] /\
       gcpPrintersByGCPID (final run) = gcpPrintersByGCPID st.
Proof.
  intros Hlisted Hdiffs.
  unfold outcome, final, record.
  destruct (syncPrinters cfg schedule st) as [[r st'] l] eqn:E.
  unfold syncPrinters in E. unfold_manager.
  rewrite Hlisted in E. simpl in E.
  change (roundDiffs cfg cupsPrinters (setWorld w st))
    with (roundDiffs cfg cupsPrinters st) in E.
  rewrite Hdiffs in E.
  destruct (applyDiffs_account cfg diffs schedule (makeChan (length diffs))
              (setWorld w st)) as (A0 & ch & A1 & A2 & A3 & A4).
  destruct (applyDiffs_frame cfg diffs schedule (makeChan (length diffs))
              (setWorld w st)) as ((A5 & A6)%diff_events & _).
  destruct (applyDiffs cfg diffs schedule (makeChan (length diffs))
              (setWorld w st)) as [[r1 st1] l1].
  unfold outcome, final, record in *; simpl in *. subst r1.
  apply onlyWorld_jobsKept in A0 as ((J1 & J2 & J3 & J4) & J5).
  simpl in *. specialize (A4 (Nat.le_0_l _)).
  rewrite A3 in A4.
  match type of E with
  | context [collectPrinters ?n ?c ?cur ?s] =>
      pose proof (collectPrinters_run n c cur s) as C1;
      pose proof (collectPrinters_waits n c cur s) as C4;
      pose proof (collectPrinters_frame n c cur s) as (C2 & C3 & _);
      destruct (collectPrinters n c cur s) as [[r2 st2] l2]
  end.
  unfold outcome, final, record in C1, C2, C3, C4; simpl in C1, C2, C3, C4.
  subst l2 st2. rewrite A3 in C1, C4.
  destruct (decide (length (sends l1) = length diffs)) as [Hall|Hsome].
  - rewrite C1 in E by lia. rewrite <- Hall, firstn_all in E.
    simpl in E. simplify_eq. simpl.
    rewrite !sends_app, !refreshes_app, A5. simpl.
    rewrite app_nil_r. unfold jobsKept. simpl.
    split; [done|]. split; [lia|].
    destruct (decide (length (sends l1) = length diffs)); [done|lia].
  - rewrite C4 in E by lia. simplify_eq. simpl.
    rewrite !sends_app, !refreshes_app, A5. simpl. rewrite app_nil_r.
    split; [done|]. split; [lia|].
    unfold jobsKept. simpl.
    destruct (decide (length (sends l1) = length diffs)); [lia|done].
Qed.

(** A round that has no diff to apply, or no list of the spooler's
    printers to start from. *)
Lemma syncPrinters_short cfg schedule st :
  match cupsGetPrinters (world st) with
  | (Failure err, w) =>
      syncPrinters cfg schedule st =
      (Return (Some ("Sync failed while calling GetPrinters(): " +:+ err)),
       setWorld w st,
       [EvGlog Info "Synchronizing printers, stand by"; EvGetPrinters false])
  | (Success cupsPrinters, w) =>
      roundDiffs cfg cupsPrinters st = None ->
      syncPrinters cfg schedule st =
      (Return None, setWorld w st,
       [EvGlog Info "Synchronizing printers, stand by"; EvGetPrinters true;
        EvGlog Info "Printers are already in sync; there are %d"])
  end.
Proof.
  unfold syncPrinters. unfold_manager.
  destruct (cupsGetPrinters (world st)) as [[cupsPrinters|err] w]; simpl;
    [|done].
  change (roundDiffs cfg cupsPrinters (setWorld w st))
    with (roundDiffs cfg cupsPrinters st).
  by intros ->.
Qed.

(** Every round: what it leaves of the table and of the job
    processors' state. *)
Lemma syncPrinters_account cfg schedule st :
  let run := syncPrinters cfg schedule st in
  jobsKept st (final run) /\
  ((refreshes (record run) = [] /\
    gcpPrintersByGCPID (final run) = gcpPrintersByGCPID st) \/
   (refreshes (record run) = [named (sends (record run))] /\
    gcpPrintersByGCPID (final run) =
      NewConcurrentPrinterMap (named (sends (record run))) /\
    outcome run = Return None)) /\
  (forall text, outcome run = Return (Some text) ->
     exists err w,
       cupsGetPrinters (world st) = (Failure err, w) /\
       text = "Sync failed while calling GetPrinters(): " +:+ err /\
       final run = setWorld w st /\
       record run = [EvGlog Info "Synchronizing printers, stand by";
                     EvGetPrinters false]).
Proof.
  simpl. pose proof (syncPrinters_short cfg schedule st) as Hshort.
  destruct (cupsGetPrinters (world st)) as [[cupsPrinters|err] w] eqn:El.
  - destruct (roundDiffs cfg cupsPrinters st) as [diffs|] eqn:Ed.
    + destruct (syncPrinters_diffs cfg schedule st cupsPrinters w diffs El Ed)
        as (D1 & D2 & D3).
      split; [done|].
      destruct (decide _) as [Hall|Hsome];
        destruct D3 as (D3 & D4 & D5); rewrite D3; split; auto; done.
    + rewrite (Hshort eq_refl). unfold jobsKept, outcome, final, record; simpl.
      split; [done|]. split; [by left|done].
  - rewrite Hshort. unfold jobsKept, outcome, final, record; simpl.
    split; [done|]. split; [by left|].
    intros text Ht. simplify_eq. by exists err, w.
Qed.
End RoundWhole.

Section RoundExtras.
Context `{Adapters}.

(** X11. A round calls [Refresh] at most once, and changes the table by
    that call only.  What it gives to [Refresh] are the printers sent on
    the channel that have a name, in the order sent; a round that has
    refreshed the table returns no error. *)
Theorem syncPrinters_refresh cfg schedule st :
  let run := syncPrinters cfg schedule st in
  (refreshes (record run) = [] /\
   gcpPrintersByGCPID (final run) = gcpPrintersByGCPID st) \/
  (refreshes (record run) = [named (sends (record run))] /\
   gcpPrintersByGCPID (final run) =
     NewConcurrentPrinterMap (named (sends (record run))) /\
   outcome run = Return None).
Proof.
  simpl. by destruct (syncPrinters_account cfg schedule st) as (_ & ? & _).
Qed.

(** X12. The only error that a round returns is that of [GetPrinters],
    with the text of [syncPrinters] before it; the round that returns it
    has called nothing else, and has changed nothing but the world. *)
Theorem syncPrinters_error cfg schedule st text :
  outcome (syncPrinters cfg schedule st) = Return (Some text) ->
  exists err w,
    cupsGetPrinters (world st) = (Failure err, w) /\
    text = "Sync failed while calling GetPrinters(): " +:+ err /\
    final (syncPrinters cfg schedule st) = setWorld w st /\
    record (syncPrinters cfg schedule st) =
      [EvGlog Info "Synchronizing printers, stand by"; EvGetPrinters false].
Proof.
  destruct (syncPrinters_account cfg schedule st) as (_ & _ & Herr).
  apply Herr.
Qed.

(** X13. A round that has diffs to apply refreshes the table only when
    every diff has sent its printer: it then returns; with fewer sends
    than diffs it waits for ever, and the table is as it was.  There are
    never more sends than diffs. *)
Theorem syncPrinters_waits_for_all cfg schedule st cupsPrinters w diffs :
  cupsGetPrinters (world st) = (Success cupsPrinters, w) ->
  roundDiffs cfg cupsPrinters st = Some diffs ->
  let run := syncPrinters cfg schedule st in
  (length (sends (record run)) <= length diffs)%nat /\
  if decide (length (sends (record run)) = length diffs)
  then outcome run = Return None /\
       refreshes (record run) = [named (sends (record run))]
  else outcome run = Pending /\
       refreshes (record run) = [] /\
       gcpPrintersByGCPID (final run) = gcpPrintersByGCPID st.
Proof.
  intros Hlisted Hdiffs. simpl.
  destruct (syncPrinters_diffs cfg schedule st cupsPrinters w diffs
              Hlisted Hdiffs) as (_ & Hle & Hrun).
  split; [done|]. destruct (decide _); [|done].
  by destruct Hrun as (? & ? & _).
Qed.

(** X14. A round leaves the job processors' state as it is: the
    counters, the in-flight set and the temporary files.  It does not
    panic, and it does nothing but log, list the spooler's printers and
    apply, send and refresh. *)
Theorem syncPrinters_keeps_jobs cfg schedule st :
  let run := syncPrinters cfg schedule st in
  jobsKept st (final run) /\
  outcome run <> Panic /\
  Forall roundEvent (record run).
Proof.
  simpl. destruct (syncPrinters_account cfg schedule st) as (? & _).
  by destruct (syncPrinters_frame cfg schedule st) as (? & ? & _).
Qed.
End RoundExtras.

Section LoopAccount.
Context `{Adapters}.

Lemma jobsKept_refl (st : State) : jobsKept st st.
Proof. by unfold jobsKept. Qed.

Lemma jobsKept_trans (st st1 st2 : State) :
  jobsKept st st1 -> jobsKept st1 st2 -> jobsKept st st2.
Proof. unfold jobsKept. intros (<- & <- & <- & <-). done. Qed.

(** One turn of the reconciliation loop: it is followed by another, if
    it ends. *)
Lemma loopTurn_account cfg schedule ev st :
  let run := loopTurn cfg schedule ev st in
  jobsKept st (final run) /\
  (outcome run = Return NextTurn \/ outcome run = Pending) /\
  (refreshes (record run) = [] ->
   gcpPrintersByGCPID (final run) = gcpPrintersByGCPID st).
Proof.
  simpl. destruct ev as [|gcpID|].
  - destruct (syncPrinters_account cfg schedule st) as (S1 & S2 & _).
    destruct (syncPrinters_frame cfg schedule st) as (_ & S3 & _).
    unfold loopTurn. unfold_manager.
    destruct (syncPrinters cfg schedule st) as [[[[err|]| |] st1] l1];
      unfold outcome, final, record in *; simpl in *; try done.
    all: rewrite ?refreshes_app; simpl; rewrite ?app_nil_r.
    all: split; [done|]; split; [auto|].
    all: intros Hnone; destruct S2 as [(_ & ?)|(S2 & _)]; [done|].
    all: rewrite Hnone in S2; discriminate.
  - unfold outcome, final, record, loopTurn, jobsKept. unfold_manager.
    cases; simpl; auto.
  - unfold outcome, final, record, loopTurn, jobsKept. unfold_manager.
    simpl. auto.
Qed.
End LoopAccount.

Section LoopExtras.
Context `{Adapters}.

(** X15. The goroutine of [syncPrintersPeriodically] never returns,
    whatever it receives, so that its deferred [t.Stop()] never runs.  It
    leaves the job processors' state as it is, and changes the table by
    [Refresh] only. *)
Theorem syncPrintersPeriodically_never_returns cfg received st :
  let run := syncPrintersPeriodically cfg received st in
  outcome run = Pending /\
  jobsKept st (final run) /\
  (refreshes (record run) = [] ->
   gcpPrintersByGCPID (final run) = gcpPrintersByGCPID st).
Proof.
  simpl. revert st.
  induction received as [|[ev schedule] received IH]; intros st; simpl.
  { split; [done|]. split; [apply jobsKept_refl|done]. }
  unfold bind.
  destruct (loopTurn_account cfg schedule ev st) as (T1 & T2 & T3).
  destruct (loopTurn cfg schedule ev st) as [[r st1] l1].
  unfold outcome, final, record in *; simpl in *.
  destruct T2 as [->| ->]; [|done].
  destruct (IH st1) as (I1 & I2 & I3).
  destruct (syncPrintersPeriodically cfg received st1) as [[r2 st2] l2].
  unfold outcome, final, record in *; simpl in *.
  split; [done|]. split; [by apply (jobsKept_trans st st1)|].
  rewrite refreshes_app. intros (E1 & E2)%app_eq_nil.
  rewrite I3, T3; done.
Qed.

(** X16. A round that fails does not stop the loop: the error of
    [GetPrinters] is logged, the timer is reset and the loop takes its
    next turn, the table being as it was. *)
Theorem syncPrintersPeriodically_failed_round
    cfg schedule received st err w :
  cupsGetPrinters (world st) = (Failure err, w) ->
  let run := syncPrintersPeriodically cfg ((Tick, schedule) :: received) st in
  let rest := syncPrintersPeriodically cfg received (setWorld w st) in
  record run =
    [EvGlog Info "Synchronizing printers, stand by"; EvGetPrinters false;
     EvGlog Error ("Sync failed while calling GetPrinters(): " +:+ err);
     EvTimerReset] ++ record rest /\
  final run = final rest.
Proof.
  intros Hfail.
  pose proof (syncPrinters_short cfg schedule st) as Hshort.
  rewrite Hfail in Hshort.
  cbn [syncPrintersPeriodically]. unfold loopTurn, bind.
  rewrite Hshort. unfold logError, glog, emit, ret. simpl.
  destruct (syncPrintersPeriodically cfg received (setWorld w st))
    as [[r2 st2] l2].
  done.
Qed.
End LoopExtras.

Section DiffExtras.
Context `{Adapters}.

End DiffExtras.

(** ** More about construction *)

Section ConstructorAccount.
Context `{Adapters}.

Lemma round_events (l : list Event) :
  Forall roundEvent l ->
  goroutines l = [] /\ pingUpdates l = [] /\
  Forall (fun e => isSetConnector e = false) l.
Proof.
  induction 1 as [|e l He _ (I1 & I2 & I3)]; [by repeat split|].
  destruct e; simpl in He; try done; simpl; repeat split; auto.
Qed.

Lemma ping_events (l : list Event) :
  Forall pingEvent l ->
  goroutines l = [] /\
  Forall (fun e => isSetConnector e = false) l /\
  Forall (fun e => isGetPrinters e = false) l.
Proof.
  induction 1 as [|e l He _ (I1 & I2 & I3)]; [by repeat split|].
  destruct e; simpl in He; try done; simpl; repeat split; auto.
Qed.

(** The loop over the pending ping interval changes: it calls
    [SetPrinterXMPPPingInterval] for identifiers that are pending and in
    the table, and ends at the first call that fails. *)
Lemma updatePingIntervals_account changes st :
  let run := updatePingIntervals changes st in
  onlyWorld st (final run) /\
  Forall pingEvent (record run) /\
  Forall (fun u => In u.1 changes /\
                   is_Some (gcpPrintersByGCPID st !! u.1))
         (pingUpdates (record run)) /\
  match outcome run with
  | Return None => Forall (fun u => u.2 = true) (pingUpdates (record run))
  | Return (Some err) =>
      exists done_ id,
        pingUpdates (record run) = done_ ++ [(id, false)] /\
        Forall (fun u => u.2 = true) done_
  | _ => False
  end.
Proof.
  revert st. induction changes as [|gcpID changes IH]; intros st; simpl.
  { split; [apply onlyWorld_refl|]. repeat split; constructor. }
  unfold_manager.
  destruct (gcpPrintersByGCPID st !! gcpID) as [p|] eqn:Ep; simpl.
  - destruct (gcpSetPrinterXMPPPingInterval p (world st)) as [[err|] w];
      simpl.
    + split; [done|]. split; [repeat constructor|].
      split; [repeat constructor; simpl; auto|].
      exists [], gcpID. split; [done|constructor].
    + destruct (IH (setWorld w st)) as (I1 & I2 & I3 & I4).
      destruct (updatePingIntervals changes (setWorld w st))
        as [[r st1] l1].
      unfold outcome, final, record in *; simpl in *.
      split; [by apply (onlyWorld_trans st (setWorld w st))|].
      assert (Hall : Forall
                (fun u => (gcpID = u.1 \/ In u.1 changes) /\
                          is_Some (gcpPrintersByGCPID st !! u.1))
                ((gcpID, true) :: pingUpdates l1)).
      { constructor; [simpl; auto|].
        eapply Forall_impl; [exact I3|]. simpl. intros u (? & ?). auto. }
      destruct r as [[err|]| |]; simpl; try done.
      * split; [by repeat constructor|]. split; [done|].
        destruct I4 as (done_ & id & -> & I4).
        exists ((gcpID, true) :: done_), id. split; [done|by constructor].
      * split; [by repeat constructor|]. split; [done|by constructor].
  - destruct (IH st) as (I1 & I2 & I3 & I4).
    destruct (updatePingIntervals changes st) as [[r st1] l1].
    unfold outcome, final, record in *; simpl in *.
    assert (Hall : Forall
              (fun u => (gcpID = u.1 \/ In u.1 changes) /\
                        is_Some (gcpPrintersByGCPID st !! u.1))
              (pingUpdates l1)).
    { eapply Forall_impl; [exact I3|]. simpl. intros u (? & ?). auto. }
    destruct r as [[err|]| |]; simpl; try done.
    all: split; [done|]; split; [by repeat constructor|]; done.
Qed.
End ConstructorAccount.

Section ConstructorWhole.
Context `{Adapters}.

(** The constructor once [List] has answered: the record of the loop
    over the pending ping interval changes, then the rest. *)
Lemma NewPrinterManager_account
    printerPollInterval gcpMaxConcurrentDownload queueSize
    fullUsername ignoreRaw scope schedule st listing w :
  gcpList (world st) = (Success listing, w) ->
  let run :=
    NewPrinterManager printerPollInterval gcpMaxConcurrentDownload
      queueSize fullUsername ignoreRaw scope schedule st in
  exists updates rest,
    record run = EvList true :: updates ++ rest /\
    Forall pingEvent updates /\
    Forall (fun u => In u.1 (listXMPPPingIntervalChanges listing) /\
                     exists p, In p (listPrinters listing) /\ GCPID p = u.1)
           (pingUpdates updates) /\
    match outcome run with
    | Return (Success cfg) =>
        Forall (fun u => u.2 = true) (pingUpdates updates) /\
        (exists d sync,
           rest = EvSetConnectorXMPPPingInterval d :: sync ++
                  (EvGo <$> managerGoroutines) /\
           Forall roundEvent sync) /\
        (cupsQueueSize cfg = queueSize /\
         jobFullUsername cfg = fullUsername /\
         ignoreRawPrinters cfg = ignoreRaw /\
         shareScope cfg = scope) /\
        (jobsDone (final run) = 0%N /\ jobsError (final run) = 0%N /\
         jobsInFlight (final run) = ∅) /\
        exists interval, timeParseDuration printerPollInterval = Success interval
    | Return (Failure err) =>
        (rest = [] /\
         exists done_ id,
           pingUpdates updates = done_ ++ [(id, false)] /\
           Forall (fun u => u.2 = true) done_) \/
        (Forall (fun u => u.2 = true) (pingUpdates updates) /\
         exists d sync,
           rest = EvSetConnectorXMPPPingInterval d :: sync /\
           Forall roundEvent sync /\
           ((exists e, err = "Sync failed while calling GetPrinters(): " +:+ e) \/
            timeParseDuration printerPollInterval = Failure err))
    | Pending =>
        Forall (fun u => u.2 = true) (pingUpdates updates) /\
        exists d sync,
          rest = EvSetConnectorXMPPPingInterval d :: sync /\
          Forall roundEvent sync
    | Panic => False
    end.
Proof.
  intros Hlist. unfold outcome, final, record.
  destruct (NewPrinterManager _ _ _ _ _ _ _ st) as [[r st'] l] eqn:E.
  unfold NewPrinterManager in E. unfold_manager.
  rewrite Hlist in E. simpl in E.
  destruct (attachSemaphores_run queueSize (listPrinters listing)
              (setWorld w st)) as (attached & A1 & A2 & A3 & _).
  destruct (attachSemaphores queueSize (listPrinters listing)
              (setWorld w st)) as [[r1 st1] l1].
  unfold outcome, record in A1, A2; simpl in A1, A2. subst r1 l1.
  simpl in E.
  match type of E with
  | context [updatePingIntervals ?c ?s] =>
      destruct (updatePingIntervals_account c s) as (U1 & U2 & U3 & U4);
      destruct (updatePingIntervals c s) as [[r2 st2] l2]
  end.
  unfold outcome, final, record in U1, U2, U3, U4; simpl in U1, U2, U3, U4.
  assert (Hknown :
    Forall (fun u => In u.1 (listXMPPPingIntervalChanges listing) /\
                     exists p, In p (listPrinters listing) /\ GCPID p = u.1)
           (pingUpdates l2)).
  { eapply Forall_impl; [exact U3|]. intros u (Hu & p & Hp). split; [done|].
    apply NewConcurrentPrinterMap_lookup in Hp as (Hp & Hid).
    assert (Hin : GCPID p ∈ GCPID <$> listPrinters listing).
    { rewrite <- A3. apply list_elem_of_fmap_2. by apply list_elem_of_In. }
    apply list_elem_of_fmap in Hin as (q & Hq & Hin).
    exists q. split; [by apply list_elem_of_In|congruence]. }
  clear U3.
  destruct r2 as [[err|]| |]; try done; simpl in E.
  { simplify_eq. exists l2, []. rewrite app_nil_r.
    split; [done|]. split; [done|]. split; [done|]. by left. }
  destruct (libNewSemaphore gcpMaxConcurrentDownload _) as [sem w'].
  simpl in E.
  match type of E with
  | context [syncPrinters ?c ?s ?t] =>
      destruct (syncPrinters_account c s t) as (S1 & _ & S2);
      destruct (syncPrinters_frame c s t) as (S3 & S4 & _);
      destruct (syncPrinters c s t) as [[r3 st3] l3]
  end.
  unfold outcome, final, record, jobsKept in S1, S2, S3, S4;
    simpl in S1, S2, S3, S4.
  destruct S1 as (S11 & S12 & S13 & _).
  exists l2.
  destruct r3 as [[text|]| |]; try done; simpl in E.
  - simplify_eq. eexists. rewrite app_nil_r.
    split; [done|]. split; [done|]. split; [done|]. right.
    split; [done|]. do 2 eexists. split; [done|]. split; [done|].
    destruct (S2 text eq_refl) as (e & ? & _ & -> & _). left. by exists e.
  - destruct (timeParseDuration printerPollInterval) as [interval|err] eqn:Ep;
      simpl in E; simplify_eq; simpl.
    + eexists. split; [reflexivity|].
      split; [done|]. split; [done|]. split; [done|].
      split; [by do 2 eexists|]. split; [done|]. split; [done|].
      by exists interval.
    + eexists. rewrite app_nil_r.
      split; [done|]. split; [done|]. split; [done|]. right.
      split; [done|]. do 2 eexists. split; [done|]. split; [done|]. by right.
  - simplify_eq. eexists.
    split; [done|]. split; [done|]. split; [done|].
    split; [done|]. by do 2 eexists.
Qed.
End ConstructorWhole.

Section ConstructorExtras.
Context `{Adapters}.

Lemma NewPrinterManager_List_failure
    printerPollInterval gcpMaxConcurrentDownload queueSize
    fullUsername ignoreRaw scope schedule st err w :
  gcpList (world st) = (Failure err, w) ->
  NewPrinterManager printerPollInterval gcpMaxConcurrentDownload
    queueSize fullUsername ignoreRaw scope schedule st =
  (Return (Failure err), setWorld w st, [EvList false]).
Proof.
  intros Hlist. unfold NewPrinterManager. unfold_manager.
  by rewrite Hlist.
Qed.

Lemma in_pingUpdates (l : list Event) (gcpID : string) (ok : bool) :
  In (EvSetPrinterXMPPPingInterval gcpID ok) l <->
  In (gcpID, ok) (pingUpdates l).
Proof.
  unfold pingUpdates. rewrite <- !list_elem_of_In, list_elem_of_omap.
  split.
  - intros Hin. by eexists.
  - intros (e & He & Hu). destruct e; simplify_eq. done.
Qed.

(** X18. The constructor starts its three goroutines exactly when it
    returns a manager.  The manager it returns has the settings it was
    given, no job counted and no job in flight; the poll interval it was
    given could be parsed. *)
Theorem NewPrinterManager_goroutines
    printerPollInterval gcpMaxConcurrentDownload queueSize
    fullUsername ignoreRaw scope schedule st :
  let run :=
    NewPrinterManager printerPollInterval gcpMaxConcurrentDownload
      queueSize fullUsername ignoreRaw scope schedule st in
  match outcome run with
  | Return (Success cfg) =>
      goroutines (record run) = managerGoroutines /\
      (cupsQueueSize cfg = queueSize /\
       jobFullUsername cfg = fullUsername /\
       ignoreRawPrinters cfg = ignoreRaw /\
       shareScope cfg = scope) /\
      (jobsDone (final run) = 0%N /\ jobsError (final run) = 0%N /\
       jobsInFlight (final run) = ∅) /\
      exists interval, timeParseDuration printerPollInterval = Success interval
  | Return (Failure _) | Pending => goroutines (record run) = []
  | Panic => False
  end.
Proof.
  simpl. destruct (gcpList (world st)) as [[listing|err] w] eqn:Hlist.
  2: { by rewrite (NewPrinterManager_List_failure _ _ _ _ _ _ _ _ _ _ Hlist). }
  destruct (NewPrinterManager_account printerPollInterval
              gcpMaxConcurrentDownload queueSize fullUsername ignoreRaw
              scope schedule st listing w Hlist)
    as (updates & rest & -> & (Hgo & _)%ping_events & _ & Hout).
  simpl. rewrite goroutines_app, Hgo. simpl.
  destruct (outcome _) as [[cfg|err]| |]; try done.
  - destruct Hout as (_ & (d & sync & -> & (Hsync & _)%round_events) & ? & ? & ?).
    simpl. by rewrite goroutines_app, Hsync.
  - destruct Hout as [(-> & _)|(_ & d & sync & -> & (Hsync & _)%round_events & _)];
      done.
  - by destruct Hout as (_ & d & sync & -> & (Hsync & _)%round_events).
Qed.

(** X19. A call of [SetPrinterXMPPPingInterval] that fails ends the
    constructor: it returns an error; the call is the last of its kind and
    the only one that failed; the interval of the connector has not been
    set, no round has run and no goroutine has been started. *)
Theorem NewPrinterManager_ping_failure
    printerPollInterval gcpMaxConcurrentDownload queueSize
    fullUsername ignoreRaw scope schedule st gcpID :
  let run :=
    NewPrinterManager printerPollInterval gcpMaxConcurrentDownload
      queueSize fullUsername ignoreRaw scope schedule st in
  In (EvSetPrinterXMPPPingInterval gcpID false) (record run) ->
  (exists err, outcome run = Return (Failure err)) /\
  (exists done_,
     pingUpdates (record run) = done_ ++ [(gcpID, false)] /\
     Forall (fun u => u.2 = true) done_) /\
  Forall (fun e => isSetConnector e = false) (record run) /\
  Forall (fun e => isGetPrinters e = false) (record run) /\
  goroutines (record run) = [].
Proof.
  simpl. destruct (gcpList (world st)) as [[listing|err] w] eqn:Hlist.
  2: { rewrite (NewPrinterManager_List_failure _ _ _ _ _ _ _ _ _ _ Hlist).
       simpl. intros [Hin|[]]. discriminate Hin. }
  destruct (NewPrinterManager_account printerPollInterval
              gcpMaxConcurrentDownload queueSize fullUsername ignoreRaw
              scope schedule st listing w Hlist)
    as (updates & rest & -> & (Hgo & Hset & Hget)%ping_events & _ & Hout).
  intros Hin. apply in_pingUpdates in Hin. simpl in Hin.
  rewrite pingUpdates_app in Hin.
  assert (Hok : forall l : list (string * bool),
            Forall (fun u => u.2 = true) l -> ~ In (gcpID, false) l).
  { intros l Hl Hl'. rewrite Forall_forall in Hl.
    by apply list_elem_of_In, Hl in Hl'. }
  assert (Hgoes : forall goes : list string, pingUpdates (EvGo <$> goes) = []).
  { intros goes. induction goes as [|g goes IH]; [done|].
    by rewrite fmap_cons. }
  assert (Hrest : forall d sync goes,
            Forall (fun u => u.2 = true) (pingUpdates updates) ->
            rest = EvSetConnectorXMPPPingInterval d :: sync ++ (EvGo <$> goes) ->
            Forall roundEvent sync -> False).
  { intros d sync goes Hall -> (_ & Hsync & _)%round_events.
    simpl in Hin. rewrite pingUpdates_app, Hsync, Hgoes in Hin. simpl in Hin.
    rewrite app_nil_r in Hin. by apply (Hok _ Hall). }
  destruct (outcome _) as [[cfg|err]| |]; try done.
  - destruct Hout as (Hall & (d & sync & Hr & Hsync) & _).
    exfalso. by apply (Hrest d sync managerGoroutines).
  - destruct Hout as [(-> & done_ & id & Hupd & Hdone)
                     |(Hall & d & sync & Hr & Hsync & _)].
    2: { exfalso. apply (Hrest d sync []); [done| |done].
         by rewrite Hr, app_nil_r. }
    rewrite app_nil_r in *. simpl in Hin. rewrite ?app_nil_r in Hin.
    rewrite Hupd in Hin. apply in_app_or in Hin as [Hin|Hin];
      [by apply Hok in Hin|].
    destruct Hin as [Hin|[]]. simplify_eq.
    split; [by eexists|]. split; [by exists done_|].
    split; [by constructor|]. split; [by constructor|]. done.
  - destruct Hout as (Hall & d & sync & Hr & Hsync).
    exfalso. apply (Hrest d sync []); [done| |done].
    by rewrite Hr, app_nil_r.
Qed.

(** X20. The constructor sets the ping interval of a printer only when
    [List] gave the printer and named it among the pending changes: a
    pending change for a printer that is not listed is skipped. *)
Theorem NewPrinterManager_ping_known
    printerPollInterval gcpMaxConcurrentDownload queueSize
    fullUsername ignoreRaw scope schedule st listing w gcpID ok :
  gcpList (world st) = (Success listing, w) ->
  In (EvSetPrinterXMPPPingInterval gcpID ok)
     (record (NewPrinterManager printerPollInterval gcpMaxConcurrentDownload
                queueSize fullUsername ignoreRaw scope schedule st)) ->
  In gcpID (listXMPPPingIntervalChanges listing) /\
  exists p, In p (listPrinters listing) /\ GCPID p = gcpID.
Proof.
  intros Hlist Hin.
  destruct (NewPrinterManager_account printerPollInterval
              gcpMaxConcurrentDownload queueSize fullUsername ignoreRaw
              scope schedule st listing w Hlist)
    as (updates & rest & Hrec & _ & Hknown & Hout).
  rewrite Hrec in Hin. apply in_pingUpdates in Hin. simpl in Hin.
  rewrite pingUpdates_app in Hin.
  assert (Hrest : pingUpdates rest = []).
  { destruct (outcome _) as [[cfg|err]| |]; try done.
    - destruct Hout as (_ & (d & sync & -> & (_ & Hsync & _)%round_events) & _).
      simpl. by rewrite pingUpdates_app, Hsync.
    - destruct Hout as [(-> & _)|(_ & d & sync & -> & (_ & Hsync & _)%round_events & _)];
        done.
    - by destruct Hout as (_ & d & sync & -> & (_ & Hsync & _)%round_events). }
  rewrite Hrest, app_nil_r in Hin.
  rewrite Forall_forall in Hknown.
  by apply list_elem_of_In, Hknown in Hin.
Qed.

(** X21. The errors of the constructor: that of [List], before anything
    else is called; that of a [SetPrinterXMPPPingInterval] call; that of
    the first round, which is the error of [GetPrinters]; and that of
    [time.ParseDuration], which is found only after the first round has
    run. *)
Theorem NewPrinterManager_errors
    printerPollInterval gcpMaxConcurrentDownload queueSize
    fullUsername ignoreRaw scope schedule st err :
  let run :=
    NewPrinterManager printerPollInterval gcpMaxConcurrentDownload
      queueSize fullUsername ignoreRaw scope schedule st in
  outcome run = Return (Failure err) ->
  (exists w, gcpList (world st) = (Failure err, w) /\
             record run = [EvList false]) \/
  (exists gcpID, In (EvSetPrinterXMPPPingInterval gcpID false) (record run)) \/
  (exists e, err = "Sync failed while calling GetPrinters(): " +:+ e /\
             In (EvGetPrinters false) (record run)) \/
  (timeParseDuration printerPollInterval = Failure err /\
   In (EvGlog Info "Synchronizing printers, stand by") (record run)).
Proof.
  simpl. destruct (gcpList (world st)) as [[listing|err'] w] eqn:Hlist.
  2: { rewrite (NewPrinterManager_List_failure _ _ _ _ _ _ _ _ _ _ Hlist).
       unfold outcome, record; simpl. intros [= ->]. left. by exists w. }
  intros Hout. right.
  unfold outcome, record in *.
  destruct (NewPrinterManager _ _ _ _ _ _ _ st) as [[r st'] l] eqn:E.
  simpl in *. subst r.
  unfold NewPrinterManager in E. unfold_manager.
  rewrite Hlist in E. simpl in E.
  destruct (attachSemaphores_run queueSize (listPrinters listing)
              (setWorld w st)) as (attached & A1 & A2 & _).
  destruct (attachSemaphores queueSize (listPrinters listing)
              (setWorld w st)) as [[r1 st1] l1].
  unfold outcome, record in A1, A2; simpl in A1, A2. subst r1 l1.
  simpl in E.
  match type of E with
  | context [updatePingIntervals ?c ?s] =>
      destruct (updatePingIntervals_account c s) as (_ & _ & _ & U4);
      destruct (updatePingIntervals c s) as [[r2 st2] l2]
  end.
  unfold outcome, record in U4; simpl in U4.
  destruct r2 as [[e|]| |]; try done; simpl in E.
  { simplify_eq. left. destruct U4 as (done_ & id & Hupd & _).
    exists id. right. rewrite app_nil_r. apply in_pingUpdates. rewrite Hupd.
    apply in_or_app. right. by left. }
  destruct (libNewSemaphore gcpMaxConcurrentDownload _) as [sem w'].
  simpl in E.
  match type of E with
  | context [syncPrinters ?c ?s ?t] =>
      destruct (syncPrinters_account c s t) as (_ & _ & S2);
      destruct (syncPrinters_frame c s t) as (_ & _ & tail & S3);
      destruct (syncPrinters c s t) as [[r3 st3] l3]
  end.
  unfold outcome, final, record in S2, S3; simpl in S2, S3.
  destruct r3 as [[text|]| |]; try done; simpl in E.
  - simplify_eq. right. left.
    destruct (S2 _ eq_refl) as (e & w'' & _ & -> & _ & Hrec).
    exists e. split; [done|]. right. apply in_or_app. right.
    right. rewrite Hrec. simpl. auto.
  - destruct (timeParseDuration printerPollInterval) as [interval|e] eqn:Ep;
      simpl in E; simplify_eq.
    right. right. split; [done|]. right. apply in_or_app. right.
    right. rewrite !in_app_iff. simpl. auto.
Qed.
End ConstructorExtras.

(** ** The job statistics *)

Section StatsExtras.
Context `{SemaphoreCounts}.

Lemma processingOf_from (w : World) (printers : list Printer) (a : N) :
  foldl (fun processing printer =>
           uintAdd processing (semCount (CUPSJobSemaphore printer) w))
        (a mod 2 ^ uintBits)%N printers =
  ((a + permitsHeld w printers) mod 2 ^ uintBits)%N.
Proof.
  revert a. induction printers as [|p printers IH]; intros a; simpl.
  { by rewrite N.add_0_r. }
  unfold uintAdd at 2. rewrite N.Div0.add_mod_idemp_l, IH.
  by rewrite N.add_assoc.
Qed.

Lemma permitsHeld_Permutation (w : World) (printers printers' : list Printer) :
  printers ≡ₚ printers' -> permitsHeld w printers = permitsHeld w printers'.
Proof.
  induction 1; simpl; lia.
Qed.

(** X22. [GetJobStats] does not fail and changes nothing.  It returns
    the two counters as they are and, as the number of jobs in
    processing, the sum of the permits held on the semaphores of the
    printers of the table, modulo [2 ^ uintBits], in whatever order
    [GetAll] lists the printers. *)
Theorem GetJobStats_processing (st : State) :
  exists processing,
    GetJobStats st =
      (Return (jobsDone st, jobsError st, processing, None), st, []) /\
    forall printers,
      printers ≡ₚ GetAll (gcpPrintersByGCPID st) ->
      processing = (permitsHeld (world st) printers mod 2 ^ uintBits)%N /\
      processing = processingOf (world st) printers.
Proof.
  eexists. split; [reflexivity|].
  intros printers Hperm. unfold processingOf.
  pose proof (processingOf_from (world st)) as Hfrom.
  specialize (Hfrom (GetAll (gcpPrintersByGCPID st)) 0%N) as Hall.
  specialize (Hfrom printers 0%N) as Hsome.
  rewrite N.Div0.mod_0_l, N.add_0_l in Hall, Hsome.
  rewrite Hall, Hsome. by rewrite (permitsHeld_Permutation _ _ _ Hperm).
Qed.
End StatsExtras.

(** ** Runs in the scripted world *)

Section ScriptedExtras.
Import Scripted ScriptedStats.

Ltac in_record := vm_compute; repeat (first [left; reflexivity | right]).

(** A job that was followed to its end and is delivered again: it is
    processed again. *)
Lemma processJob_redelivery_witness :
  inFlight (jobsInFlight (manager (script [] threePolls))) (GCPJobID job1) =
    false /\
  exists rest,
    record (processJob 5 (config false) job1
              (final (processJob 5 (config false) job1
                        (manager (script [] threePolls))))) =
    EvInFlightAdd (GCPJobID job1) :: rest.
Proof.
  split; [reflexivity|].
  assert (Hended : ended (outcome (processJob 5 (config false) job1
                                     (manager (script [] threePolls)))) = true)
    by reflexivity.
  pose proof (processJob_redelivery 5 5 (config false) job1
                (manager (script [] threePolls)) eq_refl) as Hagain.
  cbv zeta in Hagain. rewrite Hended in Hagain. exact Hagain.
Defined.

(** The job that prints: on the printer of the table, with the options
    of its ticket, from the file it was downloaded to. *)
Lemma processJob_print_arguments_witness :
  In (EvPrint "printer-A" "/tmp/cups-connector-1" "gcp:J1 Quarterly report"
              "alice" ∅ (Some 7%N))
     (record (processJob 5 (config false) job1 (manager (script [] threePolls)))) /\
  (exists p,
     gcpPrintersByGCPID (manager (script [] threePolls)) !! GCPPrinterID job1 =
       Some p /\
     "printer-A" = Name p) /\
  (exists w, gcpTicket (GCPJobID job1) (world (manager (script [] threePolls))) =
             (Success ∅, w)) /\
  In (EvDownload "/tmp/cups-connector-1" (FileURL job1) true)
     (record (processJob 5 (config false) job1 (manager (script [] threePolls)))).
Proof.
  split; [in_record|].
  apply (processJob_print_arguments 5 (config false) job1
           (manager (script [] threePolls))
           "printer-A" "/tmp/cups-connector-1" "gcp:J1 Quarterly report"
           "alice" ∅ (Some 7%N)).
  in_record.
Defined.

(** A job whose printer is busy: its processor waits with the file
    downloaded, holding no permit; the download permit is released. *)
Example processJob_waits_for_printer :
  outcome (processJob 5 (config false) job1 (manager busyScript)) = Pending /\
  acquires (record (processJob 5 (config false) job1 (manager busyScript))) =
    [5%N] /\
  releases (record (processJob 5 (config false) job1 (manager busyScript))) =
    [5%N] /\
  inFlight (jobsInFlight (final (processJob 5 (config false) job1
                                   (manager busyScript)))) "J1" = true.
Proof. repeat split; vm_compute; reflexivity. Qed.

(** A round whose [GetPrinters] call fails. *)
Lemma syncPrinters_error_witness :
  outcome (syncPrinters (config false) []
             (managerAB (roundScript ["GetPrinters"]))) =
    Return (Some "Sync failed while calling GetPrinters(): GetPrinters failed") /\
  exists err w,
    cupsGetPrinters (world (managerAB (roundScript ["GetPrinters"]))) =
      (Failure err, w) /\
    "Sync failed while calling GetPrinters(): GetPrinters failed" =
      "Sync failed while calling GetPrinters(): " +:+ err /\
    final (syncPrinters (config false) []
             (managerAB (roundScript ["GetPrinters"]))) =
      setWorld w (managerAB (roundScript ["GetPrinters"])) /\
    record (syncPrinters (config false) []
              (managerAB (roundScript ["GetPrinters"]))) =
      [EvGlog Info "Synchronizing printers, stand by"; EvGetPrinters false].
Proof.
  split; [reflexivity|].
  apply (syncPrinters_error (config false) []
           (managerAB (roundScript ["GetPrinters"]))).
  reflexivity.
Defined.

(** A round of three diffs of which two goroutines run: two sends, no
    [Refresh], and the round waits. *)
Lemma syncPrinters_waits_for_all_witness :
  cupsGetPrinters (world (managerAB (roundScript []))) =
    (Success (spoolerPrinters (roundScript [])), roundScript []) /\
  roundDiffs (config false) (spoolerPrinters (roundScript []))
             (managerAB (roundScript [])) = Some roundDiffsAB /\
  outcome (syncPrinters (config false) [0; 1]%nat
             (managerAB (roundScript []))) = Pending /\
  refreshes (record (syncPrinters (config false) [0; 1]%nat
                       (managerAB (roundScript [])))) = [].
Proof.
  split; [reflexivity|]. split; [vm_compute; reflexivity|].
  pose proof (syncPrinters_waits_for_all (config false) [0; 1]%nat
                (managerAB (roundScript []))
                (spoolerPrinters (roundScript [])) (roundScript [])
                roundDiffsAB) as Hrun.
  cbv zeta in Hrun.
  destruct Hrun as (_ & Hrun); [reflexivity|vm_compute; reflexivity|].
  case_decide as Hall.
  - vm_compute in Hall. discriminate Hall.
  - destruct Hrun as (Hout & Hnone & _).
    split; [exact Hout|exact Hnone].
Defined.

(** The loop whose first round fails: the error is logged, the timer is
    reset, and the loop waits for what comes next. *)
Lemma syncPrintersPeriodically_failed_round_witness :
  cupsGetPrinters (world (managerAB (roundScript ["GetPrinters"]))) =
    (Failure "GetPrinters failed", roundScript ["GetPrinters"]) /\
  record (syncPrintersPeriodically (config false) [(Tick, [])]
            (managerAB (roundScript ["GetPrinters"]))) =
    [EvGlog Info "Synchronizing printers, stand by"; EvGetPrinters false;
     EvGlog Error "Sync failed while calling GetPrinters(): GetPrinters failed";
     EvTimerReset].
Proof.
  split; [reflexivity|].
  destruct (syncPrintersPeriodically_failed_round (config false) [] []
              (managerAB (roundScript ["GetPrinters"]))
              "GetPrinters failed" (roundScript ["GetPrinters"]) eq_refl)
    as (Hrecord & _).
  exact Hrecord.
Defined.


(** The constructor in a world where the ping interval cannot be set. *)
Lemma NewPrinterManager_ping_failure_witness :
  In (EvSetPrinterXMPPPingInterval "gcp-printer-A" false)
     (record (NewPrinterManager "1m" 4%N 2%N false false "team@example.com"
                [1; 0]%nat
                (manager (script ["SetPrinterXMPPPingInterval"] [])))) /\
  (exists err,
     outcome (NewPrinterManager "1m" 4%N 2%N false false "team@example.com"
                [1; 0]%nat
                (manager (script ["SetPrinterXMPPPingInterval"] []))) =
     Return (Failure err)) /\
  goroutines
    (record (NewPrinterManager "1m" 4%N 2%N false false "team@example.com"
               [1; 0]%nat
               (manager (script ["SetPrinterXMPPPingInterval"] [])))) = [].
Proof.
  split; [in_record|].
  destruct (NewPrinterManager_ping_failure
              "1m" 4%N 2%N false false "team@example.com" [1; 0]%nat
              (manager (script ["SetPrinterXMPPPingInterval"] []))
              "gcp-printer-A") as (Herr & _ & _ & _ & Hgo); [in_record|].
  split; [exact Herr|exact Hgo].
Defined.

(** The constructor in the world of [script]: the pending change of
    [printerA] is applied. *)
Lemma NewPrinterManager_ping_known_witness :
  gcpList (world (manager (script [] []))) =
    (Success (cloudListing (script [] [])), script [] []) /\
  In (EvSetPrinterXMPPPingInterval "gcp-printer-A" true)
     (record (NewPrinterManager "1m" 4%N 2%N false false "team@example.com"
                [1; 0]%nat (manager (script [] [])))) /\
  In "gcp-printer-A" (listXMPPPingIntervalChanges (cloudListing (script [] []))) /\
  exists p, In p (listPrinters (cloudListing (script [] []))) /\
            GCPID p = "gcp-printer-A".
Proof.
  split; [reflexivity|]. split; [in_record|].
  apply (NewPrinterManager_ping_known
           "1m" 4%N 2%N false false "team@example.com" [1; 0]%nat
           (manager (script [] [])) (cloudListing (script [] []))
           (script [] []) "gcp-printer-A" true);
    [reflexivity|in_record].
Defined.

(** The constructor given a poll interval that cannot be parsed: it
    fails after the first round. *)
Lemma NewPrinterManager_errors_witness :
  outcome (NewPrinterManager "soon" 4%N 2%N false false "team@example.com"
             [1; 0]%nat (manager (script [] []))) =
    Return (Failure "invalid duration") /\
  timeParseDuration "soon" = Failure "invalid duration" /\
  In (EvGlog Info "Synchronizing printers, stand by")
     (record (NewPrinterManager "soon" 4%N 2%N false false "team@example.com"
                [1; 0]%nat (manager (script [] [])))).
Proof.
  split; [reflexivity|].
  destruct (NewPrinterManager_errors
              "soon" 4%N 2%N false false "team@example.com" [1; 0]%nat
              (manager (script [] [])) "invalid duration" eq_refl)
    as [(w & Hlist & _)|[(gcpID & Hping)|[(e & He & _)|Hparse]]].
  - discriminate Hlist.
  - exfalso. vm_compute in Hping.
    repeat (destruct Hping as [Hping|Hping]; [discriminate Hping|]).
    exact Hping.
  - discriminate He.
  - exact Hparse.
Defined.

(** The constructor where all goes well: three goroutines. *)
Example NewPrinterManager_starts :
  goroutines
    (record (NewPrinterManager "1m" 4%N 2%N false false "team@example.com"
               [1; 0]%nat (manager (script [] [])))) = managerGoroutines /\
  goroutines
    (record (NewPrinterManager "soon" 4%N 2%N false false "team@example.com"
               [1; 0]%nat (manager (script [] [])))) = [].
Proof. split; vm_compute; reflexivity. Qed.

(** The statistics of a manager whose one printer has a full semaphore,
    of capacity two. *)
Example GetJobStats_busy :
  outcome (GetJobStats (manager busyScript)) =
    Return (0%N, 0%N, 2%N, None).
Proof. vm_compute. reflexivity. Qed.
End ScriptedExtras.
